(** * parse_egg_images.py: the egg-image annotation tool, embedded in Rocq

    A shallow embedding of [src/parse_egg_images.py] (Python 2):
    the geometry helpers, the zoom arithmetic, the mouse callback
    [annotate_image], the per-image driver [process_one_image] and the
    record loop [main]; then the marker [draw_dot], and of
    [src/make_single_page_PDFs.py] and [src/make_single_page_PNGs.py]
    the choice of records, the file names, the search for a PDF and the
    conversion loop; followed by the properties proved about them.

    Conventions.
    - A Python [int] is a [Z]; Python 2's [/] on two ints is floor
      division ([Z.div]).
    - A Python [float] is an element of a type [F] carrying the
      interface [PyFloat].  The code is written once over that interface
      and read at two instances: [R] (exact arithmetic, for the general
      geometric statements) and IEEE binary64 ([PrimFloat.float], the
      very numbers CPython computes with, for evaluation).
    - [x ** 2] is read as [x * x] and [x ** 0.5] as the square root
      (CPython calls the C library's [pow], whose last bit may differ
      from the correctly rounded root of binary64).
    - A raised exception is the outcome [Raise e]; a loop that waits for
      an event that never comes is the outcome [Hang].
    - Drawing on the overlay image, [notify] and console printing do not
      influence any value the program computes and are left out of the
      callback and the drivers, except for the warnings of [main] about
      undecodable lines; a dictionary lookup made only to draw or to
      print is kept, since it can raise.  The calls [draw_dot] makes are
      modelled on their own.  The two [cv2.imwrite] calls that end a
      confirmed session are left out as well.
    - What the operator does is an input: the events each window
      receives, in order, and the lines typed on the console.
    - [cv2.resize], [numpy.arccos], [input] and [float] of a string are
      parameters of the driver. *)

From Stdlib Require Import ZArith Reals Lra Lia Field Machin.
From Stdlib Require PrimFloat FloatOps SpecFloat Uint63.
From Stdlib Require Import Ascii String.
From stdpp Require Import gmap strings list.

Local Open Scope Z_scope.

(** ** Exceptions, outcomes and the state-and-exception monad *)

Inductive exn : Type :=
  | ZeroDivisionError
  | KeyError (k : string)
  | TypeError
  | IndexError
  | NameError
  | ValueError
  | OverflowError
  | EOFError
  | SyntaxError
  | Cv2Error.

Inductive outcome (A : Type) : Type :=
  | Ok (a : A)
  | Raise (e : exn)
  | Hang.
Arguments Ok {A} a.
Arguments Raise {A} e.
Arguments Hang {A}.

(** A computation over a mutable store [S]: the store survives an
    exception, as Python's globals do. *)
Definition PyM (S A : Type) : Type := S -> outcome A * S.

Definition ret {S A} (a : A) : PyM S A := fun s => (Ok a, s).

Definition bind {S A B} (m : PyM S A) (k : A -> PyM S B) : PyM S B :=
  fun s =>
    match m s with
    | (Ok a, s') => k a s'
    | (Raise e, s') => (Raise e, s')
    | (Hang, s') => (Hang, s')
    end.

Definition raise {S A} (e : exn) : PyM S A := fun s => (Raise e, s).
Definition hang {S A} : PyM S A := fun s => (Hang, s).
Definition get {S} : PyM S S := fun s => (Ok s, s).
Definition gets {S A} (f : S -> A) : PyM S A := fun s => (Ok (f s), s).
Definition modify {S} (f : S -> S) : PyM S unit := fun s => (Ok tt, f s).

(** [try: m except: pass] for a callback whose exception the caller
    prints and drops. *)
Definition swallow {S} (m : PyM S unit) : PyM S unit :=
  fun s =>
    match m s with
    | (Raise _, s') => (Ok tt, s')
    | r => r
    end.

Declare Scope py_scope.
Delimit Scope py_scope with py.
Notation "'let*' x ':=' m 'in' k" := (bind m (fun x => k))
  (at level 10, x pattern, m at level 99, k at level 200) : py_scope.
Notation "m ;; k" := (bind m (fun _ => k))
  (at level 100, k at level 200, right associativity) : py_scope.
Local Open Scope py_scope.

(** The helpers that touch no store are polymorphic in it; [run_pure]
    reads their outcome. *)
Definition run_pure {A} (m : PyM unit A) : outcome A := fst (m tt).

(** [I] is kept by [m], whatever the outcome. *)
Definition preserves {S A} (I : S -> Prop) (m : PyM S A) : Prop :=
  forall s, I s -> I (snd (m s)).

(** [m] establishes [Q] from [P], whatever the outcome. *)
Definition establishes {S A} (P : S -> Prop) (m : PyM S A) (Q : S -> Prop)
  : Prop :=
  forall s, P s -> Q (snd (m s)).

(** ** Python floats *)

Class PyFloat (F : Type) : Type := {
  fadd : F -> F -> F;
  fsub : F -> F -> F;
  fmul : F -> F -> F;
  (** the quotient; only reached with a divisor that is not zero *)
  fquot : F -> F -> F;
  (** [x ** 0.5] *)
  fsqrt : F -> F;
  feqb : F -> F -> bool;
  fltb : F -> F -> bool;
  (** [float(n)] *)
  of_int : Z -> F;
  (** [int(x)]: truncation toward zero; [None] for nan and the infinities *)
  to_int : F -> option Z;
}.

(** *** Exact arithmetic *)

Definition R_eqb (a b : R) : bool := if Req_dec_T a b then true else false.
Definition R_ltb (a b : R) : bool := if Rlt_dec a b then true else false.
Definition R_trunc (x : R) : Z :=
  if Rle_dec 0 x then Int_part x else - Int_part (- x).

#[export] Instance R_float : PyFloat R := {|
  fadd := Rplus; fsub := Rminus; fmul := Rmult; fquot := Rdiv;
  fsqrt := sqrt; feqb := R_eqb; fltb := R_ltb;
  of_int := IZR; to_int := fun x => Some (R_trunc x) |}.

(** *** IEEE binary64 *)

Definition b64_of_int (z : Z) : PrimFloat.float :=
  FloatOps.SF2Prim
    (SpecFloat.binary_normalize FloatOps.prec FloatOps.emax z 0 false).

Definition b64_to_int (x : PrimFloat.float) : option Z :=
  match FloatOps.Prim2SF x with
  | SpecFloat.S754_zero _ => Some 0
  | SpecFloat.S754_finite s m e =>
      let a := if 0 <=? e then Z.pos m * 2 ^ e else Z.pos m / 2 ^ (- e) in
      Some (if s then - a else a)
  | _ => None
  end.

#[export] Instance b64_float : PyFloat PrimFloat.float := {|
  fadd := PrimFloat.add; fsub := PrimFloat.sub; fmul := PrimFloat.mul;
  fquot := PrimFloat.div; fsqrt := PrimFloat.sqrt;
  feqb := PrimFloat.eqb; fltb := PrimFloat.ltb;
  of_int := b64_of_int; to_int := b64_to_int |}.

(** ** Python numbers and values *)

Section Python.
Context {F : Type} {PF : PyFloat F}.

(** A number is an [int] or a [float]; arithmetic on an int and a float
    converts the int. *)
Inductive num : Type :=
  | Int (z : Z)
  | Flt (x : F).

(** What a dictionary entry of the program holds: a number, a string or
    a pair of numbers (a point). *)
Inductive value : Type :=
  | Num (n : num)
  | Str (s : string)
  | Tup (a b : num).

Definition to_float (a : num) : F :=
  match a with Int z => of_int z | Flt x => x end.

Definition py_add (a b : num) : num :=
  match a, b with
  | Int x, Int y => Int (x + y)
  | _, _ => Flt (fadd (to_float a) (to_float b))
  end.

Definition py_sub (a b : num) : num :=
  match a, b with
  | Int x, Int y => Int (x - y)
  | _, _ => Flt (fsub (to_float a) (to_float b))
  end.

Definition py_mul (a b : num) : num :=
  match a, b with
  | Int x, Int y => Int (x * y)
  | _, _ => Flt (fmul (to_float a) (to_float b))
  end.

(** [a / b]: floor division of two ints, the float quotient otherwise;
    a zero divisor raises in both cases. *)
Definition py_div {S} (a b : num) : PyM S num :=
  match a, b with
  | Int x, Int y =>
      if y =? 0 then raise ZeroDivisionError else ret (Int (x / y))
  | _, _ =>
      if feqb (to_float b) (of_int 0) then raise ZeroDivisionError
      else ret (Flt (fquot (to_float a) (to_float b)))
  end.

Definition py_eq (a b : num) : bool :=
  match a, b with
  | Int x, Int y => x =? y
  | _, _ => feqb (to_float a) (to_float b)
  end.

Definition py_lt (a b : num) : bool :=
  match a, b with
  | Int x, Int y => x <? y
  | _, _ => fltb (to_float a) (to_float b)
  end.

Definition py_gt (a b : num) : bool := py_lt b a.

(** [a ** 2] and [a ** 0.5] *)
Definition py_sq (a : num) : num := py_mul a a.
Definition py_pow_half (a : num) : num := Flt (fsqrt (to_float a)).

(** [float(a)] and [int(a)] *)
Definition py_float (a : num) : num := Flt (to_float a).
Definition py_int {S} (a : num) : PyM S Z :=
  match a with
  | Int z => ret z
  | Flt x => match to_int x with Some z => ret z | None => raise OverflowError end
  end.

(** A decimal literal [m / 10^k], such as [1.3] or [3.1415]. *)
Definition dec (m : Z) (k : nat) : num :=
  Flt (fquot (of_int m) (of_int (10 ^ Z.of_nat k))).

(** ** Geometry helpers *)

Definition point : Type := num * num.

(* def distance(pt1, pt2) *)
Definition distance (pt1 pt2 : point) : num :=
  py_pow_half (py_add (py_sq (py_sub (fst pt2) (fst pt1)))
                      (py_sq (py_sub (snd pt2) (snd pt1)))).

(* def midpoint(pt1, pt2) *)
Definition midpoint {S} (pt1 pt2 : point) : PyM S point :=
  let* mid_x := py_div (py_add (fst pt1) (fst pt2)) (Int 2) in
  let* mid_y := py_div (py_add (snd pt1) (snd pt2)) (Int 2) in
  ret (mid_x, mid_y).

(* def calc_bisector_ends(pt1, pt2) *)
Definition calc_bisector_ends {S} (pt1 pt2 : point) : PyM S (point * point) :=
  let factor := Int 4 in
  let* (mid_x, mid_y) := midpoint pt1 pt2 in
  let pt1_rot := (py_add (py_sub mid_x (snd pt1)) mid_y,
                  py_sub (py_add mid_y (fst pt1)) mid_x) in
  let pt2_rot := (py_add (py_sub mid_x (snd pt2)) mid_y,
                  py_sub (py_add mid_y (fst pt2)) mid_x) in
  let d_pt1_x := py_sub (fst pt1_rot) mid_x in
  let d_pt1_y := py_sub (snd pt1_rot) mid_y in
  let pt1_ext := (py_add mid_x (py_mul factor d_pt1_x),
                  py_add mid_y (py_mul factor d_pt1_y)) in
  let d_pt2_x := py_sub (fst pt2_rot) mid_x in
  let d_pt2_y := py_sub (snd pt2_rot) mid_y in
  let pt2_ext := (py_add mid_x (py_mul factor d_pt2_x),
                  py_add mid_y (py_mul factor d_pt2_y)) in
  ret (pt1_ext, pt2_ext).

(** The sentinel pair ['DNE', 'DNE']. *)
Definition DNE : value * value := (Str "DNE", Str "DNE").

(** Lines 226-238: the two chords are chosen so that neither is
    vertical. *)
Definition choose_chords (pt1 pt2 pt3 : point) : point * point * point :=
  if py_eq (fst pt1) (fst pt2) then (pt2, pt3, pt1)
  else if py_eq (fst pt2) (fst pt3) then (pt3, pt1, pt2)
  else (pt1, pt2, pt3).

(** Lines 240-252: the perpendicular bisectors of the chords are
    intersected; the radius is measured to [pt1]. *)
Definition intersect_bisectors {S} (chords : point * point * point)
    (pt1 : point) : PyM S (value * value) :=
  let '((x1, y1), (x2, y2), (x3, y3)) := chords in
  let* slope_a := py_div (py_sub y2 y1) (py_sub x2 (py_float x1)) in
  let* slope_b := py_div (py_sub y3 y2) (py_sub x3 (py_float x2)) in
  if py_eq slope_a slope_b then ret DNE
  else
    let* x_center :=
      py_div
        (py_sub
           (py_add (py_mul (py_mul slope_a slope_b) (py_sub y1 y3))
                   (py_mul slope_b (py_add x1 x2)))
           (py_mul slope_a (py_add x2 x3)))
        (py_mul (Int 2) (py_sub slope_b slope_a)) in
    let* inv := py_div (Int (-1)) slope_a in
    let* half_x := py_div (py_add x1 x2) (dec 20 1) in
    let* half_y := py_div (py_add y1 y2) (dec 20 1) in
    let y_center := py_add (py_mul inv (py_sub x_center half_x)) half_y in
    let radius := distance (x_center, y_center) pt1 in
    ret (Tup x_center y_center, Num radius).

(* def get_circle_center(pt1, pt2, pt3) *)
Definition get_circle_center {S} (pt1 pt2 pt3 : point)
  : PyM S (value * value) :=
  if py_eq (fst pt1) (fst pt2) && py_eq (fst pt1) (fst pt3) then ret DNE
  else intersect_bisectors (choose_chords pt1 pt2 pt3) pt1.

(** ** The zoom arithmetic *)

(** [screen_max_w = 1400.0], [screen_max_h = 800.0] *)
Definition screen_max_w : num := dec 14000 1.
Definition screen_max_h : num := dec 8000 1.

(** [lo + int((float(click)/res) * (hi - lo))]: a coordinate of the
    displayed window converted to the original image.  The source writes
    the expression out at each use. *)
Definition to_orig {S} (lo hi res click : Z) : PyM S Z :=
  let* q := py_div (py_float (Int click)) (Int res) in
  let* t := py_int (py_mul q (Int (hi - lo))) in
  ret (lo + t).

(* def calc_new_view(h_min, h_max, w_min, w_max, res_height, res_width,
                     click_h, click_w) *)
Definition calc_new_view {S}
    (h_min h_max w_min w_max res_height res_width click_h click_w : Z)
  : PyM S (Z * Z * Z * Z) :=
  let zoom_scale := dec 13 1 in
  let* orig_click_h := to_orig h_min h_max res_height click_h in
  let* orig_click_w := to_orig w_min w_max res_width click_w in
  let* ww := py_div (Int (w_max - w_min)) zoom_scale in
  let* new_window_width := py_int ww in
  let* wh := py_div (py_mul screen_max_h (Int new_window_width)) screen_max_w in
  let* new_window_height := py_int wh in
  let new_h_min := orig_click_h - new_window_height / 2 in
  let new_h_max := orig_click_h + new_window_height / 2 in
  let new_w_min := orig_click_w - new_window_width / 2 in
  let new_w_max := orig_click_w + new_window_width / 2 in
  let '(new_h_min, new_h_max) :=
    if new_h_min <? h_min then
      let shift_h := Z.abs (new_h_min - h_min) in
      (new_h_min + shift_h, new_h_max + shift_h)
    else (new_h_min, new_h_max) in
  let '(new_h_min, new_h_max) :=
    if new_h_max >? h_max then
      let shift_h := Z.abs (h_max - new_h_max) in
      (new_h_min - shift_h, new_h_max - shift_h)
    else (new_h_min, new_h_max) in
  let '(new_w_min, new_w_max) :=
    if new_w_min <? w_min then
      let shift_w := Z.abs (new_w_min - w_min) in
      (new_w_min + shift_w, new_w_max + shift_w)
    else (new_w_min, new_w_max) in
  let '(new_w_min, new_w_max) :=
    if new_w_max >? w_max then
      let shift_w := Z.abs (w_max - new_w_max) in
      (new_w_min - shift_w, new_w_max - shift_w)
    else (new_w_min, new_w_max) in
  ret (new_h_min, new_h_max, new_w_min, new_w_max).

(** The length of the numpy slice [a[lo:hi]] of an axis of length [n]. *)
Definition np_index (n i : Z) : Z :=
  if i <? 0 then Z.max (i + n) 0 else Z.min i n.
Definition np_slice_len (n lo hi : Z) : Z :=
  Z.max (np_index n hi - np_index n lo) 0.

(** [cv2.resize] is a library call of which the program uses the shape
    of the result only: [resize_shape (rows, cols) factor] is that shape,
    or the library's error. *)
Variable resize_shape : Z * Z -> num -> outcome (Z * Z).

(* def make_new_view(h_min, h_max, w_min, w_max, im): the shape of the
   image it returns, from the shape of [im] *)
Definition make_new_view {S} (h_min h_max w_min w_max : Z) (im : Z * Z)
  : PyM S (Z * Z) :=
  let tmp_im := (np_slice_len (fst im) h_min h_max,
                 np_slice_len (snd im) w_min w_max) in
  let* resize_factor := py_div screen_max_w (Int (w_max - w_min)) in
  let* resize_factor :=
    if py_gt (py_mul (Int (h_max - h_min)) resize_factor) screen_max_h
    then py_div screen_max_h (Int (h_max - h_min))
    else ret resize_factor in
  fun s => (resize_shape tmp_im resize_factor, s).

(** ** The globals of the annotation session *)

Inductive mode_t : Type :=
  | box | points8 | points4 | scale_bar
  | zoom_in | zoom_out | reset | next | quit.

#[export] Instance mode_eq_dec : EqDecision mode_t.
Proof. solve_decision. Defined.

(** The module's globals, the shape of the global image [img], and the
    lines the operator will type on the console. *)
Record globals : Type := {
  cx : Z;
  cy : Z;
  px : Z;
  py : Z;
  mode : mode_t;
  points : Z;
  sb_ends : Z;
  h_min : Z;
  h_max : Z;
  w_min : Z;
  w_max : Z;
  res_h : Z;
  res_w : Z;
  image_data : gmap string value;
  img : Z * Z;
  stdin : list string;
}.

Definition set_cxy (x y : Z) (s : globals) : globals :=
  {| cx := x; cy := y; px := px s; py := py s; mode := mode s;
     points := points s; sb_ends := sb_ends s; h_min := h_min s;
     h_max := h_max s; w_min := w_min s; w_max := w_max s;
     res_h := res_h s; res_w := res_w s; image_data := image_data s;
     img := img s; stdin := stdin s |}.

Definition set_pxy (x y : Z) (s : globals) : globals :=
  {| cx := cx s; cy := cy s; px := x; py := y; mode := mode s;
     points := points s; sb_ends := sb_ends s; h_min := h_min s;
     h_max := h_max s; w_min := w_min s; w_max := w_max s;
     res_h := res_h s; res_w := res_w s; image_data := image_data s;
     img := img s; stdin := stdin s |}.

Definition set_mode (m : mode_t) (s : globals) : globals :=
  {| cx := cx s; cy := cy s; px := px s; py := py s; mode := m;
     points := points s; sb_ends := sb_ends s; h_min := h_min s;
     h_max := h_max s; w_min := w_min s; w_max := w_max s;
     res_h := res_h s; res_w := res_w s; image_data := image_data s;
     img := img s; stdin := stdin s |}.

Definition set_points (n : Z) (s : globals) : globals :=
  {| cx := cx s; cy := cy s; px := px s; py := py s; mode := mode s;
     points := n; sb_ends := sb_ends s; h_min := h_min s; h_max := h_max s;
     w_min := w_min s; w_max := w_max s; res_h := res_h s;
     res_w := res_w s; image_data := image_data s; img := img s;
     stdin := stdin s |}.

Definition set_sb_ends (n : Z) (s : globals) : globals :=
  {| cx := cx s; cy := cy s; px := px s; py := py s; mode := mode s;
     points := points s; sb_ends := n; h_min := h_min s; h_max := h_max s;
     w_min := w_min s; w_max := w_max s; res_h := res_h s;
     res_w := res_w s; image_data := image_data s; img := img s;
     stdin := stdin s |}.

Definition set_view (a b c d : Z) (s : globals) : globals :=
  {| cx := cx s; cy := cy s; px := px s; py := py s; mode := mode s;
     points := points s; sb_ends := sb_ends s; h_min := a; h_max := b;
     w_min := c; w_max := d; res_h := res_h s; res_w := res_w s;
     image_data := image_data s; img := img s; stdin := stdin s |}.

Definition set_res (h w : Z) (s : globals) : globals :=
  {| cx := cx s; cy := cy s; px := px s; py := py s; mode := mode s;
     points := points s; sb_ends := sb_ends s; h_min := h_min s;
     h_max := h_max s; w_min := w_min s; w_max := w_max s; res_h := h;
     res_w := w; image_data := image_data s; img := img s;
     stdin := stdin s |}.

Definition set_image_data (d : gmap string value) (s : globals) : globals :=
  {| cx := cx s; cy := cy s; px := px s; py := py s; mode := mode s;
     points := points s; sb_ends := sb_ends s; h_min := h_min s;
     h_max := h_max s; w_min := w_min s; w_max := w_max s;
     res_h := res_h s; res_w := res_w s; image_data := d; img := img s;
     stdin := stdin s |}.

Definition set_img (i : Z * Z) (s : globals) : globals :=
  {| cx := cx s; cy := cy s; px := px s; py := py s; mode := mode s;
     points := points s; sb_ends := sb_ends s; h_min := h_min s;
     h_max := h_max s; w_min := w_min s; w_max := w_max s;
     res_h := res_h s; res_w := res_w s; image_data := image_data s;
     img := i; stdin := stdin s |}.

Definition set_stdin (l : list string) (s : globals) : globals :=
  {| cx := cx s; cy := cy s; px := px s; py := py s; mode := mode s;
     points := points s; sb_ends := sb_ends s; h_min := h_min s;
     h_max := h_max s; w_min := w_min s; w_max := w_max s;
     res_h := res_h s; res_w := res_w s; image_data := image_data s;
     img := img s; stdin := l |}.


(* image_data[k] = v *)
Definition setitem (k : string) (v : value) : PyM globals unit :=
  modify (fun s => set_image_data (<[k := v]> (image_data s)) s).

(* image_data[k] *)
Definition getitem (k : string) : PyM globals value :=
  let* s := get in
  match image_data s !! k with
  | Some v => ret v
  | None => raise (KeyError k)
  end.

(* k in image_data *)
Definition contains (k : string) : PyM globals bool :=
  gets (fun s => bool_decide (is_Some (image_data s !! k))).

(** A dictionary entry used as a point, as a number. *)
Definition as_point {S} (v : value) : PyM S point :=
  match v with Tup a b => ret (a, b) | _ => raise TypeError end.
Definition as_num {S} (v : value) : PyM S num :=
  match v with Num n => ret n | _ => raise TypeError end.
Definition getpoint (k : string) : PyM globals point :=
  let* v := getitem k in as_point v.

(** ** The mouse callback *)

Inductive mouse : Type := LBUTTONUP | RBUTTONUP | other_mouse.

(* points += 1 *)
Definition incr_points : PyM globals unit :=
  modify (fun s => set_points (points s + 1) s).

(** The point [(raw_w, raw_h)] as a dictionary entry. *)
Definition click (raw_w raw_h : Z) : value := Tup (Int raw_w) (Int raw_h).

(* mode == 'box' *)
Definition annotate_box (x y : Z) : PyM globals unit :=
  let* s := get in
  if bool_decide (px s <> -1) then
    let* raw_box_h1 := to_orig (h_min s) (h_max s) (res_h s) y in
    let* raw_box_w1 := to_orig (w_min s) (w_max s) (res_w s) x in
    let* raw_box_h2 := to_orig (h_min s) (h_max s) (res_h s) (py s) in
    let* raw_box_w2 := to_orig (w_min s) (w_max s) (res_w s) (px s) in
    (if raw_box_h1 <? raw_box_h2 then
       setitem "im_box_h1" (Num (Int raw_box_h1)) ;;
       setitem "im_box_h2" (Num (Int raw_box_h2))
     else
       setitem "im_box_h1" (Num (Int raw_box_h2)) ;;
       setitem "im_box_h2" (Num (Int raw_box_h1))) ;;
    (if raw_box_w1 <? raw_box_w2 then
       setitem "im_box_w1" (Num (Int raw_box_w1)) ;;
       setitem "im_box_w2" (Num (Int raw_box_w2))
     else
       setitem "im_box_w1" (Num (Int raw_box_w2)) ;;
       setitem "im_box_w2" (Num (Int raw_box_w1)))
  else ret tt.

(* mode == '8points' or mode == '4points'; the lookups made only to draw
   a guide line are kept, since a missing key raises *)
Definition annotate_points (raw_w raw_h : Z) : PyM globals unit :=
  let* s := get in
  let here : point := (Int raw_w, Int raw_h) in
  if points s =? 1 then
    setitem "im_p_length_1" (click raw_w raw_h) ;;
    incr_points
  else if points s =? 2 then
    setitem "im_p_length_2" (click raw_w raw_h) ;;
    let* l1 := getpoint "im_p_length_1" in
    let* _ := calc_bisector_ends here l1 in
    incr_points
  else if points s =? 3 then
    setitem "im_p_midpoint_1" (click raw_w raw_h) ;;
    incr_points
  else if points s =? 4 then
    setitem "im_p_midpoint_2" (click raw_w raw_h) ;;
    incr_points ;;
    if bool_decide (mode s = points8) then
      let* m1 := getpoint "im_p_midpoint_1" in
      let* egg_middle := midpoint here m1 in
      setitem "im_p_egg_middle" (Tup (fst egg_middle) (snd egg_middle)) ;;
      let* l1 := getpoint "im_p_length_1" in
      let* l2 := getpoint "im_p_length_2" in
      let* (circle_center, radius) := get_circle_center egg_middle l1 l2 in
      setitem "im_p_circle_center" circle_center ;;
      setitem "im_radius_px" radius ;;
      let* _ := calc_bisector_ends egg_middle l1 in
      ret tt
    else ret tt
  else if (points s =? 5) && bool_decide (mode s = points8) then
    setitem "im_p_1st_quart_1" (click raw_w raw_h) ;;
    incr_points
  else if (points s =? 6) && bool_decide (mode s = points8) then
    setitem "im_p_1st_quart_2" (click raw_w raw_h) ;;
    let* em := getpoint "im_p_egg_middle" in
    let* l2 := getpoint "im_p_length_2" in
    let* _ := calc_bisector_ends em l2 in
    incr_points
  else if (points s =? 7) && bool_decide (mode s = points8) then
    setitem "im_p_3rd_quart_1" (click raw_w raw_h) ;;
    incr_points
  else if (points s =? 8) && bool_decide (mode s = points8) then
    setitem "im_p_3rd_quart_2" (click raw_w raw_h) ;;
    incr_points
  else ret tt.

(* mode == 'scale_bar' *)
Definition annotate_scale_bar (raw_w raw_h : Z) : PyM globals unit :=
  let* s := get in
  if sb_ends s =? 1 then
    setitem "im_p_scale_bar_1" (click raw_w raw_h) ;;
    modify (fun s => set_sb_ends (sb_ends s + 1) s)
  else if sb_ends s =? 2 then
    setitem "im_p_scale_bar_2" (click raw_w raw_h)
  else ret tt.

(* def annotate_image(event, x, y, flags, param) *)
Definition annotate_image (event : mouse) (x y : Z) : PyM globals unit :=
  match event with
  | LBUTTONUP =>
      let* s := get in
      let* raw_h := to_orig (h_min s) (h_max s) (res_h s) y in
      let* raw_w := to_orig (w_min s) (w_max s) (res_w s) x in
      match mode s with
      | box => annotate_box x y
      | points8 | points4 => annotate_points raw_w raw_h
      | scale_bar => annotate_scale_bar raw_w raw_h
      | _ => ret tt
      end ;;
      modify (set_pxy x y)
  | RBUTTONUP =>
      modify (set_cxy x y) ;;
      modify (set_mode zoom_in)
  | other_mouse => ret tt
  end.

(** ** The per-image driver *)

(** What the window delivers: a mouse event, handed to the callback, or
    a pressed key, returned by [cv2.waitKey]. *)
Inductive event : Type :=
  | Mouse (e : mouse) (x y : Z)
  | Key (k : Z).

(** The key handling of the inner loop; [true] stands for [break]. *)
Definition handle_key (k : Z) : PyM globals bool :=
  if k =? 27 then modify (set_mode quit) ;; ret true
  else if k =? 110 (* ord('n') *) then modify (set_mode next) ;; ret true
  else if k =? 45 then modify (set_mode zoom_out) ;; ret true
  else if k =? 127 then modify (set_mode reset) ;; ret true
  else if k =? 98 (* ord('b') *) then modify (set_mode box) ;; ret false
  else if k =? 56 (* ord('8') *) then
    modify (set_mode points8) ;; modify (set_points 1) ;; ret false
  else if k =? 52 (* ord('4') *) then
    modify (set_mode points4) ;; modify (set_points 1) ;; ret false
  else if k =? 115 (* ord('s') *) then modify (set_mode scale_bar) ;; ret false
  else ret false.

(** The inner [while(1)] over the events one window receives.  A mouse
    event runs the callback inside [cv2.waitKey], which prints and drops
    an exception of the callback and returns no key.  When the events
    are used up the loop keeps polling. *)
Fixpoint inner_loop (evs : list event) : PyM globals unit :=
  let* s := get in
  let* im_res := make_new_view (h_min s) (h_max s) (w_min s) (w_max s) (img s) in
  modify (set_res (fst im_res) (snd im_res)) ;;
  if bool_decide (mode s = zoom_in) then ret tt
  else
    match evs with
    | [] => hang
    | Mouse e x y :: rest =>
        swallow (annotate_image e x y) ;;
        inner_loop rest
    | Key k :: rest =>
        let* stop := handle_key k in
        if (stop : bool) then ret tt else inner_loop rest
    end.

(** The outer [while(1)]: one window per round. *)
Fixpoint click_loop (windows : list (list event)) : PyM globals unit :=
  match windows with
  | [] => inner_loop [] ;; hang
  | evs :: rest =>
      inner_loop evs ;;
      let* s := get in
      let '(img_h, img_w) := img s in
      match mode s with
      | quit | next => ret tt
      | zoom_in =>
          let* (a, b, c, d) :=
            calc_new_view (h_min s) (h_max s) (w_min s) (w_max s)
                          (res_h s) (res_w s) (cy s) (cx s) in
          modify (set_view a b c d) ;;
          modify (set_pxy (-1) (-1)) ;;
          modify (set_mode box) ;;
          click_loop rest
      | zoom_out =>
          modify (set_view 0 img_h 0 img_w) ;;
          modify (set_pxy (-1) (-1)) ;;
          modify (set_mode box) ;;
          click_loop rest
      | reset =>
          modify (set_view 0 img_h 0 img_w) ;;
          modify (set_pxy (-1) (-1)) ;;
          modify (set_mode box) ;;
          modify (set_points 1) ;;
          modify (set_image_data ∅) ;;
          click_loop rest
      | _ => click_loop rest
      end
  end.

(** *** The console *)

(* raw_input(...) *)
Definition raw_input : PyM globals string :=
  fun s =>
    match stdin s with
    | [] => (Raise EOFError, s)
    | l :: rest => (Ok l, set_stdin rest s)
    end.

(** [while True: a = raw_input(...); if valid(a): break] *)
Fixpoint ask_from (valid : string -> bool) (lines : list string)
  : outcome string * list string :=
  match lines with
  | [] => (Raise EOFError, [])
  | l :: rest => if valid l then (Ok l, rest) else ask_from valid rest
  end.

Definition ask (valid : string -> bool) : PyM globals string :=
  fun s =>
    let '(o, rest) := ask_from valid (stdin s) in (o, set_stdin rest s).

Definition one_of (options : list string) (a : string) : bool :=
  bool_decide (a ∈ options).

(** [numpy.arccos], Python 2's [input] (the value of the typed text) and
    [float] of a string are taken as given. *)
Variable arccos : F -> F.
Variable eval_input : string -> outcome num.
Variable float_of_string : string -> option num.

Definition py_arccos (a : num) : num := Flt (arccos (to_float a)).

(** [v == 'DNE'] *)
Definition is_DNE (v : value) : bool :=
  match v with Str t => String.eqb t "DNE" | _ => false end.

(** A local variable that may be unbound when it is read. *)
Definition local {S A} (v : option A) : PyM S A :=
  match v with Some a => ret a | None => raise NameError end.

(** Lines 609-635: the scale bar.  The result is the local variable
    [mm_per_px]. *)
Definition calculate_scaling : PyM globals (option num) :=
  let* sb1 := contains "im_p_scale_bar_1" in
  if (sb1 : bool) then
    let* sb2 := contains "im_p_scale_bar_2" in
    if (sb2 : bool) then
      let* units := ask (one_of ["u"; "m"]) in
      let* typed := raw_input in
      let* reported := (fun s => (eval_input typed, s)) in
      let reported_sb_length := py_float reported in
      let* adjusted_sb_length :=
        if String.eqb units "u"
        then py_div reported_sb_length (dec 10000 1)
        else ret reported_sb_length in
      setitem "im_sb_length_mm" (Num adjusted_sb_length) ;;
      let* e1 := getpoint "im_p_scale_bar_1" in
      let* e2 := getpoint "im_p_scale_bar_2" in
      let* mm_per_px := py_div adjusted_sb_length (distance e1 e2) in
      setitem "im_mm_per_px" (Num mm_per_px) ;;
      setitem "im_sb_length_px" (Num (distance e1 e2)) ;;
      ret (Some mm_per_px)
    else ret None
  else ret None.

(** Lines 655-675: the curvature of an egg marked with eight points.
    The result is the local variable [curvature_rad]. *)
Definition calculate_curvature : PyM globals (option num) :=
  let* r := getitem "im_radius_px" in
  if is_DNE r then
    setitem "im_curvature_deg" (Num (Int 0)) ;;
    setitem "im_curvature_rad" (Num (Int 0)) ;;
    ret None
  else
    let* l1 := getpoint "im_p_length_1" in
    let* c := getpoint "im_p_circle_center" in
    let x_v1 := py_sub (fst l1) (fst c) in
    let y_v1 := py_sub (snd l1) (snd c) in
    let* l2 := getpoint "im_p_length_2" in
    let x_v2 := py_sub (fst l2) (fst c) in
    let y_v2 := py_sub (snd l2) (snd c) in
    let* radius := as_num r in
    let* cosine :=
      py_div (py_add (py_mul x_v1 x_v2) (py_mul y_v1 y_v2)) (py_sq radius) in
    let curvature_rad := py_arccos cosine in
    let* egg_middle := getpoint "im_p_egg_middle" in
    let* chord_middle := midpoint l1 l2 in
    let center_displacement_px := distance egg_middle chord_middle in
    let curvature_rad :=
      if py_gt center_displacement_px radius
      then py_sub (py_mul (Int 2) (dec 31415 4)) curvature_rad
      else curvature_rad in
    let* curvature_deg :=
      py_div (py_mul curvature_rad (Int 180)) (dec 31415 4) in
    setitem "im_curvature_deg" (Num curvature_deg) ;;
    setitem "im_curvature_rad" (Num curvature_rad) ;;
    setitem "im_length_curved_px" (Num (py_mul curvature_rad radius)) ;;
    ret (Some curvature_rad).

(** Lines 637-693: the relative and the absolute shape parameters. *)
Definition calculate_shape (mm_per_px : option num) : PyM globals unit :=
  let* s := get in
  if (points s =? 5) || (points s =? 9) then
    setitem "im_status" (Str "relative") ;;
    let* l1 := getpoint "im_p_length_1" in
    let* l2 := getpoint "im_p_length_2" in
    setitem "im_length_straight_px" (Num (distance l1 l2)) ;;
    let* m1 := getpoint "im_p_midpoint_1" in
    let* m2 := getpoint "im_p_midpoint_2" in
    setitem "im_width_px" (Num (distance m1 m2)) ;;
    let* curvature_rad :=
      if points s =? 9 then
        let* a1 := getpoint "im_p_1st_quart_1" in
        let* a2 := getpoint "im_p_1st_quart_2" in
        let quartile_len_1 := distance a1 a2 in
        let* b1 := getpoint "im_p_3rd_quart_1" in
        let* b2 := getpoint "im_p_3rd_quart_2" in
        let quartile_len_3 := distance b1 b2 in
        let '(longer_quartile, shorter_quartile) :=
          if py_gt quartile_len_3 quartile_len_1
          then (quartile_len_3, quartile_len_1)
          else (quartile_len_1, quartile_len_3) in
        let* asym := py_div longer_quartile shorter_quartile in
        setitem "im_asym" (Num asym) ;;
        calculate_curvature
      else ret None in
    let* scaled := contains "im_mm_per_px" in
    if (scaled : bool) then
      setitem "im_status" (Str "absolute") ;;
      let* mm := local mm_per_px in
      setitem "im_length_straight" (Num (py_mul mm (distance l1 l2))) ;;
      setitem "im_width" (Num (py_mul mm (distance m1 m2))) ;;
      if points s =? 9 then
        let* r := getitem "im_radius_px" in
        if is_DNE r then
          setitem "im_radius_mm" (Str "DNE") ;;
          let* straight := getitem "im_length_straight" in
          setitem "im_length_curved" straight
        else
          let* radius := as_num r in
          setitem "im_radius_mm" (Num (py_mul mm radius)) ;;
          let* rad := local curvature_rad in
          setitem "im_length_curved" (Num (py_mul rad (py_mul mm radius)))
      else ret tt
    else ret tt
  else ret tt.

(** Lines 606-693: what is derived from the clicks once the window is
    closed. *)
Definition derive_measurements : PyM globals unit :=
  let* boxed := contains "im_box_h1" in
  (if (boxed : bool) then setitem "im_status" (Str "box") else ret tt) ;;
  let* mm_per_px := calculate_scaling in
  calculate_shape mm_per_px.

(** [image_data == {}] *)
Definition is_empty (d : gmap string value) : bool :=
  bool_decide (dom d = ∅).

(** Lines 697-816: the questions about the image, the confirmation and
    the value returned. *)
Definition review : PyM globals (gmap string value) :=
  let* s := get in
  if is_empty (image_data s) then
    setitem "im_status" (Str "none") ;;
    gets image_data
  else
    let yn_options := ["y"; "n"] in
    let* q_image_type := ask (one_of ["s"; "t"; "r"; "d"; "o"]) in
    let* q_development := ask (one_of yn_options) in
    let* q_operculum := ask (one_of yn_options) in
    let* q_geo_pattern := ask (one_of yn_options) in
    let* mag_response := raw_input in
    match float_of_string mag_response with
    | Some m => setitem "im_magnification" (Num m)
    | None => ret tt
    end ;;
    setitem "im_q_image_type" (Str q_image_type) ;;
    setitem "im_q_development" (Str q_development) ;;
    setitem "im_q_operculum" (Str q_operculum) ;;
    setitem "im_q_geo_pattern" (Str q_geo_pattern) ;;
    (* the entries read by the print statements *)
    let* scaled := contains "im_mm_per_px" in
    (if (5 <=? points s) && scaled then
       getitem "im_length_straight" ;; getitem "im_width" ;; ret tt
     else if (5 <=? points s) && negb scaled then
       getitem "im_length_straight_px" ;; getitem "im_width_px" ;; ret tt
     else ret tt) ;;
    let* q_confirm := ask (one_of yn_options) in
    if String.eqb q_confirm "n" then
      modify (set_image_data ∅) ;;
      gets image_data
    else
      (* the bounds of the cropped image that is saved *)
      getitem "im_box_h1" ;; getitem "im_box_h2" ;;
      getitem "im_box_w1" ;; getitem "im_box_w2" ;;
      gets image_data.

(** Lines 518-604: the globals are set to their defaults and the clicks
    are taken. *)
Definition collect_clicks (shape : Z * Z) (windows : list (list event))
  : PyM globals unit :=
  let '(img_h, img_w) := shape in
  modify (set_img (img_h, img_w)) ;;
  modify (set_pxy (-1) (-1)) ;;
  modify (set_mode box) ;;
  modify (set_points 1) ;;
  modify (set_sb_ends 1) ;;
  modify (set_view 0 img_h 0 img_w) ;;
  modify (set_res img_h img_w) ;;
  click_loop windows.

(* def process_one_image(img_path, cropped_out_path, overview_out_path);
   [file] is the shape of the image at [img_path], or [None] when there
   is no such file or it is no '.png' *)
Definition process_one_image (file : option (Z * Z))
    (windows : list (list event)) : PyM globals (gmap string value) :=
  modify (set_image_data ∅) ;;
  match file with
  | None =>
      modify (set_mode next) ;;
      setitem "im_status" (Str "missing") ;;
      gets image_data
  | Some shape =>
      collect_clicks shape windows ;;
      derive_measurements ;;
      review
  end.

(** ** The record loop *)

(** What [eval(line)] appended to [file_list]: a dictionary, or some
    other object. *)
Inductive entry : Type :=
  | Dict (d : gmap string value)
  | Other (v : value).

(** A line of the dictionary file: its text and what [eval] makes of
    it. *)
Record line : Type := { text : string; evaluates : outcome entry }.

(** What [main] prints about a line it could not decode. *)
Inductive message : Type :=
  | Problem (file : string) (line_text : string).

(** The store of [main]: its list of entries, the module's globals (with
    whether the global [mode] has been assigned yet), the content of
    'tmp_out_file.txt' once written, and the warnings printed. *)
Record run : Type := {
  file_list : list entry;
  session : globals;
  mode_bound : bool;
  tmp_out_file : option (list entry);
  printed : list message;
}.

Definition set_file_list (l : list entry) (r : run) : run :=
  {| file_list := l; session := session r; mode_bound := mode_bound r;
     tmp_out_file := tmp_out_file r; printed := printed r |}.

Definition set_session (g : globals) (r : run) : run :=
  {| file_list := file_list r; session := g; mode_bound := true;
     tmp_out_file := tmp_out_file r; printed := printed r |}.

Definition set_tmp_out_file (l : list entry) (r : run) : run :=
  {| file_list := file_list r; session := session r;
     mode_bound := mode_bound r; tmp_out_file := Some l;
     printed := printed r |}.

Definition print (m : message) (r : run) : run :=
  {| file_list := file_list r; session := session r;
     mode_bound := mode_bound r; tmp_out_file := tmp_out_file r;
     printed := printed r ++ [m] |}.

(** A call of [process_one_image] from [main]: it works on the module's
    globals and assigns [mode]. *)
Definition call {A} (m : PyM globals A) : PyM run A :=
  fun r => let '(o, g) := m (session r) in (o, set_session g r).

(** Lines 829-840: the lines of the file are decoded. *)
Fixpoint read_lines (dict_file : string) (f : list line) : PyM run nat :=
  match f with
  | [] => ret 0%nat
  | l :: rest =>
      match evaluates l with
      | Ok e => modify (fun r => set_file_list (file_list r ++ [e]) r)
      | Raise SyntaxError => modify (print (Problem dict_file (text l)))
      | Raise e => raise e
      | Hang => hang
      end ;;
      let* number_of_entries := read_lines dict_file rest in
      ret (S number_of_entries)
  end.

(* d[k] for an entry of file_list *)
Definition field {S} (d : gmap string value) (k : string) : PyM S value :=
  match d !! k with Some v => ret v | None => raise (KeyError k) end.

Definition as_str {S} (v : value) : PyM S string :=
  match v with Str t => ret t | _ => raise TypeError end.

Definition has (d : gmap string value) (k : string) : bool :=
  bool_decide (is_Some (d !! k)).

(** Lines 845-851 *)
Definition base_img_name {S} (d : gmap string value) : PyM S string :=
  let* b := field d "b" in
  let* b := as_str b in
  if has d "cs" then
    let* cg := field d "cg" in
    let* cg := as_str cg in
    let* cs := field d "cs" in
    let* cs := as_str cs in
    let* ID := field d "ID" in
    let* ID := as_str ID in
    ret (b +:+ "_" +:+ cg +:+ "_" +:+ cs +:+ "_ID" +:+ ID)
  else if has d "cg" then
    let* cg := field d "cg" in
    let* cg := as_str cg in
    let* ID := field d "ID" in
    let* ID := as_str ID in
    ret (b +:+ "_" +:+ cg +:+ "_ID" +:+ ID)
  else
    let* g := field d "g" in
    let* g := as_str g in
    let* ID := field d "ID" in
    let* ID := as_str ID in
    ret (b +:+ "_" +:+ g +:+ "_ID" +:+ ID).

(** [v == t] for a string [t] *)
Definition is_str (t : string) (v : value) : bool :=
  match v with Str u => String.eqb u t | _ => false end.

(** Lines 855-857: the entry is to be measured. *)
Definition eligible (d : gmap string value) : bool :=
  match d !! "im_status" with
  | None => true
  | Some v => is_str "missing" v
  end
  && match d !! "problem" with
     | None => true
     | Some v =>
         negb (is_str "no_taxonomy" v || is_str "no_name" v || is_str "order" v)
     end
  && has d "i".

(* file_list[j].update(image_dict) *)
Definition update (d image_dict : gmap string value) : gmap string value :=
  image_dict ∪ d.

(** Lines 843-892: [files] gives the shape of the image stored under a
    base name, [ui j] the windows' events while entry [j] is open. *)
Fixpoint entries_loop (files : string -> option (Z * Z))
    (ui : nat -> list (list event)) (js : list nat) : PyM run unit :=
  match js with
  | [] => ret tt
  | j :: rest =>
      let* r := get in
      let* e :=
        match file_list r !! j with
        | Some e => ret e
        | None => raise IndexError
        end in
      let* d := match e with Dict d => ret d | Other _ => raise TypeError end in
      let* name := base_img_name d in
      match d !! "im_status" with
      | Some v => let* _ := as_str v in ret tt
      | None => ret tt
      end ;;
      if eligible d then
        (if has d "s" then field d "g" ;; field d "s" ;; ret tt
         else field d "g" ;; ret tt) ;;
        field d "ID" ;;
        let* image_dict := call (process_one_image (files name) (ui j)) in
        let* r := get in
        if bool_decide (mode (session r) = quit) then ret tt
        else
          modify (fun r =>
            set_file_list (<[j := Dict (update d image_dict)]> (file_list r)) r) ;;
          modify (fun r => set_tmp_out_file (file_list r) r) ;;
          entries_loop files ui rest
      else entries_loop files ui rest
  end.

(* def main(); [listed] says whether 'tmp_out_file.txt' is in the
   directory *)
Definition main (listed : bool) (dict_file : string) (f : list line)
    (files : string -> option (Z * Z)) (ui : nat -> list (list event))
  : PyM run unit :=
  if listed then ret tt
  else
    let* number_of_entries := read_lines dict_file f in
    entries_loop files ui (seq 0 number_of_entries) ;;
    let* r := get in
    if mode_bound r then ret tt else raise NameError.

End Python.

(** ** Stand-ins for the libraries, used where a run is evaluated *)

Section StandIns.
Context {F : Type} {PF : PyFloat F}.

(** The shape [cv2.resize] gives: each side scaled and rounded as
    [cvRound] does, to the nearest integer and a half to the even one;
    an error when a side comes out as zero. *)
Definition cv_round (x : num) : option Z :=
  let half := to_float (dec 5 1) in
  match to_int (to_float x) with
  | None => None
  | Some t =>
      let frac := fsub (to_float x) (of_int t) in
      if fltb half frac then Some (t + 1)
      else if fltb frac (fsub (of_int 0) half) then Some (t - 1)
      else if feqb frac half then Some (if Z.even t then t else t + 1)
      else if feqb frac (fsub (of_int 0) half)
           then Some (if Z.even t then t else t - 1)
      else Some t
  end.

Definition cv2_resize_shape (shape : Z * Z) (factor : num)
  : outcome (Z * Z) :=
  match cv_round (py_mul (Int (fst shape)) factor),
        cv_round (py_mul (Int (snd shape)) factor) with
  | Some h, Some w =>
      if (0 <? h) && (0 <? w) then Ok (h, w) else Raise Cv2Error
  | _, _ => Raise Cv2Error
  end.

(** Unsigned decimal literals, as the operator types a length. *)
Definition digit (c : ascii) : option Z :=
  let n := Z.of_N (N_of_ascii c) in
  if (48 <=? n) && (n <=? 57) then Some (n - 48) else None.

Fixpoint read_decimal (t : string) (dot : bool) (m : Z) (k : nat)
  : option (Z * nat * bool) :=
  match t with
  | EmptyString => Some (m, k, dot)
  | String c rest =>
      match digit c with
      | Some d => read_decimal rest dot (10 * m + d) (if dot then S k else k)
      | None =>
          if Ascii.eqb c "." && negb dot then read_decimal rest true m k
          else None
      end
  end.

Definition decimal (t : string) : option num :=
  match t with
  | EmptyString | String "." EmptyString => None
  | String "0" (String c _) =>
      if Ascii.eqb c "." then
        match read_decimal t false 0 0 with
        | Some (m, k, _) => Some (dec m k)
        | None => None
        end
      else None
  | _ =>
      match read_decimal t false 0 0 with
      | Some (m, k, true) => Some (dec m k)
      | Some (m, _, false) => Some (Int m)
      | None => None
      end
  end.

Definition decimal_input (t : string) : outcome num :=
  match decimal t with Some n => Ok n | None => Raise SyntaxError end.

(** [float] of such a literal is a float, also when no point is typed;
    of the other strings only those that are no number are meant to be
    tried. *)
Definition float_decimal (t : string) : option num :=
  match decimal t with Some n => Some (py_float n) | None => None end.

End StandIns.

(** ** Predicates on the annotation session *)

Section Predicates.
Context {F : Type}.

(** A property of the click counter and the measurements alone. *)
Definition on_data (J : Z -> gmap string (@value F) -> Prop)
    (s : @globals F) : Prop :=
  J (points s) (image_data s).

(** Every key of [d] starts with 'im_'. *)
Definition im_keys (d : gmap string (@value F)) : Prop :=
  forall k, is_Some (d !! k) -> String.prefix "im_" k = true.

Definition only_im_keys : Z -> gmap string (@value F) -> Prop :=
  fun _ d => im_keys d.

(** Something has been recorded. *)
Definition recorded : Z -> gmap string (@value F) -> Prop :=
  fun _ d => d <> ∅.

(** The counter has left 1 only if something has been recorded. *)
Definition counted : Z -> gmap string (@value F) -> Prop :=
  fun n d => n = 1 \/ d <> ∅.

(** A computation that, when it returns, returns the dictionary
    [image_data]. *)
Definition returns_data (m : PyM (@globals F) (gmap string (@value F)))
  : Prop :=
  forall s d s', m s = (Ok d, s') -> d = image_data s'.

End Predicates.

(** *** Sample sessions: a 1000 x 2000 image, a box drawn with two
    clicks, 'n', and the answers typed on the console. *)

Definition blank (console : list string) : @globals PrimFloat.float :=
  {| cx := 0; cy := 0; px := 0; py := 0; mode := box; points := 0;
     sb_ends := 0; h_min := 0; h_max := 0; w_min := 0; w_max := 0;
     res_h := 0; res_w := 0; image_data := ∅; img := (0, 0);
     stdin := console |}.

Definition box_session
  : outcome (gmap string (@value PrimFloat.float)) * globals :=
  process_one_image cv2_resize_shape (fun x => x) decimal_input float_decimal
    (Some (1000, 2000))
    [[Mouse LBUTTONUP 10 10; Mouse LBUTTONUP 50 60; Key 110]]
    (blank ["s"; "n"; "n"; "n"; "n"; "y"]).

(** The globals after the events [windows] on that image. *)
Definition clicked (windows : list (list event)) : @globals PrimFloat.float :=
  snd (collect_clicks cv2_resize_shape (1000, 2000) windows (blank [])).

(** The landmarks a point-collection mode records, click by click. *)
Definition landmarks_of (m : mode_t) : list string :=
  match m with
  | points4 =>
      ["im_p_length_1"; "im_p_length_2"; "im_p_midpoint_1"; "im_p_midpoint_2"]
  | points8 =>
      ["im_p_length_1"; "im_p_length_2"; "im_p_midpoint_1"; "im_p_midpoint_2";
       "im_p_1st_quart_1"; "im_p_1st_quart_2";
       "im_p_3rd_quart_1"; "im_p_3rd_quart_2"]
  | scale_bar => ["im_p_scale_bar_1"; "im_p_scale_bar_2"]
  | _ => []
  end.

(** A run of [main] on the lines [f]: every image is that image, every
    entry gets the box and the answers of [box_session]. *)
Definition a_record : gmap string (@value PrimFloat.float) :=
  {[ "b" := Str "1234"; "g" := Str "Drosophila"; "ID" := Str "7";
     "i" := Str "12" ]}.

Definition good_line : @line PrimFloat.float :=
  {| text := "{'b': '1234', 'g': 'Drosophila', 'ID': '7', 'i': '12'}";
     evaluates := Ok (Dict a_record) |}.

Definition cut_line : @line PrimFloat.float :=
  {| text := "{'b': '1234', 'g': "; evaluates := Raise SyntaxError |}.

Definition word_line : @line PrimFloat.float :=
  {| text := "Drosophila"; evaluates := Raise NameError |}.

Definition run_main (f : list (@line PrimFloat.float))
  : outcome unit * @run PrimFloat.float :=
  main cv2_resize_shape (fun x => x) decimal_input float_decimal
    false "dicts.txt" f
    (fun _ => Some (1000, 2000))
    (fun _ => [[Mouse LBUTTONUP 10 10; Mouse LBUTTONUP 50 60; Key 110]])
    {| file_list := []; session := blank ["s"; "n"; "n"; "n"; "n"; "y"];
       mode_bound := false; tmp_out_file := None; printed := [] |}.

Definition box_dict : gmap string (@value PrimFloat.float) :=
  match fst box_session with Ok d => d | _ => ∅ end.

(** ** The circle in exact arithmetic *)

(** A clicked point, with integer coordinates. *)
Definition pt {F : Type} (p : Z * Z) : @point F := (Int (fst p), Int (snd p)).

Definition collinear (p1 p2 p3 : Z * Z) : Prop :=
  (fst p2 - fst p1) * (snd p3 - snd p1) = (fst p3 - fst p1) * (snd p2 - snd p1).

(** [slope_a], [slope_b], [x_center] and [y_center] of lines 240-249 as
    real numbers, for the chords [p1 p2] and [p2 p3]. *)
Definition slope (p q : Z * Z) : R :=
  (IZR (snd q - snd p) / (IZR (fst q) - IZR (fst p)))%R.

Definition center_x (p1 p2 p3 : Z * Z) : R :=
  ((slope p1 p2 * slope p2 p3 * IZR (snd p1 - snd p3)
    + slope p2 p3 * IZR (fst p1 + fst p2)
    - slope p1 p2 * IZR (fst p2 + fst p3))
   / (2 * (slope p2 p3 - slope p1 p2)))%R.

Definition center_y (p1 p2 p3 : Z * Z) : R :=
  (-1 / slope p1 p2 * (center_x p1 p2 p3 - IZR (fst p1 + fst p2) / 2)
   + IZR (snd p1 + snd p2) / 2)%R.

(** The squared distance from [c] to the point [p]. *)
Definition sqd (c : R * R) (p : Z * Z) : R :=
  ((IZR (fst p) - fst c) * (IZR (fst p) - fst c)
   + (IZR (snd p) - snd c) * (IZR (snd p) - snd c))%R.

(** An egg whose outline runs along the major arc: the circle of radius
    5 about (10, 10), the poles (7, 14) and (13, 14), the middle of the
    egg at (10, 5), nine from the middle of the chord. *)
Definition major_arc : @globals R :=
  {| cx := 0; cy := 0; px := 0; py := 0; mode := next; points := 9;
     sb_ends := 1; h_min := 0; h_max := 100; w_min := 0; w_max := 100;
     res_h := 100; res_w := 100;
     image_data :=
       {[ "im_radius_px" := Num (Flt 5%R);
          "im_p_circle_center" := Tup (Flt 10%R) (Flt 10%R);
          "im_p_length_1" := click 7 14;
          "im_p_length_2" := click 13 14;
          "im_p_egg_middle" := click 10 5 ]};
     img := (100, 100); stdin := [] |}.

(** The same egg when the fit gave the sentinel. *)
Definition straight_egg : @globals R :=
  set_image_data {[ "im_radius_px" := Str "DNE" ]} major_arc.

(** An egg marked with eight points on the sample image, of which the
    first four are clicked; the circle is fitted at the fourth. *)
Definition fitted_egg : @globals PrimFloat.float :=
  clicked [[Key 56; Mouse LBUTTONUP 100 100; Mouse LBUTTONUP 500 100;
            Mouse LBUTTONUP 300 50; Mouse LBUTTONUP 300 300; Key 110]].

(** The binary64 numbers nearest to [PI / 2] and to [PI], as
    [numpy.arccos(0.0)] and [numpy.pi] are. *)
Definition half_pi64 : PrimFloat.float :=
  PrimFloat.div (b64_of_int 7074237752028440) (b64_of_int (2 ^ 52)).
Definition pi64 : PrimFloat.float :=
  PrimFloat.div (b64_of_int 7074237752028440) (b64_of_int (2 ^ 51)).

(** An egg bent through three quarters of a circle: the poles at
    (750, 500) and (500, 750), the middle of the egg at (500, 250), on
    the circle of radius 250 about (500, 500). *)
Definition bent_egg : @globals PrimFloat.float :=
  clicked [[Key 56; Mouse LBUTTONUP 525 350; Mouse LBUTTONUP 350 525;
            Mouse LBUTTONUP 350 0; Mouse LBUTTONUP 350 350; Key 110]].

(** ** The record loop as a whole *)

(** The store of [main] after entry [j], the dictionary [d], has been
    merged with [image_dict] and the list written to 'tmp_out_file.txt'
    (lines 880-886). *)
Definition saved {F} (j : nat) (d image_dict : gmap string (@value F))
    (g : globals) (r : run) : run :=
  let l := <[j := Dict (update d image_dict)]> (file_list r) in
  set_tmp_out_file l (set_file_list l (set_session g r)).

(** Two entries that differ, if at all, in fields whose key starts with
    'im_'. *)
Definition same_fields {F} (e e' : @entry F) : Prop :=
  match e, e' with
  | Dict d, Dict d' =>
      forall k, String.prefix "im_" k = false -> d' !! k = d !! k
  | _, _ => e' = e
  end.

(** What 'tmp_out_file.txt' holds, if written, is the list of entries. *)
Definition checkpointed {F} (r : @run F) : Prop :=
  forall l, tmp_out_file r = Some l -> l = file_list r.

(** A record that has been dealt with: it has a status other than
    'missing', and the fields an image name is made of. *)
Definition finished {F} (d : gmap string (@value F)) : Prop :=
  (exists t, d !! "im_status" = Some (Str t) /\ t <> "missing")
  /\ exists name, run_pure (base_img_name d) = Ok name.

Definition done_record : gmap string (@value PrimFloat.float) :=
  <["im_status" := Str "none"]> a_record.

Definition done_line : @line PrimFloat.float :=
  {| text := "{'b': '1234', 'g': 'Drosophila', 'ID': '7', 'i': '12', 'im_status': 'none'}";
     evaluates := Ok (Dict done_record) |}.

Definition fresh_run : @run PrimFloat.float :=
  {| file_list := []; session := blank ["s"; "n"; "n"; "n"; "n"; "y"];
     mode_bound := false; tmp_out_file := None; printed := [] |}.

(** A property of the mode and the two counters alone. *)
Definition on_counters {F} (J : mode_t -> Z -> Z -> Prop) (s : @globals F)
  : Prop :=
  J (mode s) (points s) (sb_ends s).

(** The click counter is between 1 and 9, and at most 5 while four
    points are collected; the scale-bar counter is 1 or 2. *)
Definition in_range : mode_t -> Z -> Z -> Prop :=
  fun m n b => 1 <= n <= 9 /\ 1 <= b <= 2 /\ (m = points4 -> n <= 5).

(** The mode and the scale-bar counter of [s], and its click counter
    moved on by [k]. *)
Definition moved {F} (s : @globals F) (k : Z) : mode_t -> Z -> Z -> Prop :=
  fun m n b => m = mode s /\ n = points s + k /\ b = sb_ends s.

(** What a session returns when it returns: nothing (the operator did
    not confirm), the bare status 'none' or 'missing', or a dictionary
    with the four sides of a crop box. *)
Definition with_box {F} (d : gmap string (@value F)) : Prop :=
  is_Some (d !! "im_box_h1") /\ is_Some (d !! "im_box_h2")
  /\ is_Some (d !! "im_box_w1") /\ is_Some (d !! "im_box_w2").

Definition reviewed {F} (d : gmap string (@value F)) : Prop :=
  d = ∅ \/ d = {[ "im_status" := Str "none" ]}
  \/ d = {[ "im_status" := Str "missing" ]} \/ with_box d.

Definition returns_reviewed {F} (m : PyM (@globals F) (gmap string (@value F)))
  : Prop :=
  forall s d s', m s = (Ok d, s') -> reviewed d.

(** A session with a scale bar from (0, 0) to (3, 4), and one whose
    scale bar has both ends on the same pixel; '2' and 'u' (micrometres)
    are typed. *)
Definition bar_session : @globals R :=
  set_stdin ["u"; "2"]
    (set_image_data {[ "im_p_scale_bar_1" := click 0 0;
                       "im_p_scale_bar_2" := click 3 4 ]} major_arc).

Definition dot_session : @globals R :=
  set_stdin ["u"; "2"]
    (set_image_data {[ "im_p_scale_bar_1" := click 3 4;
                       "im_p_scale_bar_2" := click 3 4 ]} major_arc).

(** ** The markers drawn on the image *)

(** A call of [cv2.circle] or [cv2.putText] on the image. *)
Inductive drawing {F : Type} : Type :=
  | circle (center : Z * Z) (radius : Z) (color : Z * Z * Z) (thickness : Z)
  | putText (text : string) (org : Z * Z) (color : Z * Z * Z)
            (fontScale : @num F) (thickness : Z).

(* def draw_dot(x, y, im, text, color, size): the calls it makes, in
   order *)
Definition draw_dot {F} {PF : PyFloat F} {S}
    (x y : Z) (text : string) (color : Z * Z * Z) (size : Z)
  : PyM S (list (@drawing F)) :=
  let* text_size := py_div (Int size) (dec 100 1) in
  let text_size := if py_lt text_size (Int 1) then Int 1 else text_size in
  let* text_thickness := py_int text_size in
  let* half := py_int (py_mul text_size (dec 5 1)) in
  let text_outline := 1 + half in
  let* dot_radius := py_int (py_mul (Int size) (dec 2 1)) in
  let dot_radius := if dot_radius <? 1 then 1 else dot_radius in
  let* dot_outline := py_int (py_mul (Int dot_radius) (dec 3 1)) in
  let org := (x + text_thickness * 5, y + text_thickness * 6) in
  ret [ circle (x, y) (dot_radius + dot_outline) (0, 0, 0) (-1);
        circle (x, y) dot_radius color (-1);
        putText text org (0, 0, 0) text_size (text_thickness + text_outline);
        putText text org color text_size text_thickness ].

(** * make_single_page_PDFs.py and make_single_page_PNGs.py: the pages
    of the PDFs as single PDFs, and these as PNGs *)

(** [s[-4:]] and [s[:-4]] *)
Definition last4 (s : string) : string :=
  String.substring (String.length s - 4) 4 s.
Definition drop_last4 (s : string) : string :=
  String.substring 0 (String.length s - 4) s.

(** [needle in hay], for two strings *)
Fixpoint is_in (needle hay : string) : bool :=
  String.prefix needle hay
  || match hay with
     | EmptyString => false
     | String _ rest => is_in needle rest
     end.

Section Pages.
Context {F : Type}.

(** make_single_page_PDFs.py, lines 60-62: a page is extracted for the
    record. *)
Definition wanted (d : gmap string (@value F)) : bool :=
  if has d "i" && has d "cg" then
    if match d !! "im_status" with
       | None => true
       | Some v => is_str "missing" v
       end
    then
      match d !! "problem" with
      | None => true
      | Some v =>
          negb (is_str "no_taxonomy" v || is_str "no_name" v
                || is_str "order" v)
      end
    else false
  else false.

(** Lines 68-71: the name of the file [out_path] in the output
    directory. *)
Definition out_name {S} (d : gmap string (@value F)) : PyM S string :=
  if has d "cs" then
    let* b := field d "b" in
    let* b := as_str b in
    let* cg := field d "cg" in
    let* cg := as_str cg in
    let* cs := field d "cs" in
    let* cs := as_str cs in
    let* ID := field d "ID" in
    let* ID := as_str ID in
    ret (b +:+ "_" +:+ cg +:+ "_" +:+ cs +:+ "_ID" +:+ ID +:+ ".pdf")
  else
    let* b := field d "b" in
    let* b := as_str b in
    let* cg := field d "cg" in
    let* cg := as_str cg in
    let* ID := field d "ID" in
    let* ID := as_str ID in
    ret (b +:+ "_" +:+ cg +:+ "_ID" +:+ ID +:+ ".pdf").

(** Lines 76-82: the first path that contains [b + '.pdf']. *)
Fixpoint find_pdf (b : string) (all_paths : list string) : option string :=
  match all_paths with
  | [] => None
  | path :: rest =>
      if is_in (b +:+ ".pdf") path then Some path else find_pdf b rest
  end.

End Pages.

(** make_single_page_PNGs.py, line 40: the name of the PNG of a PDF. *)
Definition pdf_base_name (pdf : string) : string := drop_last4 pdf +:+ ".png".

(** [img.save(...)]: the file is in the directory afterwards. *)
Definition save (name : string) (files : list string) : list string :=
  if bool_decide (name ∈ files) then files else files ++ [name].

(** Lines 38-48, on the files of the output directory; [render pdf] is
    what opening and converting the PDF with wand does. *)
Fixpoint convert_all (render : string -> outcome unit)
    (output_dir_files input_dir_files : list string)
  : PyM (list string) unit :=
  match input_dir_files with
  | [] => ret tt
  | pdf :: rest =>
      (if String.eqb (last4 pdf) ".pdf" then
         if bool_decide (pdf_base_name pdf ∈ output_dir_files) then ret tt
         else
           (fun s => (render pdf, s)) ;;
           modify (save (pdf_base_name pdf))
       else ret tt) ;;
      convert_all render output_dir_files rest
  end.

(** Lines 27-48: the script, on the listing of the input directory. *)
Definition make_single_page_PNGs (render : string -> outcome unit)
    (input_dir_files : list string) : PyM (list string) unit :=
  let* output_dir_files := get in
  convert_all render output_dir_files input_dir_files.

(** The dictionary of the session holds [v] under [k]. *)
Definition holds {F} (k : string) (v : @value F) (s : @globals F) : Prop :=
  image_data s !! k = Some v.

(** An egg marked with eight points whose quartile widths are both 4;
    the fit gave the sentinel and no scale bar was marked. *)
Definition eight_points : @globals R :=
  set_image_data
    {[ "im_radius_px" := Str "DNE";
       "im_p_length_1" := click 0 10; "im_p_length_2" := click 40 10;
       "im_p_midpoint_1" := click 20 0; "im_p_midpoint_2" := click 20 20;
       "im_p_1st_quart_1" := click 10 8; "im_p_1st_quart_2" := click 10 12;
       "im_p_3rd_quart_1" := click 30 8; "im_p_3rd_quart_2" := click 30 12 ]}
    major_arc.

(** ** Names that are read before they are bound *)

(** [m] does not raise [NameError]. *)
Definition quiet {S A} (m : PyM S A) : Prop :=
  forall s, fst (m s) <> Raise NameError.

(** From a store with [I], [m] does not raise [NameError], and when it
    returns [a], [Q a] holds of the store. *)
Definition bound {S A} (I : S -> Prop) (m : PyM S A) (Q : A -> S -> Prop)
  : Prop :=
  forall s, I s ->
    match m s with
    | (Ok a, s') => Q a s'
    | (Raise e, _) => e <> NameError
    | (Hang, _) => True
    end.

(** The dictionary of the session has no entry under [k]. *)
Definition lacks {F} (k : string) (s : @globals F) : Prop :=
  image_data s !! k = None.

(** When the local variable [mm_per_px] is unbound, the dictionary has
    no scale either. *)
Definition scale_is_bound {F} (mm_per_px : option (@num F)) (s : @globals F)
  : Prop :=
  mm_per_px = None -> lacks "im_mm_per_px" s.

(** An egg marked with four points and a scale of 0.5 mm per pixel. *)
Definition four_points : @globals PrimFloat.float :=
  set_points 5
    (set_image_data
       {[ "im_mm_per_px" := Num (dec 5 1);
          "im_p_length_1" := click 0 10; "im_p_length_2" := click 40 10;
          "im_p_midpoint_1" := click 20 0; "im_p_midpoint_2" := click 20 20 ]}
       (blank [])).

(** A run of [main] on one record in which the operator presses one key
    at once: 27 is Esc. *)
Definition run_with (key : Z) : outcome unit * @run PrimFloat.float :=
  main cv2_resize_shape (fun x => x) decimal_input float_decimal
    false "dicts.txt" [good_line]
    (fun _ => Some (1000, 2000)) (fun _ => [[Key key]]) fresh_run.

(** * Properties *)

(** ** The monad *)

Section Invariants.
Context {S : Type} (I : S -> Prop).

Lemma preserves_ret {A} (a : A) : preserves I (ret a).
Proof. intros s Hs. exact Hs. Qed.

Lemma preserves_raise {A} e : preserves I (@raise S A e).
Proof. intros s Hs. exact Hs. Qed.

Lemma preserves_hang {A} : preserves I (@hang S A).
Proof. intros s Hs. exact Hs. Qed.

Lemma preserves_get : preserves I (@get S).
Proof. intros s Hs. exact Hs. Qed.

Lemma preserves_gets {A} (f : S -> A) : preserves I (gets f).
Proof. intros s Hs. exact Hs. Qed.

Lemma preserves_const {A} (o : outcome A) : preserves I (fun s => (o, s)).
Proof. intros s Hs. exact Hs. Qed.

Lemma preserves_modify (f : S -> S) :
  (forall s, I s -> I (f s)) -> preserves I (modify f).
Proof. intros Hf s Hs. apply Hf, Hs. Qed.

Lemma preserves_bind {A B} (m : PyM S A) (k : A -> PyM S B) :
  preserves I m -> (forall a, preserves I (k a)) -> preserves I (bind m k).
Proof.
  intros Hm Hk s Hs. unfold bind.
  specialize (Hm s Hs). destruct (m s) as [[a|e|] s']; simpl in *; auto.
  apply Hk, Hm.
Qed.

Lemma preserves_swallow (m : PyM S unit) :
  preserves I m -> preserves I (swallow m).
Proof.
  intros Hm s Hs. unfold swallow.
  specialize (Hm s Hs). destruct (m s) as [[a|e|] s']; simpl in *; auto.
Qed.

End Invariants.

Lemma establishes_bind {S A B} (P Q R : S -> Prop)
    (m : PyM S A) (k : A -> PyM S B) :
  establishes P m R -> (forall s, R s -> Q s) ->
  (forall a, establishes R (k a) Q) -> establishes P (bind m k) Q.
Proof.
  intros Hm HRQ Hk s Hs. unfold bind.
  specialize (Hm s Hs). destruct (m s) as [[a|e|] s']; simpl in *; auto.
  apply Hk, Hm.
Qed.

Lemma establishes_of_preserves {S A} (I : S -> Prop) (m : PyM S A) :
  preserves I m -> establishes I m I.
Proof. intros H. exact H. Qed.

Create HintDb keeps discriminated.

#[export] Hint Resolve preserves_ret preserves_raise preserves_hang
  preserves_get preserves_gets preserves_const : keeps.

(** Walks a computation along its binds and branches. *)
Ltac keeps_step :=
  first
    [ assumption
    | solve [ auto 2 with keeps ]
    | apply preserves_swallow
    | apply preserves_bind; [ | intros ? ]
    | match goal with
      | |- preserves _ (if ?b then _ else _) => destruct b
      | |- preserves _ (match ?x with _ => _ end) => destruct x
      end ].
Ltac keeps := repeat keeps_step.

(** ** The helpers leave every store as it is *)

Section Pure.
Context {F : Type} {PF : PyFloat F} {S : Type} (I : S -> Prop).

Lemma py_div_keeps a b : preserves I (py_div a b).
Proof. unfold py_div. keeps. Qed.

Lemma py_int_keeps a : preserves I (py_int a).
Proof. unfold py_int. keeps. Qed.

Lemma as_point_keeps (v : @value F) : preserves I (as_point v).
Proof. unfold as_point. keeps. Qed.

Lemma as_num_keeps (v : @value F) : preserves I (as_num v).
Proof. unfold as_num. keeps. Qed.

Lemma as_str_keeps (v : @value F) : preserves I (as_str v).
Proof. unfold as_str. keeps. Qed.

Lemma local_keeps {A} (v : option A) : preserves I (local v).
Proof. unfold local. keeps. Qed.

Lemma field_keeps (d : gmap string (@value F)) k : preserves I (field d k).
Proof. unfold field. keeps. Qed.

Hint Resolve py_div_keeps py_int_keeps as_point_keeps as_num_keeps
  as_str_keeps local_keeps field_keeps : keeps.

Lemma midpoint_keeps p q : preserves I (midpoint p q).
Proof. unfold midpoint. keeps. Qed.
Hint Resolve midpoint_keeps : keeps.

Lemma calc_bisector_ends_keeps p q : preserves I (calc_bisector_ends p q).
Proof. unfold calc_bisector_ends. keeps. Qed.

Lemma intersect_bisectors_keeps t p : preserves I (intersect_bisectors t p).
Proof.
  destruct t as [[[x1 y1] [x2 y2]] [x3 y3]].
  unfold intersect_bisectors. keeps.
Qed.
Hint Resolve intersect_bisectors_keeps : keeps.

Lemma get_circle_center_keeps p q r : preserves I (get_circle_center p q r).
Proof. unfold get_circle_center. keeps. Qed.

Lemma to_orig_keeps lo hi res c : preserves I (to_orig lo hi res c).
Proof. unfold to_orig. keeps. Qed.
Hint Resolve to_orig_keeps : keeps.

Lemma calc_new_view_keeps a b c d e f g h :
  preserves I (calc_new_view a b c d e f g h).
Proof.
  unfold calc_new_view. keeps.
Qed.

Lemma make_new_view_keeps rs a b c d im :
  preserves I (make_new_view rs a b c d im).
Proof. unfold make_new_view. keeps. Qed.

Lemma base_img_name_keeps (d : gmap string (@value F)) : preserves I (base_img_name d).
Proof. unfold base_img_name. keeps. Qed.

End Pure.

#[export] Hint Resolve py_div_keeps py_int_keeps as_point_keeps as_num_keeps
  as_str_keeps local_keeps field_keeps midpoint_keeps
  calc_bisector_ends_keeps get_circle_center_keeps to_orig_keeps
  calc_new_view_keeps make_new_view_keeps base_img_name_keeps : keeps.

(** ** Invariants of the annotation session *)

#[export] Hint Extern 1 (preserves (on_data _) (modify _)) =>
  apply preserves_modify; let H := fresh in intros ? H; exact H : keeps.

Section DataInvariant.
Context {F : Type} {PF : PyFloat F}.
Variable J : Z -> gmap string (@value F) -> Prop.
Hypothesis J_set :
  forall n d k v, String.prefix "im_" k = true -> J n d -> J n (<[k := v]> d).

Lemma setitem_keeps k v :
  String.prefix "im_" k = true -> preserves (on_data J) (setitem k v).
Proof. intros Hk s Hs. apply J_set; [exact Hk | exact Hs]. Qed.

Hint Extern 1 (preserves (on_data J) (setitem _ _)) =>
  apply setitem_keeps; reflexivity : keeps.

Lemma getitem_keeps k : preserves (on_data J) (getitem k).
Proof. unfold getitem. keeps. Qed.
Hint Resolve getitem_keeps : keeps.

Lemma getpoint_keeps k : preserves (on_data J) (getpoint k).
Proof. unfold getpoint. keeps. Qed.

Lemma contains_keeps k : preserves (on_data J) (contains k).
Proof. unfold contains. keeps. Qed.

Lemma raw_input_keeps : preserves (on_data J) raw_input.
Proof. intros s Hs. unfold raw_input. destruct (stdin s); exact Hs. Qed.

Lemma ask_keeps valid : preserves (on_data J) (ask valid).
Proof.
  intros s Hs. unfold ask. destruct (ask_from valid (stdin s)). exact Hs.
Qed.

Hint Resolve getpoint_keeps contains_keeps raw_input_keeps ask_keeps : keeps.

Lemma annotate_box_keeps x y : preserves (on_data J) (annotate_box x y).
Proof. unfold annotate_box. keeps. Qed.

Lemma annotate_scale_bar_keeps w h :
  preserves (on_data J) (annotate_scale_bar w h).
Proof. unfold annotate_scale_bar. keeps. Qed.

Lemma handle_key_keeps k :
  (forall n d, J n d -> J 1 d) -> preserves (on_data J) (handle_key k).
Proof.
  intros J_one. unfold handle_key. keeps.
  all: apply preserves_modify; intros s Hs; apply J_one in Hs; exact Hs.
Qed.

Section Finish.
Variable arccos : F -> F.
Variable eval_input : string -> outcome (@num F).
Variable float_of_string : string -> option (@num F).

Lemma calculate_scaling_keeps :
  preserves (on_data J) (calculate_scaling eval_input).
Proof. unfold calculate_scaling. keeps. Qed.

Lemma calculate_curvature_keeps :
  preserves (on_data J) (calculate_curvature arccos).
Proof. unfold calculate_curvature. keeps. Qed.
Hint Resolve calculate_scaling_keeps calculate_curvature_keeps : keeps.

Lemma calculate_shape_keeps mm :
  preserves (on_data J) (calculate_shape arccos mm).
Proof. unfold calculate_shape. keeps. Qed.
Hint Resolve calculate_shape_keeps : keeps.

Lemma derive_measurements_keeps :
  preserves (on_data J) (derive_measurements arccos eval_input).
Proof. unfold derive_measurements. keeps. Qed.

Lemma review_keeps :
  (forall n, J n ∅) -> preserves (on_data J) (review float_of_string).
Proof.
  intros J_empty. unfold review. keeps.
  apply preserves_modify. intros s Hs. apply J_empty.
Qed.

End Finish.

Section Counting.
Hypothesis J_incr : forall n d, J n d -> J (n + 1) d.

Lemma incr_points_keeps : preserves (on_data J) incr_points.
Proof. apply preserves_modify. intros s Hs. apply J_incr, Hs. Qed.
Hint Resolve incr_points_keeps : keeps.

Lemma annotate_points_keeps w h :
  preserves (on_data J) (annotate_points w h).
Proof. unfold annotate_points. keeps. Qed.

End Counting.

Section Loops.
Variable resize_shape : Z * Z -> @num F -> outcome (Z * Z).
Hypothesis J_one : forall n d, J n d -> J 1 d.
Hypothesis J_clear : forall d, J 1 d -> J 1 ∅.
Hypothesis points_keeps :
  forall w h, preserves (on_data J) (annotate_points w h).

Hint Resolve annotate_box_keeps annotate_scale_bar_keeps : keeps.

Lemma annotate_image_keeps e x y :
  preserves (on_data J) (annotate_image e x y).
Proof. unfold annotate_image. keeps. Qed.

Lemma inner_loop_keeps evs :
  preserves (on_data J) (inner_loop resize_shape evs).
Proof.
  induction evs as [|[e x y|k] evs IH]; simpl; keeps.
  - apply annotate_image_keeps.
  - apply handle_key_keeps, J_one.
Qed.

Lemma reset_keeps {A} (k : PyM globals A) :
  preserves (on_data J) k ->
  preserves (on_data J)
    (modify (set_points 1) ;; modify (set_image_data ∅) ;; k).
Proof.
  intros Hk s Hs. unfold bind at 1 2, modify. simpl. apply Hk.
  apply J_one, J_clear in Hs. exact Hs.
Qed.

Lemma click_loop_keeps windows :
  preserves (on_data J) (click_loop resize_shape windows).
Proof.
  induction windows as [|evs rest IH]; simpl.
  - keeps.
  - apply preserves_bind; [apply inner_loop_keeps | intros _].
    apply preserves_bind; [keeps | intros s].
    destruct (img s) as [img_h img_w].
    destruct (mode s); try solve [keeps].
    do 3 (apply preserves_bind; [keeps | intros _]).
    apply reset_keeps, IH.
Qed.

End Loops.

End DataInvariant.

(** ** What a session returns *)

Section Returned.
Context {F : Type} {PF : PyFloat F}.

Lemma returns_data_bind {A} (m : PyM globals A)
    (k : A -> PyM globals (gmap string (@value F))) :
  (forall a, returns_data (k a)) -> returns_data (bind m k).
Proof.
  intros Hk s d s' H. unfold bind in H.
  destruct (m s) as [[a|e|] t]; try discriminate.
  eapply Hk, H.
Qed.

Lemma returns_data_gets : returns_data (gets (@image_data F)).
Proof. intros s d s' H. unfold gets in H. congruence. Qed.

Lemma review_returns_data (fos : string -> option (@num F)) :
  returns_data (review fos).
Proof.
  unfold review.
  repeat first
    [ apply returns_data_gets
    | apply returns_data_bind; intros ?
    | match goal with
      | |- returns_data (if ?b then _ else _) => destruct b
      end ].
Qed.

Lemma process_one_image_returns_data rs arccos ev fos file windows :
  returns_data (process_one_image rs arccos ev fos file windows).
Proof.
  unfold process_one_image.
  apply returns_data_bind; intros _.
  destruct file as [shape|].
  - do 2 (apply returns_data_bind; intros _). apply review_returns_data.
  - do 2 (apply returns_data_bind; intros _). apply returns_data_gets.
Qed.

Lemma im_keys_set n (d : gmap string (@value F)) k v :
  String.prefix "im_" k = true ->
  only_im_keys n d -> only_im_keys n (<[k := v]> d).
Proof.
  intros Hk Hd j Hj. destruct (decide (k = j)) as [->|Hne]; [exact Hk|].
  rewrite lookup_insert_ne in Hj by exact Hne. apply Hd, Hj.
Qed.

Lemma im_keys_empty : im_keys (∅ : gmap string (@value F)).
Proof. intros k [v Hv]. rewrite lookup_empty in Hv. discriminate. Qed.

(** Whatever the operator does, the dictionary of a session holds keys
    that start with 'im_' only. *)
Lemma process_one_image_im_keys rs arccos ev fos file windows s :
  im_keys
    (image_data (snd (process_one_image rs arccos ev fos file windows s))).
Proof.
  assert (Hset := im_keys_set).
  assert (Hsetitem := setitem_keeps only_im_keys Hset).
  change (on_data only_im_keys
            (snd (process_one_image rs arccos ev fos file windows s))).
  revert s.
  cut (establishes (fun _ => True)
         (process_one_image rs arccos ev fos file windows)
         (on_data only_im_keys)); [intros H s; apply H; exact I|].
  unfold process_one_image.
  apply establishes_bind with (R := on_data only_im_keys).
  - intros s _. apply im_keys_empty.
  - auto.
  - intros _. apply establishes_of_preserves.
    destruct file as [[img_h img_w]|].
    + apply preserves_bind; [|intros _; apply preserves_bind; [|intros _]].
      * unfold collect_clicks.
        repeat (apply preserves_bind; [solve [keeps] | intros _]).
        apply (click_loop_keeps only_im_keys Hset rs).
        -- intros n d H. exact H.
        -- intros d _. apply im_keys_empty.
        -- intros w h. apply (annotate_points_keeps only_im_keys Hset).
           intros n d H. exact H.
      * apply (derive_measurements_keeps only_im_keys Hset).
      * apply (review_keeps only_im_keys Hset).
        intros n. apply im_keys_empty.
    + keeps.
Qed.

End Returned.

(** C9. For every record [d] and every session that returns a dictionary
    [image_dict], merging the result into the record
    ([file_list[j].update(image_dict)]) leaves every field whose key does
    not start with 'im_' as it was: only 'im_' fields are added or
    replaced. *)
Theorem update_keeps_record_fields {F : Type} {PF : PyFloat F}
    rs arccos ev fos file windows (s s' : globals)
    (image_dict d : gmap string (@value F)) (k : string) :
  process_one_image rs arccos ev fos file windows s = (Ok image_dict, s') ->
  String.prefix "im_" k = false ->
  update d image_dict !! k = d !! k.
Proof.
  intros Hrun Hk.
  assert (Hkeys : im_keys image_dict).
  { rewrite (process_one_image_returns_data _ _ _ _ _ _ _ _ _ Hrun).
    pose proof (process_one_image_im_keys rs arccos ev fos file windows s) as H.
    rewrite Hrun in H. exact H. }
  unfold update. rewrite lookup_union_r; [reflexivity|].
  destruct (image_dict !! k) as [v|] eqn:E; [|reflexivity].
  rewrite (Hkeys k) in Hk by (rewrite E; eauto). discriminate.
Qed.

Lemma update_keeps_record_fields_witness :
  update {[ "b" := Str "1234" ; "g" := Str "Drosophila" ]} box_dict !! "g"
  = ({[ "b" := Str "1234" ; "g" := Str "Drosophila" ]}
       : gmap string (@value PrimFloat.float)) !! "g".
Proof.
  apply (update_keeps_record_fields cv2_resize_shape (fun x => x)
           decimal_input float_decimal (Some (1000, 2000))
           [[Mouse LBUTTONUP 10 10; Mouse LBUTTONUP 50 60; Key 110]]
           (blank ["s"; "n"; "n"; "n"; "n"; "y"]) (snd box_session)).
  - vm_compute. reflexivity.
  - vm_compute. reflexivity.
Defined.

(** ** An entry opened and left without a mark *)

Section Unmarked.
Context {F : Type} {PF : PyFloat F}.

Lemma recorded_set n (d : gmap string (@value F)) k v :
  String.prefix "im_" k = true -> recorded n d -> recorded n (<[k := v]> d).
Proof. intros _ _. apply insert_non_empty. Qed.

Lemma counted_set n (d : gmap string (@value F)) k v :
  String.prefix "im_" k = true -> counted n d -> counted n (<[k := v]> d).
Proof. intros _ _. right. apply insert_non_empty. Qed.

(** Once a click is stored, the rest of the branch may count on. *)
Lemma stored_then {A} k (v : @value F) (rest : PyM globals A) :
  preserves (on_data recorded) rest ->
  preserves (on_data counted) (setitem k v ;; rest).
Proof.
  intros Hrest s _. unfold bind, setitem, modify. simpl.
  right. apply Hrest. apply insert_non_empty.
Qed.

Lemma annotate_points_counted w h :
  preserves (on_data (@counted F)) (annotate_points w h).
Proof.
  pose proof (setitem_keeps recorded recorded_set) as Hsetitem.
  pose proof (getpoint_keeps (@recorded F)) as Hgetpoint.
  assert (Hincr : preserves (on_data (@recorded F)) incr_points).
  { apply incr_points_keeps. intros n d H. exact H. }
  unfold annotate_points.
  apply preserves_bind; [keeps | intros s].
  repeat match goal with
         | |- preserves _ (if ?b then _ else _) => destruct b
         end;
    first [ apply stored_then; keeps | keeps ].
Qed.

Lemma click_loop_counted rs windows :
  preserves (on_data (@counted F)) (click_loop rs windows).
Proof.
  apply (click_loop_keeps counted counted_set rs).
  - intros n d _. left. reflexivity.
  - intros d _. left. reflexivity.
  - apply annotate_points_counted.
Qed.

Lemma collect_clicks_counted rs shape windows (s : @globals F) :
  on_data counted (snd (collect_clicks rs shape windows s)).
Proof.
  destruct shape as [img_h img_w]. unfold collect_clicks.
  unfold bind at 1 2 3 4 5 6 7, modify. simpl.
  apply click_loop_counted. left. reflexivity.
Qed.

Lemma contains_blank (s : @globals F) k :
  image_data s = ∅ -> contains k s = (Ok false, s).
Proof.
  intros H. unfold contains, gets. rewrite H, lookup_empty.
  rewrite bool_decide_eq_false_2; [reflexivity|].
  intros [v Hv]. discriminate.
Qed.

Lemma derive_measurements_blank arccos ev (s : @globals F) :
  image_data s = ∅ -> points s = 1 ->
  derive_measurements arccos ev s = (Ok tt, s).
Proof.
  intros Hd Hp.
  unfold derive_measurements, calculate_scaling, calculate_shape.
  unfold bind, get, ret. rewrite !(contains_blank s) by exact Hd.
  rewrite Hp. reflexivity.
Qed.

Lemma review_blank fos (s : @globals F) :
  image_data s = ∅ ->
  review fos s
  = (Ok {[ "im_status" := Str "none" ]},
     set_image_data {[ "im_status" := Str "none" ]} s).
Proof.
  intros Hd. unfold review, bind, get, setitem, modify, gets. simpl.
  unfold is_empty. rewrite Hd, bool_decide_eq_true_2 by apply dom_empty_L.
  simpl. rewrite Hd, insert_empty. reflexivity.
Qed.

Lemma none_is_resolved (d : gmap string (@value F)) :
  eligible (update d {[ "im_status" := Str "none" ]}) = false.
Proof.
  unfold eligible, update.
  rewrite (lookup_union_Some_l _ _ _ (Str "none"))
    by apply lookup_singleton_eq.
  reflexivity.
Qed.

End Unmarked.

(** ** Mode keys and clicks *)

(** C6, as stated, fails: with one pole recorded in 8-point mode,
    pressing '8' again does not clear the landmark. *)
Lemma reselect_keeps_landmarks :
  ~ (points (snd (handle_key 56 (clicked [[Key 56; Mouse LBUTTONUP 10 10]]))) = 1
     /\ forall k, k ∈ landmarks_of points8 ->
          image_data (snd (handle_key 56
                             (clicked [[Key 56; Mouse LBUTTONUP 10 10]]))) !! k
          = None).
Proof.
  intros [_ H]. specialize (H "im_p_length_1").
  assert (Hin : "im_p_length_1" ∈ landmarks_of points8) by (left; reflexivity).
  apply H in Hin. vm_compute in Hin. discriminate.
Qed.

(** C6, amended. The keys '8' and '4' select the mode and set the click
    counter [points] to 1, the key 's' selects the scale-bar mode; none
    of them changes [image_data]: the landmarks recorded before stay
    until a later click stores over them. *)
Theorem mode_key_keeps_image_data {F : Type} (s : @globals F) :
  (let s' := snd (handle_key 56 s) in
   mode s' = points8 /\ points s' = 1 /\ image_data s' = image_data s)
  /\ (let s' := snd (handle_key 52 s) in
      mode s' = points4 /\ points s' = 1 /\ image_data s' = image_data s)
  /\ (let s' := snd (handle_key 115 s) in
      mode s' = scale_bar /\ image_data s' = image_data s).
Proof. repeat split. Qed.

(** C5 on the code: in scale-bar mode, with both ends recorded, a third
    left click stores over the second end. *)
Theorem third_scale_bar_click_overwrites :
  let two := [Key 115; Mouse LBUTTONUP 140 70; Mouse LBUTTONUP 280 70] in
  image_data (clicked [two]) !! "im_p_scale_bar_2" = Some (click 400 100)
  /\ image_data (clicked [two ++ [Mouse LBUTTONUP 700 350]])
       !! "im_p_scale_bar_2" = Some (click 1000 500)
  /\ mode (clicked [two]) = scale_bar /\ sb_ends (clicked [two]) = 2.
Proof. vm_compute. repeat split. Qed.

(** ** The zoom *)

(** C4 on the code: on an image 100 pixels high and 1000 wide, shown
    140 x 1400, a right click in the middle gives a window that starts
    338 rows above the image. *)
Theorem zoom_leaves_flat_image :
  run_pure (calc_new_view (F := PrimFloat.float) 0 100 0 1000 140 1400 70 700)
  = Ok (-338, 100, 116, 884).
Proof. vm_compute. reflexivity. Qed.

(** ** The circle through three points *)

(** C1 on the code: with the first chord horizontal the division
    [-1/slope_a] raises. *)
Theorem horizontal_chord_raises :
  run_pure (get_circle_center (F := PrimFloat.float)
              (Int 0, Int 0) (Int 2, Int 0) (Int 1, Int 1))
  = Raise ZeroDivisionError.
Proof. vm_compute. reflexivity. Qed.

(** ** The measurements *)

Section Scenario.
Variable arccos : PrimFloat.float -> PrimFloat.float.

(** C8. With the four landmarks (0,0), (100,0), (50,-10), (50,10) the
    length is 100 pixels, the width 20 pixels and the status 'relative';
    with the scale bar (0,0)-(0,50) entered as 5 millimetres the scale is
    0.1 mm per pixel, the length 10 mm, the width 2 mm and the status
    'absolute'. *)
Theorem four_point_scenario (s : @globals PrimFloat.float) :
  let four : gmap string (@value PrimFloat.float) :=
    {[ "im_p_length_1" := click 0 0; "im_p_length_2" := click 100 0;
       "im_p_midpoint_1" := click 50 (-10);
       "im_p_midpoint_2" := click 50 10 ]} in
  let bar : gmap string (@value PrimFloat.float) :=
    <[ "im_p_scale_bar_1" := click 0 0 ]>
      (<[ "im_p_scale_bar_2" := click 0 50 ]> four) in
  let relative :=
    derive_measurements arccos decimal_input
      (set_points 5 (set_image_data four s)) in
  let absolute :=
    derive_measurements arccos decimal_input
      (set_stdin ["m"; "5"] (set_points 5 (set_image_data bar s))) in
  (fst relative = Ok tt
   /\ image_data (snd relative) !! "im_length_straight_px"
      = Some (Num (Flt (of_int 100)))
   /\ image_data (snd relative) !! "im_width_px"
      = Some (Num (Flt (of_int 20)))
   /\ image_data (snd relative) !! "im_status" = Some (Str "relative"))
  /\ (fst absolute = Ok tt
      /\ image_data (snd absolute) !! "im_mm_per_px" = Some (Num (dec 1 1))
      /\ image_data (snd absolute) !! "im_length_straight"
         = Some (Num (Flt (of_int 10)))
      /\ image_data (snd absolute) !! "im_width"
         = Some (Num (Flt (of_int 2)))
      /\ image_data (snd absolute) !! "im_status" = Some (Str "absolute")).
Proof. vm_compute. repeat split. Qed.

End Scenario.

(** ** Lines that do not decode *)

(** C3 on the code: a line that is no dictionary is reported and left
    out and the record after it is measured and saved, as it is without
    that line; but the line is still counted, the loop reads one entry
    past the end of [file_list], and the run ends with [IndexError].  A
    line on which [eval] raises something else than [SyntaxError] ends
    the run before any record is measured. *)
Theorem undecodable_line_ends_run :
  fst (run_main [good_line]) = Ok tt
  /\ fst (run_main [cut_line; good_line]) = Raise IndexError
  /\ printed (snd (run_main [cut_line; good_line]))
     = [Problem "dicts.txt" (text cut_line)]
  /\ tmp_out_file (snd (run_main [cut_line; good_line]))
     = tmp_out_file (snd (run_main [good_line]))
  /\ tmp_out_file (snd (run_main [good_line]))
     = Some [Dict (update a_record box_dict)]
  /\ fst (run_main [word_line; good_line]) = Raise NameError
  /\ tmp_out_file (snd (run_main [word_line; good_line])) = None.
Proof. vm_compute. repeat split. Qed.

(** ** The circle through three points, in exact arithmetic *)

Lemma R_eqb_true a b : a = b -> R_eqb a b = true.
Proof. intros H. unfold R_eqb. destruct (Req_dec_T a b); [reflexivity|contradiction]. Qed.
Lemma R_eqb_false a b : a <> b -> R_eqb a b = false.
Proof. intros H. unfold R_eqb. destruct (Req_dec_T a b); [contradiction|reflexivity]. Qed.

Lemma py_div_flt {S} (a : @num R) (d : R) (s : S) :
  d <> 0%R -> py_div a (Flt d) s = (Ok (Flt (to_float a / d)%R), s).
Proof.
  intros Hd. unfold py_div.
  assert (E : feqb (to_float (Flt d)) (of_int 0) = false) by (apply R_eqb_false; exact Hd).
  destruct a; rewrite E; reflexivity.
Qed.

Lemma py_div_flt_zero {S} (a : @num R) (s : S) :
  py_div a (Flt 0%R) s = (Raise ZeroDivisionError, s).
Proof.
  unfold py_div.
  assert (E : feqb (to_float (Flt 0%R)) (of_int 0) = true) by (apply R_eqb_true; reflexivity).
  destruct a; rewrite E; reflexivity.
Qed.

Lemma circle_algebra (A1 B1 A2 B2 A3 B3 : R) :
  (A2 - A1 <> 0 -> A3 - A2 <> 0 ->
  let sa := (B2 - B1) / (A2 - A1) in
  let sb := (B3 - B2) / (A3 - A2) in
  sa <> sb -> sa <> 0 ->
  let xc := (sa * sb * (B1 - B3) + sb * (A1 + A2) - sa * (A2 + A3)) / (2 * (sb - sa)) in
  let yc := -1 / sa * (xc - (A1 + A2) / 2) + (B1 + B2) / 2 in
  (A1 - xc) * (A1 - xc) + (B1 - yc) * (B1 - yc)
  = (A2 - xc) * (A2 - xc) + (B2 - yc) * (B2 - yc)
  /\ (A2 - xc) * (A2 - xc) + (B2 - yc) * (B2 - yc)
     = (A3 - xc) * (A3 - xc) + (B3 - yc) * (B3 - yc))%R.
Proof.
  intros D1 D2 sa sb Hab Ha xc yc.
  assert (D3 : (B2 - B1 <> 0)%R).
  { intros E. apply Ha. unfold sa. rewrite E. unfold Rdiv. apply Rmult_0_l. }
  assert (D4 : ((B3 - B2) * (A2 - A1) - (B2 - B1) * (A3 - A2) <> 0)%R).
  { intros E. apply Hab. unfold sa, sb.
    apply (Rmult_eq_reg_r ((A2 - A1) * (A3 - A2))).
    - field_simplify; [lra | exact D2 | exact D1].
    - apply Rmult_integral_contrapositive_currified; assumption. }
  unfold yc, xc, sa, sb. split; field; repeat split; try assumption; lra.
Qed.

Lemma slopes_equal_iff (A1 B1 A2 B2 A3 B3 : R) :
  (A2 - A1 <> 0 -> A3 - A2 <> 0 ->
   ((B2 - B1) / (A2 - A1) = (B3 - B2) / (A3 - A2)
    <-> (A2 - A1) * (B3 - B1) = (A3 - A1) * (B2 - B1)))%R.
Proof.
  intros D1 D2. split; intros H.
  - apply (f_equal (fun t => t * ((A2 - A1) * (A3 - A2)))%R) in H.
    field_simplify in H; [lra | exact D2 | exact D1].
  - apply (Rmult_eq_reg_r ((A2 - A1) * (A3 - A2))).
    + field_simplify; [lra | exact D2 | exact D1].
    + apply Rmult_integral_contrapositive_currified; assumption.
Qed.

Lemma intersect_exact {S} (p1 p2 p3 : Z * Z) (q : @point R) (s : S) :
  fst p1 <> fst p2 -> fst p2 <> fst p3 ->
  intersect_bisectors (pt p1, pt p2, pt p3) q s
  = if R_eqb (slope p1 p2) (slope p2 p3) then (Ok DNE, s)
    else if R_eqb (slope p1 p2) 0 then (Raise ZeroDivisionError, s)
    else (Ok (Tup (Flt (center_x p1 p2 p3)) (Flt (center_y p1 p2 p3)),
              Num (distance (Flt (center_x p1 p2 p3), Flt (center_y p1 p2 p3)) q)), s).
Proof.
  destruct p1 as [a1 b1], p2 as [a2 b2], p3 as [a3 b3].
  unfold pt, center_y, center_x, slope. cbn [fst snd].
  set (sa := (IZR (b2 - b1) / (IZR a2 - IZR a1))%R).
  set (sb := (IZR (b3 - b2) / (IZR a3 - IZR a2))%R).
  intros H12 H23.
  assert (D1 : (IZR a2 - IZR a1 <> 0)%R).
  { intros E. apply H12. apply eq_IZR. lra. }
  assert (D2 : (IZR a3 - IZR a2 <> 0)%R).
  { intros E. apply H23. apply eq_IZR. lra. }
  unfold intersect_bisectors.
  cbn [py_sub py_float to_float fsub of_int R_float].
  unfold bind at 1. rewrite (py_div_flt _ _ s D1).
  unfold bind at 1. rewrite (py_div_flt _ _ s D2).
  cbn [py_eq py_sub py_add py_mul to_float feqb fsub fadd fmul of_int R_float].
  fold sa sb.
  destruct (R_eqb sa sb) eqn:Eab; [reflexivity|].
  assert (D3 : (IZR 2 * (sb - sa) <> 0)%R).
  { unfold R_eqb in Eab. destruct (Req_dec_T sa sb); [discriminate|]. lra. }
  unfold bind at 1. rewrite (py_div_flt _ _ s D3).
  cbn [to_float].
  destruct (R_eqb sa 0) eqn:Ea.
  - unfold R_eqb in Ea. destruct (Req_dec_T sa 0) as [E|]; [|discriminate].
    rewrite E. unfold bind at 1. rewrite py_div_flt_zero. reflexivity.
  - assert (D4 : sa <> 0%R).
    { unfold R_eqb in Ea. destruct (Req_dec_T sa 0); [discriminate|assumption]. }
    unfold bind at 1. rewrite (py_div_flt _ _ s D4).
    assert (E5 : (IZR 20 / IZR (10 ^ Z.of_nat 1) = 2)%R).
    { change (10 ^ Z.of_nat 1) with 10. lra. }
    unfold dec. cbn [fquot of_int R_float]. rewrite E5.
    assert (D5 : (2 <> 0)%R) by lra.
    unfold bind at 1. rewrite (py_div_flt _ _ s D5).
    unfold bind at 1. rewrite (py_div_flt _ _ s D5).
    reflexivity.
Qed.

Lemma distance_exact (x y : R) (p : Z * Z) :
  distance (Flt x, Flt y) (pt p) = Flt (sqrt (sqd (x, y) p)).
Proof. reflexivity. Qed.

Lemma center_equidistant (p1 p2 p3 : Z * Z) :
  fst p1 <> fst p2 -> fst p2 <> fst p3 ->
  slope p1 p2 <> slope p2 p3 -> slope p1 p2 <> 0%R ->
  let c := (center_x p1 p2 p3, center_y p1 p2 p3) in
  sqd c p1 = sqd c p2 /\ sqd c p2 = sqd c p3.
Proof.
  intros H12 H23 Hab Ha.
  assert (D1 : (IZR (fst p2) - IZR (fst p1) <> 0)%R).
  { intros E. apply H12. apply eq_IZR. lra. }
  assert (D2 : (IZR (fst p3) - IZR (fst p2) <> 0)%R).
  { intros E. apply H23. apply eq_IZR. lra. }
  revert Hab Ha.
  unfold sqd, center_y, center_x, slope. cbn [fst snd].
  rewrite !minus_IZR, !plus_IZR.
  intros Hab Ha. apply circle_algebra; assumption.
Qed.

Lemma get_circle_center_cases {S} (p1 p2 p3 : Z * Z) (s : S) :
  get_circle_center (F := R) (pt p1) (pt p2) (pt p3) s
  = if (fst p1 =? fst p2) && (fst p1 =? fst p3) then (Ok DNE, s)
    else if fst p1 =? fst p2
      then intersect_bisectors (pt p2, pt p3, pt p1) (pt p1) s
    else if fst p2 =? fst p3
      then intersect_bisectors (pt p3, pt p1, pt p2) (pt p1) s
    else intersect_bisectors (pt p1, pt p2, pt p3) (pt p1) s.
Proof.
  unfold get_circle_center, choose_chords. cbn [pt fst snd py_eq].
  destruct (fst p1 =? fst p2), (fst p1 =? fst p3), (fst p2 =? fst p3);
    reflexivity.
Qed.

Ltac eqb_facts :=
  repeat match goal with
         | H : (_ =? _) = true |- _ => apply Z.eqb_eq in H
         | H : (_ =? _) = false |- _ => apply Z.eqb_neq in H
         | H : R_eqb _ _ = true |- _ =>
             unfold R_eqb in H; destruct (Req_dec_T _ _) in H; [|discriminate H]
         | H : R_eqb _ _ = false |- _ =>
             unfold R_eqb in H; destruct (Req_dec_T _ _) in H; [discriminate H|]
         | H : true = true |- _ => clear H
         | H : false = false |- _ => clear H
         end.

(** Whenever [get_circle_center] returns a center and a radius, the
    center is at that distance from each of the three points. *)
Theorem circle_center_equidistant (p1 p2 p3 : Z * Z) (cx cy r : @num R) :
  run_pure (get_circle_center (pt p1) (pt p2) (pt p3))
  = Ok (Tup cx cy, Num r) ->
  distance (cx, cy) (pt p1) = r
  /\ distance (cx, cy) (pt p2) = r
  /\ distance (cx, cy) (pt p3) = r.
Proof.
  unfold run_pure. rewrite get_circle_center_cases.
  destruct ((fst p1 =? fst p2) && (fst p1 =? fst p3)) eqn:E0;
    [discriminate|].
  destruct (fst p1 =? fst p2) eqn:E12; [|destruct (fst p2 =? fst p3) eqn:E23].
  - simpl in E0. eqb_facts.
    rewrite intersect_exact by congruence.
    destruct (R_eqb _ _) eqn:Eab; [discriminate|].
    destruct (R_eqb _ 0) eqn:Ea; [discriminate|]. eqb_facts.
    intros H. injection H as <- <- <-.
    destruct (center_equidistant p2 p3 p1) as [Ha Hb]; try congruence.
    rewrite !distance_exact. cbn zeta in Ha, Hb.
    rewrite Ha, Hb. auto.
  - eqb_facts.
    rewrite intersect_exact by congruence.
    destruct (R_eqb _ _) eqn:Eab; [discriminate|].
    destruct (R_eqb _ 0) eqn:Ea; [discriminate|]. eqb_facts.
    intros H. injection H as <- <- <-.
    destruct (center_equidistant p3 p1 p2) as [Ha Hb]; try congruence.
    rewrite !distance_exact. cbn zeta in Ha, Hb.
    rewrite <- Hb, <- Ha. auto.
  - eqb_facts.
    rewrite intersect_exact by congruence.
    destruct (R_eqb _ _) eqn:Eab; [discriminate|].
    destruct (R_eqb _ 0) eqn:Ea; [discriminate|]. eqb_facts.
    intros H. injection H as <- <- <-.
    destruct (center_equidistant p1 p2 p3) as [Ha Hb]; try congruence.
    rewrite !distance_exact. cbn zeta in Ha, Hb.
    rewrite <- Ha, <- Hb at 1. rewrite Ha. auto.
Qed.

Lemma slopes_collinear (p1 p2 p3 : Z * Z) :
  fst p1 <> fst p2 -> fst p2 <> fst p3 ->
  (slope p1 p2 = slope p2 p3 <-> collinear p1 p2 p3).
Proof.
  intros H12 H23.
  assert (D1 : (IZR (fst p2) - IZR (fst p1) <> 0)%R).
  { intros E. apply H12. apply eq_IZR. lra. }
  assert (D2 : (IZR (fst p3) - IZR (fst p2) <> 0)%R).
  { intros E. apply H23. apply eq_IZR. lra. }
  unfold slope, collinear. rewrite !minus_IZR.
  rewrite slopes_equal_iff by assumption.
  rewrite <- !minus_IZR, <- !mult_IZR.
  split; [apply eq_IZR | intros ->; reflexivity].
Qed.

Lemma collinear_rotate (p1 p2 p3 : Z * Z) :
  collinear p1 p2 p3 <-> collinear p2 p3 p1.
Proof. unfold collinear. split; intros H; nia. Qed.

(** Three collinear points, the three on one vertical line included,
    give the sentinel. *)
Theorem collinear_gives_DNE (p1 p2 p3 : Z * Z) :
  collinear p1 p2 p3 ->
  run_pure (get_circle_center (F := R) (pt p1) (pt p2) (pt p3)) = Ok DNE.
Proof.
  intros Hc. unfold run_pure. rewrite get_circle_center_cases.
  destruct ((fst p1 =? fst p2) && (fst p1 =? fst p3)) eqn:E0; [reflexivity|].
  destruct (fst p1 =? fst p2) eqn:E12; [|destruct (fst p2 =? fst p3) eqn:E23].
  - simpl in E0. eqb_facts.
    rewrite intersect_exact by congruence.
    rewrite R_eqb_true; [reflexivity|].
    apply slopes_collinear; try congruence.
    apply (proj1 (collinear_rotate p1 p2 p3)), Hc.
  - eqb_facts.
    rewrite intersect_exact by congruence.
    rewrite R_eqb_true; [reflexivity|].
    apply slopes_collinear; try congruence.
    apply (proj2 (collinear_rotate p3 p1 p2)), Hc.
  - eqb_facts.
    rewrite intersect_exact by congruence.
    rewrite R_eqb_true; [reflexivity|].
    apply slopes_collinear; assumption.
Qed.

Lemma slope_level (p q : Z * Z) :
  fst p <> fst q -> (slope p q = 0%R <-> snd p = snd q).
Proof.
  intros Hpq.
  assert (D : (IZR (fst q) - IZR (fst p) <> 0)%R).
  { intros E. apply Hpq. apply eq_IZR. lra. }
  unfold slope. split; intros H.
  - apply Rmult_integral in H as [H|H].
    + apply eq_IZR in H. lia.
    + apply Rinv_neq_0_compat in D. contradiction.
  - replace (snd q - snd p) with 0 by lia. unfold Rdiv. apply Rmult_0_l.
Qed.

(** C7 on the code, in exact arithmetic: three points of which no two
    consecutive ones share their x, the first two at one height and the
    third at another, are not collinear, and [get_circle_center] raises
    [ZeroDivisionError] on them instead of returning their circle. *)
Theorem level_first_chord_raises (p1 p2 p3 : Z * Z) :
  fst p1 <> fst p2 -> fst p2 <> fst p3 ->
  snd p1 = snd p2 -> snd p3 <> snd p2 ->
  ~ collinear p1 p2 p3
  /\ run_pure (get_circle_center (F := R) (pt p1) (pt p2) (pt p3))
     = Raise ZeroDivisionError.
Proof.
  intros H12 H23 Hy H3.
  assert (Hnc : ~ collinear p1 p2 p3).
  { unfold collinear. intros H. rewrite Hy in H.
    replace (snd p2 - snd p2) with 0 in H by lia.
    rewrite Z.mul_0_r in H. apply Z.mul_eq_0 in H. lia. }
  split; [exact Hnc|].
  unfold run_pure. rewrite get_circle_center_cases.
  apply Z.eqb_neq in H12 as E12. apply Z.eqb_neq in H23 as E23.
  rewrite E12, E23. cbn [andb].
  rewrite intersect_exact by assumption.
  rewrite R_eqb_false.
  - rewrite R_eqb_true; [reflexivity|]. apply slope_level; assumption.
  - intros E. apply Hnc. apply slopes_collinear; assumption.
Qed.

Lemma level_first_chord_raises_witness :
  ~ collinear (0, 0) (2, 0) (1, 1)
  /\ run_pure (get_circle_center (F := R) (pt (0, 0)) (pt (2, 0)) (pt (1, 1)))
     = Raise ZeroDivisionError.
Proof. apply level_first_chord_raises; simpl; lia. Defined.

(** The outcomes of the intersection for chords [q1 q2] and [q2 q3]
    that are not vertical, [q1], [q2], [q3] being the clicked points
    [p1], [p2], [p3] in some order. *)
Lemma intersect_outcomes (p1 p2 p3 q1 q2 q3 : Z * Z) :
  fst q1 <> fst q2 -> fst q2 <> fst q3 ->
  (collinear p1 p2 p3 <-> collinear q1 q2 q3) ->
  (collinear p1 p2 p3 ->
   fst (intersect_bisectors (F := R) (pt q1, pt q2, pt q3) (pt p1) tt)
   = Ok DNE)
  /\ (~ collinear p1 p2 p3 -> snd q1 = snd q2 ->
      fst (intersect_bisectors (F := R) (pt q1, pt q2, pt q3) (pt p1) tt)
      = Raise ZeroDivisionError)
  /\ (~ collinear p1 p2 p3 -> snd q1 <> snd q2 ->
      fst (intersect_bisectors (F := R) (pt q1, pt q2, pt q3) (pt p1) tt)
      = Ok (Tup (Flt (center_x q1 q2 q3)) (Flt (center_y q1 q2 q3)),
            Num (Flt (sqrt (sqd (center_x q1 q2 q3, center_y q1 q2 q3) p1))))).
Proof.
  intros H12 H23 Hiff.
  rewrite intersect_exact by assumption.
  repeat split.
  - intros Hc. rewrite R_eqb_true; [reflexivity|].
    apply slopes_collinear; tauto.
  - intros Hn Hy. rewrite R_eqb_false.
    + rewrite R_eqb_true; [reflexivity|]. apply slope_level; assumption.
    + intros E. apply Hn, Hiff. apply slopes_collinear; assumption.
  - intros Hn Hy. rewrite R_eqb_false.
    + rewrite R_eqb_false; [reflexivity|].
      intros E. apply Hy. apply slope_level in E; assumption.
    + intros E. apply Hn, Hiff. apply slopes_collinear; assumption.
Qed.

(** Every outcome of [get_circle_center] on clicked points: the sentinel
    for collinear points; [ZeroDivisionError] for points that are not
    collinear when the first chosen chord is level; their circle
    otherwise. *)
Theorem get_circle_center_outcomes (p1 p2 p3 : Z * Z) :
  let '(q1, q2, q3) :=
    if fst p1 =? fst p2 then (p2, p3, p1)
    else if fst p2 =? fst p3 then (p3, p1, p2) else (p1, p2, p3) in
  (collinear p1 p2 p3 ->
   run_pure (get_circle_center (F := R) (pt p1) (pt p2) (pt p3)) = Ok DNE)
  /\ (~ collinear p1 p2 p3 -> snd q1 = snd q2 ->
      run_pure (get_circle_center (F := R) (pt p1) (pt p2) (pt p3))
      = Raise ZeroDivisionError)
  /\ (~ collinear p1 p2 p3 -> snd q1 <> snd q2 ->
      run_pure (get_circle_center (F := R) (pt p1) (pt p2) (pt p3))
      = Ok (Tup (Flt (center_x q1 q2 q3)) (Flt (center_y q1 q2 q3)),
            Num (Flt (sqrt (sqd (center_x q1 q2 q3, center_y q1 q2 q3) p1))))).
Proof.
  unfold run_pure. rewrite get_circle_center_cases.
  destruct (fst p1 =? fst p2) eqn:E12;
    [destruct (fst p1 =? fst p3) eqn:E13|destruct (fst p2 =? fst p3) eqn:E23];
    cbn [andb]; eqb_facts.
  - repeat split; try reflexivity.
    + intros Hn. exfalso. apply Hn. unfold collinear. nia.
    + intros Hn. exfalso. apply Hn. unfold collinear. nia.
  - apply intersect_outcomes; [congruence | congruence | apply collinear_rotate].
  - apply intersect_outcomes; [congruence | congruence |].
    split; [apply (proj2 (collinear_rotate p3 p1 p2))
           |apply (proj1 (collinear_rotate p3 p1 p2))].
  - apply intersect_outcomes; [assumption | assumption | tauto].
Qed.

Lemma collinear_gives_DNE_witness :
  run_pure (get_circle_center (F := R) (pt (0, 0)) (pt (1, 1)) (pt (3, 3)))
  = Ok DNE.
Proof. apply collinear_gives_DNE. reflexivity. Defined.

Lemma circle_center_equidistant_witness :
  let c : @point R :=
    (Flt (center_x (0, 0) (2, 1) (1, 3)), Flt (center_y (0, 0) (2, 1) (1, 3))) in
  let r : @num R :=
    Flt (sqrt (sqd (center_x (0, 0) (2, 1) (1, 3),
                    center_y (0, 0) (2, 1) (1, 3)) (0, 0))) in
  distance c (pt (0, 0)) = r
  /\ distance c (pt (2, 1)) = r
  /\ distance c (pt (1, 3)) = r.
Proof.
  apply circle_center_equidistant.
  unfold run_pure. rewrite get_circle_center_cases.
  change (fst (0, 0) =? fst (2, 1)) with false.
  change (fst (2, 1) =? fst (1, 3)) with false.
  cbn [andb].
  apply (intersect_outcomes (0, 0) (2, 1) (1, 3) (0, 0) (2, 1) (1, 3)).
  - simpl. lia.
  - simpl. lia.
  - tauto.
  - unfold collinear. simpl. lia.
  - simpl. lia.
Defined.

(** ** The curvature *)

Lemma PI_above : (31415 / 10000 < PI)%R.
Proof.
  pose proof (PI_2_3_7_ineq 1) as [H _].
  unfold sum_f_R0, tg_alt, PI_2_3_7_tg, Ratan_seq in H.
  simpl in H. lra.
Qed.

Lemma getitem_some {F} (s : @globals F) k v :
  image_data s !! k = Some v -> getitem k s = (Ok v, s).
Proof. intros H. unfold getitem, bind, get. rewrite H. reflexivity. Qed.

Lemma getpoint_some {F} (s : @globals F) k a b :
  image_data s !! k = Some (Tup a b) -> getpoint k s = (Ok (a, b), s).
Proof.
  intros H. unfold getpoint, bind. rewrite (getitem_some s k _ H). reflexivity.
Qed.

Section Curvature.
Variable s : @globals R.
Variables x1 y1 x2 y2 ex ey : Z.
Variables cx cy r : R.
Hypothesis Hr : image_data s !! "im_radius_px" = Some (Num (Flt r)).
Hypothesis Hc :
  image_data s !! "im_p_circle_center" = Some (Tup (Flt cx) (Flt cy)).
Hypothesis H1 : image_data s !! "im_p_length_1" = Some (click x1 y1).
Hypothesis H2 : image_data s !! "im_p_length_2" = Some (click x2 y2).
Hypothesis He : image_data s !! "im_p_egg_middle" = Some (click ex ey).
Hypothesis Hr0 : r <> 0%R.

Let angle : R :=
  acos (((IZR x1 - cx) * (IZR x2 - cx) + (IZR y1 - cy) * (IZR y2 - cy))
        / (r * r))%R.
Let displacement : R :=
  sqrt (IZR (((x1 + x2) / 2 - ex) * ((x1 + x2) / 2 - ex)
             + ((y1 + y2) / 2 - ey) * ((y1 + y2) / 2 - ey))).
Let corrected : R :=
  if R_ltb r displacement then (2 * (31415 / 10000) - angle)%R else angle.

Lemma calculate_curvature_exact :
  calculate_curvature acos s
  = (Ok (Some (Flt corrected)),
     set_image_data
       (<["im_length_curved_px" := Num (Flt (corrected * r)%R)]>
          (<["im_curvature_rad" := Num (Flt corrected)]>
             (<["im_curvature_deg" :=
                  Num (Flt (corrected * 180 / (31415 / 10000))%R)]>
                (image_data s)))) s).
Proof.
  unfold calculate_curvature.
  unfold bind at 1. rewrite (getitem_some _ _ _ Hr). cbn [is_DNE].
  unfold bind at 1. rewrite (getpoint_some _ _ _ _ H1).
  unfold bind at 1. rewrite (getpoint_some _ _ _ _ Hc).
  unfold bind at 1. rewrite (getpoint_some _ _ _ _ H2).
  unfold bind at 1. cbn [as_num]. unfold ret at 1.
  cbn [fst snd py_sub py_add py_mul py_sq to_float fsub fadd fmul of_int
       R_float].
  assert (D : (r * r <> 0)%R)
    by (apply Rmult_integral_contrapositive_currified; assumption).
  unfold bind at 1. rewrite (py_div_flt _ _ s D).
  unfold bind at 1. rewrite (getpoint_some _ _ _ _ He).
  unfold bind at 1. unfold midpoint.
  cbn [fst snd py_add py_div Z.eqb]. unfold bind at 1 2, ret at 1 2 3.
  unfold py_arccos, distance, py_pow_half, py_gt, py_sq.
  cbn [fst snd py_sub py_add py_mul py_sq py_lt to_float fsub fadd fmul fltb
       fsqrt of_int R_float].
  fold angle. fold displacement.
  unfold dec. cbn [fquot of_int R_float to_float].
  change (10 ^ Z.of_nat 4) with 10000.
  assert (D4 : (31415 / 10000 <> 0)%R) by lra.
  unfold corrected.
  destruct (R_ltb r displacement);
    cbn [py_sub py_mul to_float fsub fmul of_int R_float];
    unfold bind at 1; rewrite (py_div_flt _ _ s D4);
    reflexivity.
Qed.

End Curvature.

Lemma calculate_curvature_DNE {F} {PF : PyFloat F} arccos (s : @globals F) :
  image_data s !! "im_radius_px" = Some (Str "DNE") ->
  calculate_curvature arccos s
  = (Ok None,
     set_image_data
       (<["im_curvature_rad" := Num (Int 0)]>
          (<["im_curvature_deg" := Num (Int 0)]> (image_data s))) s).
Proof.
  intros Hr. unfold calculate_curvature.
  unfold bind at 1. rewrite (getitem_some _ _ _ Hr).
  reflexivity.
Qed.

Section CurvatureOfTheCode.
Context {F : Type} {PF : PyFloat F}.
Variable arccos : F -> F.
Variable s : @globals F.
Variables x1 y1 x2 y2 ex ey : Z.
Variables cx cy r : F.
Hypothesis Hr : image_data s !! "im_radius_px" = Some (Num (Flt r)).
Hypothesis Hc :
  image_data s !! "im_p_circle_center" = Some (Tup (Flt cx) (Flt cy)).
Hypothesis H1 : image_data s !! "im_p_length_1" = Some (click x1 y1).
Hypothesis H2 : image_data s !! "im_p_length_2" = Some (click x2 y2).
Hypothesis He : image_data s !! "im_p_egg_middle" = Some (click ex ey).
Hypothesis Hr0 : feqb (fmul r r) (of_int 0) = false.
Hypothesis Hpi : feqb (to_float (dec 31415 4)) (of_int 0) = false.

(** The values of lines 659-675, in the arithmetic [F]. *)
Let cosine : F :=
  fquot (fadd (fmul (fsub (of_int x1) cx) (fsub (of_int x2) cx))
              (fmul (fsub (of_int y1) cy) (fsub (of_int y2) cy)))
        (fmul r r).
Let displacement : F :=
  fsqrt (of_int (((x1 + x2) / 2 - ex) * ((x1 + x2) / 2 - ex)
                 + ((y1 + y2) / 2 - ey) * ((y1 + y2) / 2 - ey))).
Let corrected : F :=
  if fltb r displacement
  then fsub (fmul (of_int 2) (to_float (dec 31415 4))) (arccos cosine)
  else arccos cosine.

Lemma calculate_curvature_value :
  calculate_curvature arccos s
  = (Ok (Some (Flt corrected)),
     set_image_data
       (<["im_length_curved_px" := Num (Flt (fmul corrected r))]>
          (<["im_curvature_rad" := Num (Flt corrected)]>
             (<["im_curvature_deg" :=
                  Num (Flt (fquot (fmul corrected (of_int 180))
                                  (to_float (dec 31415 4))))]>
                (image_data s)))) s).
Proof.
  assert (Hdiv : forall (a d : F) (t : @globals F),
            feqb d (of_int 0) = false ->
            py_div (Flt a) (Flt d) t = (Ok (Flt (fquot a d)), t)).
  { intros a d t Hd. unfold py_div. cbn [to_float]. rewrite Hd. reflexivity. }
  unfold calculate_curvature.
  unfold bind at 1. rewrite (getitem_some _ _ _ Hr). cbn [is_DNE].
  unfold bind at 1. rewrite (getpoint_some _ _ _ _ H1).
  unfold bind at 1. rewrite (getpoint_some _ _ _ _ Hc).
  unfold bind at 1. rewrite (getpoint_some _ _ _ _ H2).
  unfold bind at 1. cbn [as_num]. unfold ret at 1.
  cbn [fst snd py_sub py_add py_mul py_sq to_float].
  unfold bind at 1. rewrite (Hdiv _ _ s Hr0).
  unfold bind at 1. rewrite (getpoint_some _ _ _ _ He).
  unfold bind at 1. unfold midpoint.
  cbn [fst snd py_add py_div Z.eqb]. unfold bind at 1 2, ret at 1 2 3.
  unfold py_arccos, distance, py_pow_half, py_gt, py_sq.
  cbn [fst snd py_sub py_add py_mul py_lt to_float].
  fold cosine. fold displacement.
  assert (Hdec : exists c : F, dec 31415 4 = Flt c) by (eexists; reflexivity).
  destruct Hdec as [c Hdec]. unfold corrected. rewrite Hdec in *.
  cbn [to_float] in *.
  destruct (fltb r displacement);
    cbn [py_sub py_mul to_float];
    unfold bind at 1; rewrite (Hdiv _ _ s Hpi);
    reflexivity.
Qed.

End CurvatureOfTheCode.

(** C2, amended. In any float arithmetic in which 3.1415 is not zero,
    and for the library's inverse cosine, whatever it returns (nan
    included): when the fit gave a center and a radius
    [r] whose square is not zero, the angle is the inverse cosine of the
    dot product of the two radius vectors divided by [r * r]; when the
    middle of the egg is farther than [r] from the middle of the chord
    between the poles (taken with floor division) the angle becomes
    [2 * 3.1415] minus that angle; 'im_curvature_rad' is that angle and
    'im_length_curved_px' the angle times [r].  When the fit gave 'DNE',
    both curvature entries are 0. *)
Theorem curvature_of_the_fit {F : Type} {PF : PyFloat F}
    (arccos : F -> F) (s : @globals F) :
  (image_data s !! "im_radius_px" = Some (Str "DNE") ->
   let s' := snd (calculate_curvature arccos s) in
   fst (calculate_curvature arccos s) = Ok None
   /\ image_data s' !! "im_curvature_deg" = Some (Num (Int 0))
   /\ image_data s' !! "im_curvature_rad" = Some (Num (Int 0)))
  /\ (forall (x1 y1 x2 y2 ex ey : Z) (cx cy r : F),
      image_data s !! "im_radius_px" = Some (Num (Flt r)) ->
      image_data s !! "im_p_circle_center" = Some (Tup (Flt cx) (Flt cy)) ->
      image_data s !! "im_p_length_1" = Some (click x1 y1) ->
      image_data s !! "im_p_length_2" = Some (click x2 y2) ->
      image_data s !! "im_p_egg_middle" = Some (click ex ey) ->
      feqb (fmul r r) (of_int 0) = false ->
      feqb (to_float (dec 31415 4)) (of_int 0) = false ->
      let angle :=
        arccos
          (fquot (fadd (fmul (fsub (of_int x1) cx) (fsub (of_int x2) cx))
                       (fmul (fsub (of_int y1) cy) (fsub (of_int y2) cy)))
                 (fmul r r)) in
      let displacement :=
        fsqrt (of_int (((x1 + x2) / 2 - ex) * ((x1 + x2) / 2 - ex)
                       + ((y1 + y2) / 2 - ey) * ((y1 + y2) / 2 - ey))) in
      let corrected :=
        if fltb r displacement
        then fsub (fmul (of_int 2) (to_float (dec 31415 4))) angle
        else angle in
      let s' := snd (calculate_curvature arccos s) in
      fst (calculate_curvature arccos s) = Ok (Some (Flt corrected))
      /\ image_data s' !! "im_curvature_rad" = Some (Num (Flt corrected))
      /\ image_data s' !! "im_length_curved_px"
         = Some (Num (Flt (fmul corrected r)))).
Proof.
  split.
  - intros Hr. cbn zeta. rewrite (calculate_curvature_DNE _ _ Hr).
    cbn [fst snd image_data set_image_data].
    repeat split.
    + rewrite lookup_insert_ne by discriminate. apply lookup_insert_eq.
    + apply lookup_insert_eq.
  - intros x1 y1 x2 y2 ex ey cx cy r Hr Hc H1 H2 He Hr0 Hpi.
    cbn zeta.
    rewrite (calculate_curvature_value arccos s x1 y1 x2 y2 ex ey cx cy r)
      by assumption.
    cbn [fst snd image_data set_image_data].
    repeat split.
    + rewrite lookup_insert_ne by discriminate. apply lookup_insert_eq.
    + apply lookup_insert_eq.
Qed.

Lemma curvature_of_the_fit_witness :
  (exists v : @num PrimFloat.float,
     fst (calculate_curvature (fun x => x) fitted_egg) = Ok (Some v)
     /\ image_data (snd (calculate_curvature (fun x => x) fitted_egg))
          !! "im_curvature_rad" = Some (Num v))
  /\ fst (calculate_curvature acos straight_egg) = Ok None.
Proof.
  split.
  - edestruct (proj2 (curvature_of_the_fit (fun x => x) fitted_egg))
      as (A & B & _);
      [vm_compute; reflexivity ..|].
    eexists. split; [exact A | exact B].
  - apply (proj1 (curvature_of_the_fit acos straight_egg)). reflexivity.
Defined.

(** C2, as stated, fails, in exact arithmetic already: on [major_arc]
    the middle of the egg is 9 from
    the middle of the chord, more than the radius 5, and the angle
    stored is not [2 * PI] minus the inverse cosine. *)
Lemma correction_is_not_two_pi :
  ~ ((5 < sqrt (IZR ((10 - 10) * (10 - 10) + (14 - 5) * (14 - 5))))%R ->
     image_data (snd (calculate_curvature acos major_arc)) !! "im_curvature_rad"
     = Some (Num (Flt (2 * PI
                       - acos (((7 - 10) * (13 - 10) + (14 - 10) * (14 - 10))
                               / (5 * 5)))%R))).
Proof.
  assert (Hd : sqrt (IZR ((10 - 10) * (10 - 10) + (14 - 5) * (14 - 5))) = 9%R).
  { replace (IZR ((10 - 10) * (10 - 10) + (14 - 5) * (14 - 5))) with (9 * 9)%R.
    - apply sqrt_square. lra.
    - change ((10 - 10) * (10 - 10) + (14 - 5) * (14 - 5)) with 81. lra. }
  intros H. rewrite Hd in H. specialize (H ltac:(lra)).
  rewrite (calculate_curvature_exact major_arc 7 14 13 14 10 5 10%R 10%R 5%R)
    in H; try reflexivity; [|lra].
  cbn [snd image_data set_image_data] in H.
  rewrite lookup_insert_ne in H by discriminate.
  rewrite lookup_insert_eq in H.
  change (((7 + 13) / 2 - 10) * ((7 + 13) / 2 - 10)
          + ((14 + 14) / 2 - 5) * ((14 + 14) / 2 - 5)) with
    ((10 - 10) * (10 - 10) + (14 - 5) * (14 - 5)) in H.
  rewrite Hd in H.
  assert (Hlt : R_ltb 5 9 = true).
  { unfold R_ltb. destruct (Rlt_dec 5 9); [reflexivity|lra]. }
  rewrite Hlt in H.
  injection H as H.
  pose proof PI_above.
  lra.
Qed.

(** The same in binary64, for every inverse cosine that gives the
    binary64 number nearest to [PI / 2] at 0, as [numpy.arccos] does: on
    [bent_egg] the cosine is 0, the middle of the egg is farther from
    the middle of the chord than the radius, and the angle stored is
    [2 * 3.1415] minus the inverse cosine, which is not [2 * pi] minus
    it. *)
Lemma correction_is_not_two_pi_in_binary64
    (arccos : PrimFloat.float -> PrimFloat.float) :
  arccos (b64_of_int 0) = half_pi64 ->
  image_data (snd (calculate_curvature arccos bent_egg)) !! "im_curvature_rad"
  = Some (Num (Flt (PrimFloat.sub
                      (PrimFloat.mul (b64_of_int 2) (to_float (dec 31415 4)))
                      half_pi64)))
  /\ PrimFloat.sub (PrimFloat.mul (b64_of_int 2) (to_float (dec 31415 4)))
                   half_pi64
     <> PrimFloat.sub (PrimFloat.mul (b64_of_int 2) pi64) half_pi64.
Proof.
  intros Ha. split.
  - rewrite (calculate_curvature_value arccos bent_egg 750 500 500 750 500 250
               (b64_of_int 500) (b64_of_int 500) (b64_of_int 250))
      by (vm_compute; reflexivity).
    cbn [snd image_data set_image_data].
    rewrite lookup_insert_ne by discriminate. rewrite lookup_insert_eq.
    match goal with
    | |- context [arccos ?c] =>
        replace c with (b64_of_int 0) by (vm_compute; reflexivity)
    end.
    rewrite Ha.
    match goal with
    | |- context [if ?b then _ else _] =>
        replace b with true by (vm_compute; reflexivity)
    end.
    reflexivity.
  - vm_compute. intros H. discriminate.
Qed.

(** ** Clicks after the last point *)

Section Complete.
Context {F : Type} {PF : PyFloat F}.

Lemma to_orig_store lo hi res c (s : @globals F) :
  snd (to_orig lo hi res c s) = s.
Proof. symmetry. apply (to_orig_keeps (fun t => s = t)). reflexivity. Qed.

Lemma annotate_points_complete w h (s : @globals F) :
  (mode s = points4 /\ 5 <= points s) \/ (mode s = points8 /\ 9 <= points s) ->
  annotate_points w h s = (Ok tt, s).
Proof.
  intros H. unfold annotate_points, bind, get.
  assert (E1 : (points s =? 1) = false) by (apply Z.eqb_neq; lia).
  assert (E2 : (points s =? 2) = false) by (apply Z.eqb_neq; lia).
  assert (E3 : (points s =? 3) = false) by (apply Z.eqb_neq; lia).
  assert (E4 : (points s =? 4) = false) by (apply Z.eqb_neq; lia).
  rewrite E1, E2, E3, E4.
  destruct H as [[Hm Hp]|[Hm Hp]].
  - rewrite Hm. rewrite bool_decide_eq_false_2 by discriminate.
    rewrite !andb_false_r. reflexivity.
  - assert (E5 : (points s =? 5) = false) by (apply Z.eqb_neq; lia).
    assert (E6 : (points s =? 6) = false) by (apply Z.eqb_neq; lia).
    assert (E7 : (points s =? 7) = false) by (apply Z.eqb_neq; lia).
    assert (E8 : (points s =? 8) = false) by (apply Z.eqb_neq; lia).
    rewrite E5, E6, E7, E8. reflexivity.
Qed.

Lemma annotate_image_complete x y (s : @globals F) r :
  (mode s = points4 /\ 5 <= points s) \/ (mode s = points8 /\ 9 <= points s) ->
  annotate_image LBUTTONUP x y s = r ->
  snd r = s \/ snd r = set_pxy x y s.
Proof.
  intros H Hr. unfold annotate_image in Hr.
  unfold bind at 1, get in Hr. unfold bind at 1 in Hr.
  pose proof (to_orig_store (h_min s) (h_max s) (res_h s) y s) as S1.
  destruct (to_orig (h_min s) (h_max s) (res_h s) y s) as [[raw_h|e|] s1];
    simpl in S1; subst s1; [|subst r; left; reflexivity..].
  unfold bind at 1 in Hr.
  pose proof (to_orig_store (w_min s) (w_max s) (res_w s) x s) as S2.
  destruct (to_orig (w_min s) (w_max s) (res_w s) x s) as [[raw_w|e|] s2];
    simpl in S2; subst s2; [|subst r; left; reflexivity..].
  unfold bind in Hr.
  assert (Hm : mode s = points4 \/ mode s = points8) by tauto.
  destruct Hm as [Hm|Hm]; rewrite Hm in Hr;
    rewrite (annotate_points_complete raw_w raw_h s H) in Hr;
    subst r; right; reflexivity.
Qed.

(** In 4-point mode after the fourth click, and in 8-point mode after
    the eighth, a further left click changes neither a landmark nor the
    counter nor the mode. *)
Theorem click_after_last_point x y (s : @globals F) :
  (mode s = points4 /\ 5 <= points s) \/ (mode s = points8 /\ 9 <= points s) ->
  let s' := snd (annotate_image LBUTTONUP x y s) in
  image_data s' = image_data s /\ points s' = points s /\ mode s' = mode s.
Proof.
  intros H. cbn zeta.
  destruct (annotate_image_complete x y s _ H eq_refl) as [-> | ->]; auto.
Qed.

End Complete.

Lemma click_after_last_point_witness :
  let s :=
    clicked [[Key 52; Mouse LBUTTONUP 140 70; Mouse LBUTTONUP 280 70;
              Mouse LBUTTONUP 210 35; Mouse LBUTTONUP 210 105]] in
  let s' := snd (annotate_image LBUTTONUP 700 350 s) in
  image_data s' = image_data s /\ points s' = points s /\ mode s' = mode s.
Proof.
  apply click_after_last_point. left. split; [reflexivity|].
  vm_compute. discriminate.
Defined.

(** ** A zoom window that fits *)

Lemma bind_Ok {S A B} (m : PyM S A) (k : A -> PyM S B) s b s' :
  bind m k s = (Ok b, s') ->
  exists a s1, m s = (Ok a, s1) /\ k a s1 = (Ok b, s').
Proof.
  unfold bind. destruct (m s) as [[a|e|] s1]; try discriminate.
  intros H. exists a, s1. split; [reflexivity | exact H].
Qed.

Lemma kept_Ok {S A} (m : PyM S A) (s s' : S) (a : A) :
  preserves (eq s) m -> m s = (Ok a, s') -> m s = (Ok a, s).
Proof.
  intros Hm H. specialize (Hm s eq_refl). rewrite H in Hm. cbn in Hm.
  rewrite H. congruence.
Qed.

(** The window [calc_new_view] returns is the window of the computed
    size centred on the click and then translated, never resized: with
    [nw = int((w_max - w_min) / 1.3)] and [nh = int(800.0 * nw / 1400.0)]
    it is [click -/+ nh / 2] by [click -/+ nw / 2] moved by some [dh] and
    [dw], whatever the borders.  When it is no higher than the view it
    was asked to zoom into, it lies within that view from top to bottom,
    and likewise from left to right. *)
Theorem zoom_window_that_fits {F : Type} {PF : PyFloat F} {S : Type}
    (h_min h_max w_min w_max res_height res_width click_h click_w : Z)
    (s s' : S) (a b c d : Z) :
  calc_new_view (F := F) h_min h_max w_min w_max res_height res_width
                click_h click_w s
  = (Ok (a, b, c, d), s') ->
  exists (oh ow nw nh dh dw : Z) (ww wh : @num F),
    to_orig h_min h_max res_height click_h s = (Ok oh, s)
    /\ to_orig w_min w_max res_width click_w s = (Ok ow, s)
    /\ py_div (Int (w_max - w_min)) (dec 13 1) s = (Ok ww, s)
    /\ py_int ww s = (Ok nw, s)
    /\ py_div (py_mul screen_max_h (Int nw)) screen_max_w s = (Ok wh, s)
    /\ py_int wh s = (Ok nh, s)
    /\ a = oh - nh / 2 + dh /\ b = oh + nh / 2 + dh
    /\ c = ow - nw / 2 + dw /\ d = ow + nw / 2 + dw
    /\ (b - a <= h_max - h_min -> h_min <= a /\ b <= h_max)
    /\ (d - c <= w_max - w_min -> w_min <= c /\ d <= w_max).
Proof.
  unfold calc_new_view. intros H.
  apply bind_Ok in H as (oh & s1 & H1 & H).
  apply kept_Ok in H1 as H1'; [|apply to_orig_keeps].
  rewrite H1' in H1. injection H1 as <-.
  apply bind_Ok in H as (ow & s2 & H2 & H).
  apply kept_Ok in H2 as H2'; [|apply to_orig_keeps].
  rewrite H2' in H2. injection H2 as <-.
  apply bind_Ok in H as (ww & s3 & H3 & H).
  apply kept_Ok in H3 as H3'; [|apply py_div_keeps].
  rewrite H3' in H3. injection H3 as <-.
  apply bind_Ok in H as (nw & s4 & H4 & H).
  apply kept_Ok in H4 as H4'; [|apply py_int_keeps].
  rewrite H4' in H4. injection H4 as <-.
  apply bind_Ok in H as (wh & s5 & H5 & H).
  apply kept_Ok in H5 as H5'; [|apply py_div_keeps].
  rewrite H5' in H5. injection H5 as <-.
  apply bind_Ok in H as (nh & s6 & H6 & H).
  apply kept_Ok in H6 as H6'; [|apply py_int_keeps].
  rewrite H6' in H6. injection H6 as <-.
  exists oh, ow, nw, nh, (a - (oh - nh / 2)), (c - (ow - nw / 2)), ww, wh.
  do 6 (split; [assumption|]).
  unfold ret in H.
  destruct (oh - nh / 2 <? h_min) eqn:E1;
  destruct (ow - nw / 2 <? w_min) eqn:E3;
  cbv zeta in H;
  repeat match type of H with
         | context [if ?t then _ else _] => destruct t eqn:?
         end;
  injection H as <- <- <- <- _;
  repeat match goal with
         | E : (_ <? _) = true |- _ => apply Z.ltb_lt in E
         | E : (_ <? _) = false |- _ => apply Z.ltb_ge in E
         | E : (_ >? _) = true |- _ => apply Z.gtb_gt in E
         | E : (_ >? _) = false |- _ => rewrite Z.gtb_ltb in E; apply Z.ltb_ge in E
         end;
  repeat split; intros; lia.
Qed.

Lemma zoom_window_that_fits_witness :
  exists (oh ow nw nh dh dw : Z) (ww wh : @num PrimFloat.float),
    to_orig 0 1000 700 196 tt = (Ok oh, tt)
    /\ to_orig 0 2000 1400 700 tt = (Ok ow, tt)
    /\ py_div (Int (2000 - 0)) (dec 13 1) tt = (Ok ww, tt)
    /\ py_int ww tt = (Ok nw, tt)
    /\ py_div (py_mul screen_max_h (Int nw)) screen_max_w tt = (Ok wh, tt)
    /\ py_int wh tt = (Ok nh, tt)
    /\ 0 = oh - nh / 2 + dh /\ 878 = oh + nh / 2 + dh
    /\ 231 = ow - nw / 2 + dw /\ 1769 = ow + nw / 2 + dw
    /\ (878 - 0 <= 1000 - 0 -> 0 <= 0 /\ 878 <= 1000)
    /\ (1769 - 231 <= 2000 - 0 -> 0 <= 231 /\ 1769 <= 2000).
Proof.
  apply (zoom_window_that_fits (F := PrimFloat.float) (S := unit)
           0 1000 0 2000 700 1400 196 700 tt tt).
  vm_compute. reflexivity.
Defined.

(** ** Distances, midpoints and guide lines of clicked points *)

Section Clicked.
Context {F : Type} {PF : PyFloat F}.

(** The distance between two clicked points does not depend on which of
    them was clicked first. *)
Theorem distance_symmetric (p q : Z * Z) :
  distance (F := F) (pt p) (pt q) = distance (pt q) (pt p).
Proof.
  unfold distance, py_pow_half, py_sq. cbn [pt fst snd py_sub py_mul py_add to_float].
  do 3 f_equal. ring.
Qed.

(** The midpoint of two clicked points is found without an error, is the
    same in both orders, has integer coordinates and lies between the
    two points (the mean rounded down). *)
Theorem midpoint_between (p q : Z * Z) :
  exists m : Z * Z,
    run_pure (midpoint (F := F) (pt p) (pt q)) = Ok (pt m)
    /\ run_pure (midpoint (F := F) (pt q) (pt p)) = Ok (pt m)
    /\ Z.min (fst p) (fst q) <= fst m <= Z.max (fst p) (fst q)
    /\ Z.min (snd p) (snd q) <= snd m <= Z.max (snd p) (snd q)
    /\ 2 * fst m <= fst p + fst q <= 2 * fst m + 1
    /\ 2 * snd m <= snd p + snd q <= 2 * snd m + 1.
Proof.
  exists ((fst p + fst q) / 2, (snd p + snd q) / 2).
  pose proof (Z.div_mod (fst p + fst q) 2 ltac:(lia)) as Hx.
  pose proof (Z.mod_pos_bound (fst p + fst q) 2 ltac:(lia)) as Hxm.
  pose proof (Z.div_mod (snd p + snd q) 2 ltac:(lia)) as Hy.
  pose proof (Z.mod_pos_bound (snd p + snd q) 2 ltac:(lia)) as Hym.
  repeat split; cbn [fst snd]; try lia.
  unfold run_pure, midpoint, pt. cbn [fst snd py_add py_div Z.eqb].
  unfold bind, ret. cbn [fst snd].
  rewrite (Z.add_comm (fst q)), (Z.add_comm (snd q)). reflexivity.
Qed.

(** The guide line drawn across the segment between two clicked points
    is perpendicular to the segment and four times as long: its ends
    differ by four times the segment turned by a right angle. *)
Theorem bisector_is_perpendicular (p q : Z * Z) :
  exists a b : Z * Z,
    run_pure (calc_bisector_ends (F := F) (pt p) (pt q)) = Ok (pt a, pt b)
    /\ fst a - fst b = -4 * (snd p - snd q)
    /\ snd a - snd b = 4 * (fst p - fst q)
    /\ (fst a - fst b) * (fst p - fst q) + (snd a - snd b) * (snd p - snd q)
       = 0.
Proof.
  set (mx := (fst p + fst q) / 2). set (my := (snd p + snd q) / 2).
  exists (mx + 4 * (mx - snd p + my - mx), my + 4 * (my + fst p - mx - my)),
         (mx + 4 * (mx - snd q + my - mx), my + 4 * (my + fst q - mx - my)).
  cbn [fst snd]. repeat split; try lia.
Qed.

End Clicked.

(** ** The zoom, in exact arithmetic *)

Lemma R_trunc_bounds (x : R) :
  (0 <= x)%R -> 0 <= R_trunc x /\ (IZR (R_trunc x) <= x < IZR (R_trunc x) + 1)%R.
Proof.
  intros Hx. unfold R_trunc. destruct (Rle_dec 0 x) as [_|n]; [|contradiction].
  destruct (base_Int_part x) as [H1 H2]. split; [|lra].
  assert (H : (IZR (-1) < IZR (Int_part x))%R) by (simpl; lra).
  apply lt_IZR in H. lia.
Qed.

Lemma bind_eq {S A B} (m : PyM S A) (k : A -> PyM S B) s a s1 :
  m s = (Ok a, s1) -> bind m k s = k a s1.
Proof. intros H. unfold bind. rewrite H. reflexivity. Qed.

Lemma py_div_by_int {S} (x : R) (n : Z) (s : S) :
  n <> 0 -> py_div (Flt x) (Int n) s = (Ok (Flt (x / IZR n)%R), s).
Proof.
  intros Hn. unfold py_div.
  assert (E : feqb (to_float (@Int R n)) (of_int 0) = false).
  { apply R_eqb_false. intros H. apply eq_IZR in H. contradiction. }
  rewrite E. reflexivity.
Qed.

Lemma to_orig_exact {S} (lo hi res click : Z) (s : S) :
  res <> 0 ->
  to_orig (F := R) lo hi res click s
  = (Ok (lo + R_trunc (IZR click / IZR res * IZR (hi - lo))), s).
Proof.
  intros Hres. unfold to_orig, py_float. cbn [to_float R_float of_int].
  rewrite (bind_eq _ _ _ _ _ (py_div_by_int _ _ _ Hres)). reflexivity.
Qed.

(** In exact arithmetic a click inside the displayed window is
    converted to a coordinate inside the part of the original image the
    window shows. *)
Theorem to_orig_within_view {S} (lo hi res click : Z) (s : S) :
  0 < res -> 0 <= click <= res -> lo <= hi ->
  exists z, to_orig (F := R) lo hi res click s = (Ok z, s) /\ lo <= z <= hi.
Proof.
  intros Hres Hc Hlh. eexists. split; [apply to_orig_exact; lia|].
  set (t := (IZR click / IZR res * IZR (hi - lo))%R).
  assert (Hr : (0 < IZR res)%R) by (apply IZR_lt; exact Hres).
  assert (Hq : (0 <= IZR click / IZR res <= 1)%R).
  { split.
    - apply Rmult_le_pos; [apply IZR_le; lia|].
      apply Rlt_le, Rinv_0_lt_compat; exact Hr.
    - apply (Rmult_le_reg_r (IZR res)); [exact Hr|].
      unfold Rdiv. rewrite Rmult_assoc, Rinv_l by lra.
      rewrite Rmult_1_r, Rmult_1_l. apply IZR_le; lia. }
  assert (Hd : (0 <= IZR (hi - lo))%R) by (apply IZR_le; lia).
  assert (Ht : (0 <= t <= IZR (hi - lo))%R).
  { unfold t. split; [apply Rmult_le_pos; lra|].
    rewrite <- (Rmult_1_l (IZR (hi - lo))) at 2.
    apply Rmult_le_compat_r; lra. }
  destruct (R_trunc_bounds t (proj1 Ht)) as [H0 [H1 _]].
  assert (H2 : (IZR (R_trunc t) <= IZR (hi - lo))%R) by lra.
  apply le_IZR in H2. lia.
Qed.

Lemma to_orig_within_view_witness :
  exists z, to_orig (F := R) 100 500 400 100 tt = (Ok z, tt) /\ 100 <= z <= 500.
Proof. apply to_orig_within_view; lia. Defined.

(** In exact arithmetic, zooming into a view that is displayed with a
    non-empty window returns a window, whatever the click: it lies
    within the view from left to right, and is narrower than the view by
    the factor 1.3 at least. *)
Theorem zoom_narrows_the_view {S}
    (h_min h_max w_min w_max res_height res_width click_h click_w : Z)
    (s : S) :
  res_height <> 0 -> res_width <> 0 -> w_min <= w_max ->
  exists a b c d,
    calc_new_view (F := R) h_min h_max w_min w_max res_height res_width
                  click_h click_w s
    = (Ok (a, b, c, d), s)
    /\ w_min <= c /\ c <= d /\ d <= w_max
    /\ 13 * (d - c) <= 10 * (w_max - w_min).
Proof.
  intros Hh Hw Hle. unfold calc_new_view.
  rewrite (bind_eq _ _ _ _ _ (to_orig_exact _ _ _ _ _ Hh)).
  rewrite (bind_eq _ _ _ _ _ (to_orig_exact _ _ _ _ _ Hw)).
  set (oh := h_min + _). set (ow := w_min + _).
  unfold dec. change (10 ^ Z.of_nat 1) with 10.
  assert (H13 : (IZR 13 / IZR 10 <> 0)%R) by lra.
  rewrite (bind_eq _ _ _ _ _ (py_div_flt _ _ _ H13)).
  cbn [to_float R_float of_int].
  set (x := (IZR (w_max - w_min) / (IZR 13 / IZR 10))%R).
  assert (Hx : (0 <= x)%R /\ (x * 13 <= IZR (w_max - w_min) * 10)%R).
  { assert (H0 : (0 <= IZR (w_max - w_min))%R) by (apply IZR_le; lia).
    unfold x. split.
    - apply Rmult_le_pos; [exact H0|]. apply Rlt_le, Rinv_0_lt_compat. lra.
    - right. field. }
  destruct (R_trunc_bounds x (proj1 Hx)) as [Hn0 [Hn1 _]].
  unfold py_int at 1. cbn [to_int R_float]. unfold bind at 1, ret at 1.
  set (nw := R_trunc x) in *.
  assert (Hnw : 13 * nw <= 10 * (w_max - w_min)).
  { apply le_IZR. rewrite !mult_IZR. lra. }
  unfold screen_max_h, screen_max_w, dec. change (10 ^ Z.of_nat 1) with 10.
  assert (H14 : (IZR 14000 / IZR 10 <> 0)%R) by lra.
  cbn [py_mul to_float R_float of_int fmul].
  rewrite (bind_eq _ _ _ _ _ (py_div_flt _ _ _ H14)).
  unfold py_int at 1. cbn [to_int R_float]. unfold bind at 1, ret at 1.
  set (nh := R_trunc _).
  pose proof (Z.div_mod nw 2 ltac:(lia)) as Hd.
  pose proof (Z.mod_pos_bound nw 2 ltac:(lia)) as Hm.
  destruct (oh - nh / 2 <? h_min); destruct (_ >? h_max);
    destruct (ow - nw / 2 <? w_min) eqn:E1;
    [apply Z.ltb_lt in E1|apply Z.ltb_ge in E1| apply Z.ltb_lt in E1|apply Z.ltb_ge in E1| apply Z.ltb_lt in E1|apply Z.ltb_ge in E1| apply Z.ltb_lt in E1|apply Z.ltb_ge in E1];
    destruct (_ >? w_max) eqn:E2;
    (apply Z.gtb_gt in E2 || (rewrite Z.gtb_ltb in E2; apply Z.ltb_ge in E2));
    do 4 eexists; (split; [reflexivity|]); lia.
Qed.

Lemma zoom_narrows_the_view_witness :
  exists a b c d,
    calc_new_view (F := R) 0 1000 0 2000 700 1400 350 700 tt
    = (Ok (a, b, c, d), tt)
    /\ 0 <= c /\ c <= d /\ d <= 2000 /\ 13 * (d - c) <= 10 * (2000 - 0).
Proof. apply zoom_narrows_the_view; lia. Defined.

Lemma R_ltb_true a b : (a < b)%R -> R_ltb a b = true.
Proof. intros H. unfold R_ltb. destruct (Rlt_dec a b); [reflexivity|contradiction]. Qed.
Lemma R_ltb_false a b : (b <= a)%R -> R_ltb a b = false.
Proof. intros H. unfold R_ltb. destruct (Rlt_dec a b); [lra|reflexivity]. Qed.

(** In exact arithmetic the factor by which [make_new_view] resizes a
    non-empty view makes it fit a 1400 x 800 screen and touch one of its
    sides: the width becomes 1400 and the height at most 800, or the
    height 800 and the width at most 1400. *)
Theorem view_is_fitted_to_the_screen {S}
    (resize_shape : Z * Z -> @num R -> outcome (Z * Z))
    (h_min h_max w_min w_max : Z) (im : Z * Z) (s : S) :
  h_min < h_max -> w_min < w_max ->
  exists (rf : R) (rows cols : Z),
    make_new_view resize_shape h_min h_max w_min w_max im s
    = (resize_shape (rows, cols) (Flt rf), s)
    /\ (0 < rf)%R
    /\ (rf * IZR (w_max - w_min) <= 1400)%R
    /\ (rf * IZR (h_max - h_min) <= 800)%R
    /\ (rf * IZR (w_max - w_min) = 1400 \/ rf * IZR (h_max - h_min) = 800)%R.
Proof.
  intros Hh Hw. unfold make_new_view.
  unfold screen_max_w, screen_max_h, dec. change (10 ^ Z.of_nat 1) with 10.
  cbn [R_float of_int fquot].
  assert (Hw0 : w_max - w_min <> 0) by lia.
  assert (Hh0 : h_max - h_min <> 0) by lia.
  rewrite (bind_eq _ _ _ _ _ (py_div_by_int _ _ _ Hw0)).
  assert (HW : (0 < IZR (w_max - w_min))%R) by (apply IZR_lt; lia).
  assert (HH : (0 < IZR (h_max - h_min))%R) by (apply IZR_lt; lia).
  unfold py_gt, py_lt, py_mul. cbn [to_float R_float of_int fmul fltb].
  set (W := IZR (w_max - w_min)) in *. set (H := IZR (h_max - h_min)) in *.
  assert (E14 : (14000 / 10 / W * W = 1400)%R) by (field; lra).
  assert (E8 : (8000 / 10 / H * H = 800)%R) by (field; lra).
  assert (P14 : (0 < 14000 / 10 / W)%R).
  { apply Rmult_lt_0_compat; [lra|]. apply Rinv_0_lt_compat; exact HW. }
  assert (P8 : (0 < 8000 / 10 / H)%R).
  { apply Rmult_lt_0_compat; [lra|]. apply Rinv_0_lt_compat; exact HH. }
  destruct (Rlt_dec (8000 / 10) (H * (14000 / 10 / W))) as [Hgt|Hle].
  - rewrite (R_ltb_true _ _ Hgt).
    rewrite (bind_eq _ _ _ _ _ (py_div_by_int _ _ _ Hh0)).
    fold H. do 3 eexists. split; [reflexivity|].
    split; [exact P8|]. split; [|split; [lra|right; exact E8]].
    (* 800/H * W <= 1400, from 800 < H * (1400/W) *)
    apply (Rmult_le_reg_r H); [exact HH|].
    replace (8000 / 10 / H * W * H)%R with (8000 / 10 / H * H * W)%R by ring.
    rewrite E8.
    assert (E : (H * (14000 / 10 / W) * W = 1400 * H)%R) by (field; lra).
    assert (L : (8000 / 10 * W < H * (14000 / 10 / W) * W)%R)
      by (apply Rmult_lt_compat_r; assumption).
    lra.
  - rewrite (R_ltb_false _ _ (Rnot_lt_le _ _ Hle)).
    unfold bind at 1, ret at 1.
    do 3 eexists. split; [reflexivity|].
    split; [exact P14|]. split; [lra|]. split; [|left; exact E14].
    apply Rnot_lt_le in Hle. lra.
Qed.

Lemma view_is_fitted_to_the_screen_witness :
  exists (rf : R) (rows cols : Z),
    make_new_view (cv2_resize_shape (F := R)) 0 1000 0 2000 (1000, 2000) tt
    = (cv2_resize_shape (rows, cols) (Flt rf), tt)
    /\ (0 < rf)%R
    /\ (rf * IZR (2000 - 0) <= 1400)%R
    /\ (rf * IZR (1000 - 0) <= 800)%R
    /\ (rf * IZR (2000 - 0) = 1400 \/ rf * IZR (1000 - 0) = 800)%R.
Proof. apply view_is_fitted_to_the_screen; lia. Defined.

(** ** The record loop, entry by entry *)

Section Entries.
Context {F : Type} {PF : PyFloat F}.
Variable resize_shape : Z * Z -> @num F -> outcome (Z * Z).
Variable arccos : F -> F.
Variable eval_input : string -> outcome (@num F).
Variable float_of_string : string -> option (@num F).
Variable files : string -> option (Z * Z).
Variable ui : nat -> list (list event).

Abbreviation loop := (entries_loop resize_shape arccos eval_input float_of_string
                    files ui).
Abbreviation measure name j :=
  (process_one_image resize_shape arccos eval_input float_of_string
     (files name) (ui j)).

Lemma pure_run {S A} (m : PyM S A) (s : S) :
  (forall I, preserves I m) -> m s = (fst (m s), s).
Proof.
  intros H. specialize (H (eq s) s eq_refl).
  destruct (m s) as [o t]. cbn in *. congruence.
Qed.

(** What the loop does with entry [j]: it passes over it, it stops, or
    it measures the image, merges the result and goes on. *)
Lemma entries_loop_step (j : nat) (rest : list nat) (r : @run F) :
  (exists d, file_list r !! j = Some (Dict d) /\ eligible d = false
     /\ loop (j :: rest) r = loop rest r)
  \/ (exists d name image_dict g,
        file_list r !! j = Some (Dict d) /\ eligible d = true
        /\ measure name j (session r) = (Ok image_dict, g)
        /\ mode g <> quit
        /\ loop (j :: rest) r = loop rest (saved j d image_dict g r))
  \/ (exists d name image_dict g,
        file_list r !! j = Some (Dict d) /\ eligible d = true
        /\ measure name j (session r) = (Ok image_dict, g)
        /\ mode g = quit
        /\ loop (j :: rest) r = (Ok tt, set_session g r))
  \/ (exists o r', loop (j :: rest) r = (o, r') /\ o <> Ok tt
        /\ (r' = r \/ exists g, r' = set_session g r)).
Proof.
  remember (loop (j :: rest) r) as x eqn:Hx.
  assert (Stop : forall (o : outcome unit) r', x = (o, r') -> o <> Ok tt ->
            (r' = r \/ exists g, r' = set_session g r) ->
            exists o r', x = (o, r') /\ o <> Ok tt
               /\ (r' = r \/ exists g, r' = set_session g r)) by eauto.
  cbn [entries_loop] in Hx. unfold bind at 1, get in Hx. cbv beta in Hx.
  destruct (file_list r !! j) as [[d|v]|] eqn:Ej;
    [ | do 3 right; eapply Stop; [exact Hx | discriminate | left; reflexivity] .. ].
  unfold bind at 1, ret at 1 in Hx. unfold bind at 1, ret at 1 in Hx.
  unfold bind at 1 in Hx. rewrite (pure_run (base_img_name d) r) in Hx
    by (intros I; apply base_img_name_keeps).
  destruct (fst (base_img_name d r)) as [name|e|];
    [ | do 3 right; eapply Stop; [exact Hx | discriminate | left; reflexivity] .. ].
  assert (St : exists o : outcome unit,
            match d !! "im_status" with
            | Some v => let* _ := as_str v in ret tt
            | None => ret tt
            end r = (o, r)).
  { destruct (d !! "im_status") as [[?|?|?]|]; eexists; reflexivity. }
  destruct St as [o St]. unfold bind at 1 in Hx. rewrite St in Hx.
  destruct o as [[]|e|];
    [ | do 3 right; eapply Stop; [exact Hx | discriminate | left; reflexivity] .. ].
  destruct (eligible d) eqn:El; [| left; exists d; auto].
  right.
  assert (Fd : exists o : outcome unit,
            (if has d "s" then field d "g" ;; field d "s" ;; ret tt
              else field d "g" ;; ret tt) r = (o, r)).
  { unfold field, bind, ret, raise.
    destruct (has d "s"), (d !! "g"), (d !! "s"); eexists; reflexivity. }
  destruct Fd as [o Fd]. unfold bind at 1 in Hx. rewrite Fd in Hx.
  destruct o as [[]|e|];
    [ | do 2 right; eapply Stop; [exact Hx | discriminate | left; reflexivity] .. ].
  unfold bind at 1, field at 1 in Hx.
  destruct (d !! "ID") as [vID|];
    [ | do 2 right; eapply Stop; [exact Hx | discriminate | left; reflexivity] ].
  unfold ret at 1 in Hx. unfold bind at 1, call at 1 in Hx.
  destruct (measure name j (session r)) as [[image_dict|e|] g] eqn:Hm;
    [ | do 2 right; eapply Stop; [exact Hx | discriminate | right; eexists; reflexivity] .. ].
  unfold bind at 1, get in Hx. cbv beta in Hx.
  change (session (set_session g r)) with g in Hx.
  destruct (bool_decide (mode g = quit)) eqn:Eq.
  - right; left. apply bool_decide_eq_true_1 in Eq.
    exists d, name, image_dict, g. auto.
  - left. apply bool_decide_eq_false_1 in Eq.
    exists d, name, image_dict, g. repeat (split; [solve [auto]|]).
    exact Hx.
Qed.


#[local] Instance same_fields_refl : Reflexive (@same_fields F).
Proof. intros e. destruct e; cbn; auto. Qed.

#[local] Instance same_fields_trans : Transitive (@same_fields F).
Proof.
  intros e1 e2 e3. destruct e1, e2, e3; cbn; try congruence.
  intros H1 H2 k Hk. rewrite H2, H1 by exact Hk. reflexivity.
Qed.

Lemma same_fields_update name j (s g : globals)
    (d image_dict : gmap string (@value F)) :
  measure name j s = (Ok image_dict, g) ->
  same_fields (Dict d) (Dict (update d image_dict)).
Proof.
  intros Hrun k Hk.
  assert (Hkeys : im_keys image_dict).
  { rewrite (process_one_image_returns_data _ _ _ _ _ _ _ _ _ Hrun).
    pose proof (process_one_image_im_keys resize_shape arccos eval_input
                  float_of_string (files name) (ui j) s) as H.
    rewrite Hrun in H. exact H. }
  unfold update. rewrite lookup_union_r; [reflexivity|].
  destruct (image_dict !! k) as [v|] eqn:E; [|reflexivity].
  rewrite (Hkeys k) in Hk by (rewrite E; eauto). discriminate.
Qed.

(** Whatever the operator does and however the loop over the records
    ends, the list keeps its length and every entry keeps every field
    whose key does not start with 'im_'. *)
Theorem records_keep_their_fields (js : list nat) (r : @run F) :
  Forall2 same_fields (file_list r) (file_list (snd (loop js r))).
Proof.
  assert (Refl : forall l : list (@entry F), Forall2 same_fields l l)
    by (intros l; reflexivity).
  revert r. induction js as [|j rest IH]; intros r; [apply Refl|].
  destruct (entries_loop_step j rest r)
    as [(d & Ej & El & ->)
       |[(d & name & image_dict & g & Ej & El & Hm & Hq & ->)
        |[(d & name & image_dict & g & Ej & El & Hm & Hq & ->)
         |(o & r' & -> & Ho & [->|[g ->]])]]];
    try apply Refl; [apply IH|].
  etransitivity; [|apply IH].
  cbn. rewrite <- (list_insert_id (file_list r) j (Dict d)) at 1 by exact Ej.
  apply Forall2_insert; [apply Refl|].
  eapply same_fields_update, Hm.
Qed.

Lemma checkpoint_kept (js : list nat) (r : @run F) :
  checkpointed r -> checkpointed (snd (loop js r)).
Proof.
  revert r. induction js as [|j rest IH]; intros r Hr; [exact Hr|].
  destruct (entries_loop_step j rest r)
    as [(d & Ej & El & ->)
       |[(d & name & image_dict & g & Ej & El & Hm & Hq & ->)
        |[(d & name & image_dict & g & Ej & El & Hm & Hq & ->)
         |(o & r' & -> & Ho & [->|[g ->]])]]];
    try exact Hr; apply IH; [exact Hr|].
  intros l Hl. cbn in Hl. cbn. congruence.
Qed.

Lemma read_lines_leaves (I : @run F -> Prop) name (f : list (@line F)) :
  (forall r l, I r -> I (set_file_list l r)) ->
  (forall r m, I r -> I (print m r)) ->
  preserves I (read_lines name f).
Proof.
  intros Hl Hp. induction f as [|l rest IH]; cbn [read_lines].
  - apply preserves_ret.
  - apply preserves_bind.
    + destruct (evaluates l) as [e|[]|];
        first [ apply preserves_modify; intros r Hr; auto
              | apply preserves_raise | apply preserves_hang ].
    + intros _. apply preserves_bind; [exact IH|].
      intros n. apply preserves_ret.
Qed.

Lemma read_lines_counts name (f : list (@line F)) (r r' : @run F) n :
  read_lines name f r = (Ok n, r') ->
  n = length f
  /\ (length (file_list r') <= length (file_list r) + n)%nat
  /\ ((exists l, l ∈ f /\ evaluates l = Raise SyntaxError) ->
      (length (file_list r') < length (file_list r) + n)%nat).
Proof.
  revert r r' n. induction f as [|l rest IH]; intros r r' n H.
  - cbn in H. injection H as <- <-. split; [reflexivity|]. split; [lia|].
    intros (l & Hl & _). apply elem_of_nil in Hl. contradiction.
  - cbn [read_lines] in H.
    apply bind_Ok in H as ([] & r1 & H1 & H).
    apply bind_Ok in H as (m & r2 & H2 & H).
    injection H as <- <-. apply IH in H2 as (-> & Hle & Hlt).
    split; [reflexivity|].
    destruct (evaluates l) as [e|e|] eqn:El.
    + injection H1 as <-. cbn in Hle, Hlt. rewrite length_app in Hle, Hlt.
      cbn in Hle, Hlt. split; [lia|].
      intros (l' & Hl' & He). apply elem_of_cons in Hl' as [->|Hl'].
      * congruence.
      * assert (Hx : exists l, l ∈ rest /\ evaluates l = Raise SyntaxError)
          by eauto.
        apply Hlt in Hx. lia.
    + destruct e; try discriminate. injection H1 as <-. cbn in Hle, Hlt.
      split; lia.
    + discriminate.
Qed.

Lemma past_the_end (js : list nat) (r : @run F) (j : nat) :
  j ∈ js -> (length (file_list r) <= j)%nat ->
  fst (loop js r) <> Ok tt \/ mode (session (snd (loop js r))) = quit.
Proof.
  revert r. induction js as [|i rest IH]; intros r Hj Hlen.
  { apply elem_of_nil in Hj. contradiction. }
  assert (Hrest : forall d, file_list r !! i = Some d -> j ∈ rest).
  { intros d Hd. apply elem_of_cons in Hj as [->|Hj]; [|exact Hj].
    apply lookup_lt_Some in Hd. lia. }
  destruct (entries_loop_step i rest r)
    as [(d & Ej & El & ->)
       |[(d & name & image_dict & g & Ej & El & Hm & Hq & ->)
        |[(d & name & image_dict & g & Ej & El & Hm & Hq & ->)
         |(o & r' & -> & Ho & _)]]].
  - apply IH; eauto.
  - apply IH; [eauto|]. cbn. rewrite length_insert. exact Hlen.
  - right. exact Hq.
  - left. exact Ho.
Qed.

Lemma base_img_name_run {S} (d : gmap string (@value F)) (s : S) :
  fst (base_img_name d s) = run_pure (base_img_name d).
Proof.
  unfold run_pure, base_img_name, field, as_str, bind, ret, raise.
  destruct (d !! "b") as [[]|]; try reflexivity.
  destruct (has d "cs"); [|destruct (has d "cg")];
    repeat match goal with
           | |- context [match ?x with _ => _ end] =>
               match x with
               | _ !! _ => destruct x as [[]|]
               end; try reflexivity
           end.
Qed.

Lemma finished_entry_is_passed (j : nat) (rest : list nat) (r : @run F) d :
  file_list r !! j = Some (Dict d) -> finished d ->
  loop (j :: rest) r = loop rest r.
Proof.
  intros Ej [(t & Ht & Hne) (name & Hname)].
  assert (El : eligible d = false).
  { unfold eligible. rewrite Ht. cbn [is_str].
    apply String.eqb_neq in Hne. rewrite Hne. reflexivity. }
  cbn [entries_loop]. unfold bind at 1, get. cbv beta. rewrite Ej.
  unfold bind at 1, ret at 1. unfold bind at 1, ret at 1. unfold bind at 1.
  rewrite (pure_run (base_img_name d) r)
    by (intros I; apply base_img_name_keeps).
  rewrite base_img_name_run, Hname, Ht, El. reflexivity.
Qed.

Lemma finished_entries_are_passed (n : nat) (r : @run F) :
  (forall j, (j < n)%nat ->
     exists d, file_list r !! j = Some (Dict d) /\ finished d) ->
  forall k, (k <= n)%nat -> loop (seq (n - k) k) r = (Ok tt, r).
Proof.
  intros H k. induction k as [|k IH]; intros Hk; [reflexivity|].
  cbn [seq]. destruct (H (n - S k)%nat ltac:(lia)) as (d & Ej & Hd).
  rewrite (finished_entry_is_passed _ _ _ _ Ej Hd).
  replace (S (n - S k)) with (n - k)%nat by lia. apply IH. lia.
Qed.

Lemma read_lines_all (name : string) (f : list (@line F))
    (ds : list (@entry F)) (r : @run F) :
  Forall2 (fun l e => evaluates l = Ok e) f ds ->
  read_lines name f r = (Ok (length f), set_file_list (file_list r ++ ds) r).
Proof.
  intros H. revert r. induction H as [|l e f ds Hl _ IH]; intros r.
  - cbn. rewrite app_nil_r. destruct r; reflexivity.
  - cbn [read_lines]. rewrite Hl. unfold bind at 1, modify at 1.
    unfold bind. rewrite IH. cbn. rewrite <- app_assoc. reflexivity.
Qed.

Abbreviation whole listed name f :=
  (main resize_shape arccos eval_input float_of_string listed name f
     files ui).

(** When 'tmp_out_file.txt' has been written in a run of [main], it
    holds the whole list of entries as it is when the run ends, however
    the run ends. *)
Theorem checkpoint_is_the_list listed name (f : list (@line F)) (r : @run F) :
  tmp_out_file r = None -> checkpointed (snd (whole listed name f r)).
Proof.
  intros Hr.
  assert (H0 : forall r : @run F, tmp_out_file r = None -> checkpointed r).
  { intros r0 H l Hl. congruence. }
  revert r Hr.
  change (establishes (fun r => tmp_out_file r = None)
            (whole listed name f) checkpointed).
  unfold main. destruct listed; [intros r Hr; apply H0, Hr|].
  apply establishes_bind with (R := fun r => tmp_out_file r = None).
  - apply (read_lines_leaves (fun r => tmp_out_file r = None)); auto.
  - exact H0.
  - intros n. apply establishes_bind with (R := checkpointed); auto.
    + intros r Hr. apply checkpoint_kept, H0, Hr.
    + intros _. apply establishes_of_preserves. keeps.
Qed.

(** When a line of the dictionary file is not decoded (SyntaxError),
    the run does not end normally unless the operator quits: the line is
    counted and the loop runs past the end of the list. *)
Theorem undecodable_line_spoils_the_run name (f : list (@line F))
    (r : @run F) (l : @line F) :
  file_list r = [] -> l ∈ f -> evaluates l = Raise SyntaxError ->
  fst (whole false name f r) <> Ok tt
  \/ mode (session (snd (whole false name f r))) = quit.
Proof.
  intros Hr Hl He.
  remember (whole false name f r) as x eqn:Hx.
  unfold main in Hx. unfold bind at 1 in Hx.
  destruct (read_lines name f r) as [[n|e|] r1] eqn:Hread;
    [|subst x; left; discriminate..].
  apply read_lines_counts in Hread as (-> & _ & Hlt).
  specialize (Hlt (ex_intro _ l (conj Hl He))). rewrite Hr in Hlt. cbn in Hlt.
  assert (H := past_the_end (seq 0 (length f)) r1 (length (file_list r1))).
  unfold bind at 1 in Hx.
  destruct (loop (seq 0 (length f)) r1) as [[[]|e|] r2];
    [|subst x; left; discriminate..].
  destruct H as [H|H]; [apply elem_of_seq; lia | lia | contradiction |].
  unfold bind, get in Hx. cbn in H, Hx.
  destruct (mode_bound r2); subst x; [right; exact H | left; discriminate].
Qed.

(** A dictionary file whose records all have a status other than
    'missing' is read and passed over without a window being opened, and
    the run ends with [NameError]: the global [mode], which the last
    test of [main] reads, has never been assigned. *)
Theorem finished_database_ends_in_NameError name (f : list (@line F))
    (ds : list (gmap string (@value F))) (r : @run F) :
  file_list r = [] -> mode_bound r = false ->
  Forall2 (fun l d => evaluates l = Ok (Dict d) /\ finished d) f ds ->
  whole false name f r = (Raise NameError, set_file_list (Dict <$> ds) r).
Proof.
  intros Hr Hb H. unfold main.
  assert (Hread : Forall2 (fun l e => evaluates l = Ok e) f (Dict <$> ds)).
  { apply Forall2_fmap_r. eapply Forall2_impl; [exact H|].
    intros l d [Hl _]. exact Hl. }
  rewrite (bind_eq _ _ _ _ _ (read_lines_all name f _ r Hread)).
  rewrite Hr. cbn [app].
  set (r1 := set_file_list (Dict <$> ds) r).
  assert (Hloop : loop (seq 0 (length f)) r1 = (Ok tt, r1)).
  { replace (seq 0 (length f)) with (seq (length f - length f) (length f))
      by (f_equal; lia).
    apply finished_entries_are_passed; [|lia].
    intros j Hj. rewrite (Forall2_length _ _ _ H) in Hj.
    destruct (lookup_lt_is_Some_2 ds j Hj) as [d Hd].
    exists d. split; [cbn; rewrite list_lookup_fmap, Hd; reflexivity|].
    destruct (Forall2_lookup_r _ _ _ _ _ H Hd) as (l & _ & _ & Hfin).
    exact Hfin. }
  rewrite (bind_eq _ _ _ _ _ Hloop). unfold bind, get. cbn. rewrite Hb.
  reflexivity.
Qed.

End Entries.

Lemma checkpoint_is_the_list_witness :
  checkpointed (snd (run_main [good_line])).
Proof. apply checkpoint_is_the_list. reflexivity. Defined.

Lemma undecodable_line_spoils_the_run_witness :
  fst (run_main [cut_line; good_line]) <> Ok tt
  \/ mode (session (snd (run_main [cut_line; good_line]))) = quit.
Proof.
  apply (undecodable_line_spoils_the_run _ _ _ _ _ _ _ _ _ cut_line).
  - reflexivity.
  - apply elem_of_cons. left. reflexivity.
  - reflexivity.
Defined.

Lemma finished_database_ends_in_NameError_witness :
  main cv2_resize_shape (fun x => x) decimal_input float_decimal
    false "dicts.txt" [done_line; done_line]
    (fun _ => Some (1000, 2000)) (fun _ => []) fresh_run
  = (Raise NameError,
     set_file_list (Dict <$> [done_record; done_record]) fresh_run).
Proof.
  apply finished_database_ends_in_NameError; [reflexivity..|].
  assert (Hd : finished done_record).
  { split.
    - exists "none". split; [vm_compute; reflexivity | discriminate].
    - eexists. vm_compute. reflexivity. }
  do 2 (constructor; [split; [reflexivity|exact Hd]|]). constructor.
Defined.

(** ** The counters stay in range *)

#[export] Hint Extern 1 (preserves (on_counters _) (modify _)) =>
  apply preserves_modify; let H := fresh in intros ? H; exact H : keeps.

Section Counters.
Context {F : Type} {PF : PyFloat F}.

Lemma getitem_any (I : @globals F -> Prop) k : preserves I (getitem k).
Proof. unfold getitem. keeps. Qed.

Lemma getpoint_any (I : @globals F -> Prop) k : preserves I (getpoint k).
Proof. unfold getpoint. keeps. Qed.

Lemma setitem_counters J k (v : @value F) :
  preserves (on_counters J) (setitem k v).
Proof. apply preserves_modify. intros s H. exact H. Qed.

Hint Resolve getitem_any getpoint_any setitem_counters : keeps.

Lemma annotate_box_counters J x y :
  preserves (on_counters (F := F) J) (annotate_box x y).
Proof. unfold annotate_box. keeps. Qed.

Lemma annotate_scale_bar_in_range w h :
  preserves (on_counters (F := F) in_range) (annotate_scale_bar w h).
Proof.
  intros s (Hn & Hb & H4). unfold annotate_scale_bar, bind, get, setitem, modify.
  destruct (sb_ends s =? 1) eqn:E1; [apply Z.eqb_eq in E1|];
    [|destruct (sb_ends s =? 2)];
    cbv [on_counters in_range snd ret set_sb_ends set_image_data mode points
         sb_ends] in *;
    destruct s; cbn in *; repeat split; try tauto; try lia.
Qed.

Lemma incr_points_moved (s : @globals F) :
  establishes (on_counters (F := F) (moved s 0)) incr_points
    (on_counters (moved s 1)).
Proof.
  unfold establishes, on_counters, moved, incr_points, modify. cbn.
  intros t (Hm & Hn & Hb). repeat split; auto; lia.
Qed.

Ltac moves s :=
  repeat first
    [ intros t Ht; right; revert t Ht; apply incr_points_moved
    | apply establishes_bind with (R := on_counters (moved s 1));
        [ apply incr_points_moved | intros ? ?; right; assumption
        | intros ?; intros t Ht; right; revert t Ht;
          apply establishes_of_preserves; solve [keeps] ]
    | apply establishes_bind with (R := on_counters (moved s 0));
        [ apply establishes_of_preserves; solve [keeps]
        | intros ? ?; left; assumption | intros ? ]
    | intros t Ht; left; revert t Ht; apply establishes_of_preserves;
      solve [keeps] ].

Lemma annotate_points_in_range w h :
  preserves (on_counters (F := F) in_range) (annotate_points w h).
Proof.
  intros s (Hn & Hb & H4).
  assert (Step : forall (m : PyM globals unit),
            establishes (on_counters (moved s 0)) m
              (fun t => on_counters (moved s 0) t
                        \/ on_counters (moved s 1) t) ->
            (1 <= points s <= 4 \/ (5 <= points s <= 8 /\ mode s = points8)) ->
            on_counters in_range (snd (m s))).
  { intros m Hm Hk.
    destruct (Hm s) as [(Em & En & Eb)|(Em & En & Eb)].
    - unfold on_counters, moved. repeat split; try reflexivity; lia.
    - unfold on_counters, in_range. rewrite Em, En, Eb.
      repeat split; try lia. intros E. specialize (H4 E). lia.
    - unfold on_counters, in_range. rewrite Em, En, Eb.
      repeat split; try lia. intros E. destruct Hk as [?|[_ Hk]]; [lia|].
      congruence. }
  unfold annotate_points. unfold bind at 1, get. cbv beta.
  destruct (points s =? 1) eqn:E1;
    [apply Z.eqb_eq in E1; apply Step; [|lia]|].
  { moves s. }
  destruct (points s =? 2) eqn:E2;
    [apply Z.eqb_eq in E2; apply Step; [|lia]|].
  { moves s. }
  destruct (points s =? 3) eqn:E3;
    [apply Z.eqb_eq in E3; apply Step; [|lia]|].
  { moves s. }
  destruct (points s =? 4) eqn:E4;
    [apply Z.eqb_eq in E4; apply Step; [|lia]|].
  { moves s. }
  destruct ((points s =? 5) && bool_decide (mode s = points8)) eqn:E5.
  { apply andb_prop in E5 as [E5 M]. apply Z.eqb_eq in E5.
    apply bool_decide_eq_true_1 in M.
    apply Step; [|right; split; [lia|exact M]]. moves s. }
  destruct ((points s =? 6) && bool_decide (mode s = points8)) eqn:E6.
  { apply andb_prop in E6 as [E6 M]. apply Z.eqb_eq in E6.
    apply bool_decide_eq_true_1 in M.
    apply Step; [|right; split; [lia|exact M]]. moves s. }
  destruct ((points s =? 7) && bool_decide (mode s = points8)) eqn:E7.
  { apply andb_prop in E7 as [E7 M]. apply Z.eqb_eq in E7.
    apply bool_decide_eq_true_1 in M.
    apply Step; [|right; split; [lia|exact M]]. moves s. }
  destruct ((points s =? 8) && bool_decide (mode s = points8)) eqn:E8.
  { apply andb_prop in E8 as [E8 M]. apply Z.eqb_eq in E8.
    apply bool_decide_eq_true_1 in M.
    apply Step; [|right; split; [lia|exact M]]. moves s. }
  cbv [on_counters in_range ret snd]. repeat split; try lia. exact H4.
Qed.

Lemma handle_key_in_range k :
  preserves (on_counters (F := F) in_range) (handle_key k).
Proof.
  intros s (Hn & Hb & H4). unfold handle_key, bind, modify, ret.
  repeat match goal with
         | |- context [if ?b then _ else _] => destruct b
         end;
    cbv [on_counters in_range snd set_mode set_points mode points sb_ends];
    destruct s; cbn in *; repeat split; try lia; try discriminate; auto.
Qed.

Section Loop.
Variable resize_shape : Z * Z -> @num F -> outcome (Z * Z).

Lemma annotate_image_in_range e x y :
  preserves (on_counters (F := F) in_range) (annotate_image e x y).
Proof.
  pose proof annotate_points_in_range. pose proof annotate_scale_bar_in_range.
  pose proof (annotate_box_counters in_range).
  unfold annotate_image. destruct e; keeps.
  apply preserves_modify. intros s (Hn & Hb & H4).
  repeat split; cbn; try lia. discriminate.
Qed.

Lemma inner_loop_in_range evs :
  preserves (on_counters (F := F) in_range) (inner_loop resize_shape evs).
Proof.
  induction evs as [|[e x y|k] evs IH]; simpl; keeps.
  - apply annotate_image_in_range.
  - apply handle_key_in_range.
Qed.

Lemma to_box_in_range {A} (k : PyM globals A) :
  preserves (on_counters (F := F) in_range) k ->
  preserves (on_counters in_range) (modify (set_mode box) ;; k).
Proof.
  intros Hk s (Hn & Hb & H4). unfold bind at 1, modify. simpl. apply Hk.
  repeat split; cbn; try lia. discriminate.
Qed.

Lemma click_loop_in_range windows :
  preserves (on_counters (F := F) in_range) (click_loop resize_shape windows).
Proof.
  induction windows as [|evs rest IH]; simpl.
  - apply preserves_bind; [apply (inner_loop_in_range []) | intros _; keeps].
  - apply preserves_bind; [apply inner_loop_in_range | intros _].
    apply preserves_bind; [keeps | intros s].
    destruct (img s) as [img_h img_w].
    destruct (mode s); try solve [keeps].
    + apply preserves_bind; [keeps | intros [[[a b] c] d]].
      do 2 (apply preserves_bind; [keeps | intros _]).
      apply to_box_in_range, IH.
    + do 2 (apply preserves_bind; [keeps | intros _]).
      apply to_box_in_range, IH.
    + do 2 (apply preserves_bind; [keeps | intros _]).
      apply to_box_in_range.
      apply preserves_bind; [|intros _; keeps].
      apply preserves_modify. intros s0 (Hn & Hb & H4).
      repeat split; cbn; lia.
Qed.

(** However many windows are opened and whatever is clicked and
    pressed in them, when the clicks of an image have been taken the
    click counter is between 1 and 9 -- at most 5 in the four-point
    mode -- and the scale-bar counter is 1 or 2. *)
Theorem counters_stay_in_range shape windows (s : @globals F) :
  let s' := snd (collect_clicks resize_shape shape windows s) in
  1 <= points s' <= 9 /\ 1 <= sb_ends s' <= 2
  /\ (mode s' = points4 -> points s' <= 5).
Proof.
  cbv zeta.
  change (on_counters in_range
            (snd (collect_clicks resize_shape shape windows s))).
  unfold collect_clicks. destruct shape as [img_h img_w].
  unfold bind at 1 2 3 4 5, modify at 1 2 3 4 5. cbv beta iota.
  match goal with
  | |- on_counters _ (snd (bind ?m ?k ?t)) =>
      apply (preserves_bind (on_counters in_range) m k)
  end.
  - keeps.
  - intros _. keeps. apply click_loop_in_range.
  - repeat split; cbn; lia || discriminate.
Qed.

End Loop.
End Counters.

(** ** What a session leaves in the dictionary *)

Section Session.
Context {F : Type} {PF : PyFloat F}.

Lemma pure_Ok {S A} (m : PyM S A) (s s' : S) (a : A) :
  (forall I, preserves I m) -> m s = (Ok a, s') -> s' = s.
Proof. intros Hm H. rewrite (pure_run m s Hm) in H. congruence. Qed.

Lemma to_orig_Ok lo hi res c (s s' : @globals F) z :
  to_orig lo hi res c s = (Ok z, s') -> s' = s.
Proof. apply pure_Ok. intros I. apply to_orig_keeps. Qed.

(** The crop box that a second click in box mode records has its
    corners in order, whichever corner was clicked first: 'im_box_h1'
    is at most 'im_box_h2' and 'im_box_w1' at most 'im_box_w2'. *)
Theorem box_corners_are_ordered x y (s s' : @globals F) :
  px s <> -1 -> annotate_box x y s = (Ok tt, s') ->
  exists h1 h2 w1 w2,
    image_data s' !! "im_box_h1" = Some (Num (Int h1))
    /\ image_data s' !! "im_box_h2" = Some (Num (Int h2))
    /\ image_data s' !! "im_box_w1" = Some (Num (Int w1))
    /\ image_data s' !! "im_box_w2" = Some (Num (Int w2))
    /\ h1 <= h2 /\ w1 <= w2.
Proof.
  intros Hpx H. unfold annotate_box in H. unfold bind at 1, get in H.
  cbv beta in H. rewrite bool_decide_eq_true_2 in H by exact Hpx.
  apply bind_Ok in H as (a & s1 & H1 & H). apply to_orig_Ok in H1 as ->.
  apply bind_Ok in H as (b & s1 & H1 & H). apply to_orig_Ok in H1 as ->.
  apply bind_Ok in H as (c & s1 & H1 & H). apply to_orig_Ok in H1 as ->.
  apply bind_Ok in H as (d & s1 & H1 & H). apply to_orig_Ok in H1 as ->.
  unfold bind, setitem, modify in H.
  destruct (a <? c) eqn:Eh; [apply Z.ltb_lt in Eh|apply Z.ltb_ge in Eh];
    (destruct (b <? d) eqn:Ew; [apply Z.ltb_lt in Ew|apply Z.ltb_ge in Ew]);
    cbn in H; injection H as <-; cbn [image_data set_image_data];
    do 4 eexists;
    (split; [repeat (rewrite lookup_insert_ne by discriminate);
             apply lookup_insert_eq|]);
    (split; [repeat (rewrite lookup_insert_ne by discriminate);
             apply lookup_insert_eq|]);
    (split; [repeat (rewrite lookup_insert_ne by discriminate);
             apply lookup_insert_eq|]);
    (split; [repeat (rewrite lookup_insert_ne by discriminate);
             apply lookup_insert_eq|]); lia.
Qed.

(** An image that is not found gives the entry the status 'missing'
    without a question being asked, and an entry that was to be
    measured is still to be measured after the merge: the next run asks
    for its image again. *)
Theorem missing_image_is_asked_again
    (resize_shape : Z * Z -> @num F -> outcome (Z * Z)) (arccos : F -> F)
    (eval_input : string -> outcome (@num F))
    (float_of_string : string -> option (@num F))
    (windows : list (list event)) (s : @globals F)
    (d : gmap string (@value F)) :
  eligible d = true ->
  exists s',
    process_one_image resize_shape arccos eval_input float_of_string
      None windows s
    = (Ok {[ "im_status" := Str "missing" ]}, s')
    /\ stdin s' = stdin s /\ mode s' = next
    /\ eligible (update d {[ "im_status" := Str "missing" ]}) = true.
Proof.
  intros Hd. eexists. split; [|split; [|split]].
  - unfold process_one_image, bind, modify, setitem, gets. cbn.
    rewrite insert_empty. reflexivity.
  - reflexivity.
  - reflexivity.
  - unfold eligible, update, has in *.
    rewrite (lookup_union_Some_l _ _ _ (Str "missing"))
      by apply lookup_singleton_eq.
    rewrite !(lookup_union_r {[ "im_status" := Str "missing" ]})
      by (apply lookup_singleton_ne; discriminate).
    apply andb_prop in Hd as [Hd Hi]. apply andb_prop in Hd as [_ Hp].
    rewrite Hp, Hi. reflexivity.
Qed.

Lemma returns_reviewed_bind {A} (m : PyM globals A)
    (k : A -> PyM globals (gmap string (@value F))) :
  (forall a, returns_reviewed (k a)) -> returns_reviewed (bind m k).
Proof.
  intros Hk s d s' H. apply bind_Ok in H as (a & s1 & _ & H).
  eapply Hk, H.
Qed.

Lemma getitem_Ok k (s s' : @globals F) v :
  getitem k s = (Ok v, s') -> s' = s /\ image_data s !! k = Some v.
Proof.
  unfold getitem, bind, get, ret, raise.
  destruct (image_data s !! k); intros H; [|discriminate].
  injection H as <- <-. auto.
Qed.

Lemma review_reviewed (float_of_string : string -> option (@num F)) :
  returns_reviewed (review float_of_string).
Proof.
  intros s d s' H. unfold review in H. unfold bind at 1, get in H.
  cbv beta in H. destruct (is_empty (image_data s)) eqn:E.
  - right; left. unfold is_empty in E. apply bool_decide_eq_true_1 in E.
    apply dom_empty_iff_L in E.
    unfold bind, setitem, modify, gets in H. cbn in H. injection H as <- _.
    rewrite E. apply insert_empty.
  - match type of H with
    | ?m s = _ => cut (returns_reviewed m); [intros Hm; exact (Hm _ _ _ H)|]
    end.
    clear. repeat (apply returns_reviewed_bind; intros ?).
    intros s1 d s' H.
    match type of H with
    | (if ?b then _ else _) _ = _ => destruct b
    end.
    + left. unfold bind, modify, gets in H. cbn in H. congruence.
    + do 3 right.
      apply bind_Ok in H as (v1 & t & H1 & H). apply getitem_Ok in H1 as [-> H1].
      apply bind_Ok in H as (v2 & t & H2 & H). apply getitem_Ok in H2 as [-> H2].
      apply bind_Ok in H as (v3 & t & H3 & H). apply getitem_Ok in H3 as [-> H3].
      apply bind_Ok in H as (v4 & t & H4 & H). apply getitem_Ok in H4 as [-> H4].
      unfold gets in H. injection H as <- _.
      repeat split; eauto.
Qed.

(** A session that returns, returns nothing (the operator did not
    confirm), the bare status 'none' or 'missing', or a dictionary with
    the four sides of a crop box: measurements are never returned
    without a box. *)
Theorem measurements_come_with_a_box
    (resize_shape : Z * Z -> @num F -> outcome (Z * Z)) (arccos : F -> F)
    (eval_input : string -> outcome (@num F))
    (float_of_string : string -> option (@num F))
    (file : option (Z * Z)) (windows : list (list event))
    (s s' : @globals F) (d : gmap string (@value F)) :
  process_one_image resize_shape arccos eval_input float_of_string
    file windows s = (Ok d, s') ->
  d = ∅ \/ d = {[ "im_status" := Str "none" ]}
  \/ d = {[ "im_status" := Str "missing" ]} \/ with_box d.
Proof.
  intros H. unfold process_one_image in H.
  apply bind_Ok in H as ([] & s1 & H1 & H). destruct file as [shape|].
  - apply bind_Ok in H as ([] & s2 & _ & H).
    apply bind_Ok in H as ([] & s3 & _ & H).
    exact (review_reviewed _ _ _ _ H).
  - right; right; left. injection H1 as <-.
    unfold bind, modify, setitem, gets in H. cbn in H. injection H as <- _.
    apply insert_empty.
Qed.

End Session.

Lemma box_corners_are_ordered_witness :
  exists h1 h2 w1 w2,
    image_data (snd (annotate_box 50 60 (clicked [[Mouse LBUTTONUP 10 10]])))
      !! "im_box_h1" = Some (Num (Int h1))
    /\ image_data (snd (annotate_box 50 60 (clicked [[Mouse LBUTTONUP 10 10]])))
         !! "im_box_h2" = Some (Num (Int h2))
    /\ image_data (snd (annotate_box 50 60 (clicked [[Mouse LBUTTONUP 10 10]])))
         !! "im_box_w1" = Some (Num (Int w1))
    /\ image_data (snd (annotate_box 50 60 (clicked [[Mouse LBUTTONUP 10 10]])))
         !! "im_box_w2" = Some (Num (Int w2))
    /\ h1 <= h2 /\ w1 <= w2.
Proof.
  apply (box_corners_are_ordered 50 60 (clicked [[Mouse LBUTTONUP 10 10]])).
  - vm_compute. discriminate.
  - vm_compute. reflexivity.
Defined.

Lemma missing_image_is_asked_again_witness :
  exists s',
    process_one_image cv2_resize_shape (fun x => x) decimal_input float_decimal
      None [] (blank [])
    = (Ok {[ "im_status" := Str "missing" ]}, s')
    /\ stdin s' = stdin (blank []) /\ mode s' = next
    /\ eligible (update a_record {[ "im_status" := Str "missing" ]}) = true.
Proof.
  apply (missing_image_is_asked_again cv2_resize_shape (fun x => x)
           decimal_input float_decimal [] (blank []) a_record).
  vm_compute. reflexivity.
Defined.

Lemma measurements_come_with_a_box_witness :
  box_dict = ∅ \/ box_dict = {[ "im_status" := Str "none" ]}
  \/ box_dict = {[ "im_status" := Str "missing" ]} \/ with_box box_dict.
Proof.
  apply (measurements_come_with_a_box cv2_resize_shape (fun x => x)
           decimal_input float_decimal (Some (1000, 2000))
           [[Mouse LBUTTONUP 10 10; Mouse LBUTTONUP 50 60; Key 110]]
           (blank ["s"; "n"; "n"; "n"; "n"; "y"]) (snd box_session)).
  vm_compute. reflexivity.
Defined.

(** ** The scale, in exact arithmetic *)

Lemma py_div_Ok {S} (x : R) (b q : @num R) (s s' : S) :
  py_div (Flt x) b s = (Ok q, s') ->
  s' = s /\ to_float b <> 0%R /\ q = Flt (x / to_float b)%R.
Proof.
  unfold py_div. cbn [to_float R_float feqb of_int fquot].
  unfold R_eqb. intros H.
  destruct b as [z|y]; cbn [to_float R_float of_int] in *;
    match type of H with
    | context [Req_dec_T ?a ?b] => destruct (Req_dec_T a b) as [E|E]
    end; try discriminate; injection H as <- <-; auto.
Qed.

(** In exact arithmetic, when the scale is calculated the three entries
    it stores agree: the length of the bar in pixels is not zero, and
    'im_mm_per_px' times 'im_sb_length_px' is 'im_sb_length_mm'. *)
Theorem scale_times_pixels_is_length
    (eval_input : string -> outcome (@num R)) (s s' : @globals R)
    (mm_per_px : @num R) :
  calculate_scaling eval_input s = (Ok (Some mm_per_px), s') ->
  exists mm px : R,
    image_data s' !! "im_sb_length_mm" = Some (Num (Flt mm))
    /\ image_data s' !! "im_sb_length_px" = Some (Num (Flt px))
    /\ image_data s' !! "im_mm_per_px" = Some (Num mm_per_px)
    /\ px <> 0%R /\ (to_float mm_per_px * px = mm)%R.
Proof.
  intros H. unfold calculate_scaling in H.
  apply bind_Ok in H as (sb1 & s1 & _ & H). destruct sb1; [|discriminate].
  apply bind_Ok in H as (sb2 & s2 & _ & H). destruct sb2; [|discriminate].
  apply bind_Ok in H as (units & s3 & _ & H).
  apply bind_Ok in H as (typed & s4 & _ & H).
  apply bind_Ok in H as (reported & s5 & _ & H).
  apply bind_Ok in H as (adjusted & s6 & Ha & H).
  assert (Hadj : exists mm, adjusted = Flt mm).
  { unfold py_float in Ha. destruct (String.eqb units "u").
    - apply py_div_Ok in Ha as (_ & _ & ->). eauto.
    - injection Ha as <- _. eauto. }
  destruct Hadj as [mm ->].
  apply bind_Ok in H as ([] & s7 & H7 & H).
  apply bind_Ok in H as (e1 & s8 & H8 & H).
  apply pure_Ok in H8 as ->; [|intros I; apply getpoint_any].
  apply bind_Ok in H as (e2 & s8 & H8 & H).
  apply pure_Ok in H8 as ->; [|intros I; apply getpoint_any].
  apply bind_Ok in H as (q & s8 & H8 & H).
  apply py_div_Ok in H8 as (-> & Hpx & ->).
  unfold setitem, modify in H7. injection H7 as <-.
  unfold bind, setitem, modify, ret in H. cbn in H. injection H as <- <-.
  unfold distance, py_pow_half in *. cbn [to_float] in *.
  eexists mm, _. cbn [image_data set_image_data].
  split; [repeat (rewrite lookup_insert_ne by discriminate);
          apply lookup_insert_eq|].
  split; [repeat (rewrite lookup_insert_ne by discriminate);
          apply lookup_insert_eq|].
  split; [repeat (rewrite lookup_insert_ne by discriminate);
          apply lookup_insert_eq|].
  split; [exact Hpx|]. cbn [to_float fsqrt R_float] in *. field. exact Hpx.
Qed.

Section Scaling.
Variable eval_input : string -> outcome (@num R).
Variable s : @globals R.
Variables (x1 y1 x2 y2 : Z) (units typed : string) (rest : list string).
Variable n : @num R.
Hypothesis H1 : image_data s !! "im_p_scale_bar_1" = Some (click x1 y1).
Hypothesis H2 : image_data s !! "im_p_scale_bar_2" = Some (click x2 y2).
Hypothesis Hin : stdin s = units :: typed :: rest.
Hypothesis Hu : one_of ["u"; "m"] units = true.
Hypothesis Hn : eval_input typed = Ok n.

Let mm : R :=
  if String.eqb units "u" then (to_float n / (10000 / 10))%R else to_float n.
Let px : R :=
  sqrt (IZR ((x2 - x1) * (x2 - x1) + (y2 - y1) * (y2 - y1))).
Let s1 : @globals R :=
  set_image_data (<["im_sb_length_mm" := Num (Flt mm)]> (image_data s))
    (set_stdin rest s).

(** The scale of a bar with the two ends [(x1, y1)], [(x2, y2)], when
    the operator types the unit and a length at once. *)
Lemma calculate_scaling_exact :
  calculate_scaling eval_input s
  = if R_eqb px 0 then (Raise ZeroDivisionError, s1)
    else (Ok (Some (Flt (mm / px)%R)),
          set_image_data
            (<["im_sb_length_px" := Num (Flt px)]>
               (<["im_mm_per_px" := Num (Flt (mm / px)%R)]> (image_data s1)))
            s1).
Proof.
  unfold calculate_scaling.
  unfold bind at 1, contains at 1, gets at 1.
  rewrite bool_decide_eq_true_2 by (rewrite H1; eauto).
  unfold bind at 1, contains at 1, gets at 1.
  rewrite bool_decide_eq_true_2 by (rewrite H2; eauto).
  unfold bind at 1, ask at 1. rewrite Hin. cbn [ask_from]. rewrite Hu.
  unfold bind at 1, raw_input at 1. cbn [stdin set_stdin].
  unfold bind at 1. rewrite Hn.
  assert (D : (10000 / 10 <> 0)%R) by lra.
  assert (Ha : forall t : @globals R,
            (if String.eqb units "u"
             then py_div (py_float n) (dec 10000 1)
             else ret (py_float n)) t = (Ok (Flt mm), t)).
  { intros t. unfold mm, py_float, dec. change (10 ^ Z.of_nat 1) with 10.
    cbn [of_int fquot R_float].
    destruct (String.eqb units "u");
      [rewrite py_div_flt by exact D|]; reflexivity. }
  unfold bind at 1. rewrite Ha.
  unfold bind at 1, setitem at 1, modify at 1.
  cbn [image_data set_stdin].
  change (set_stdin rest (set_stdin (typed :: rest) s)) with (set_stdin rest s).
  fold s1.
  assert (G1 : image_data s1 !! "im_p_scale_bar_1" = Some (click x1 y1))
    by (unfold s1; cbn; rewrite lookup_insert_ne by discriminate; exact H1).
  assert (G2 : image_data s1 !! "im_p_scale_bar_2" = Some (click x2 y2))
    by (unfold s1; cbn; rewrite lookup_insert_ne by discriminate; exact H2).
  unfold bind at 1. rewrite (getpoint_some _ _ _ _ G1).
  unfold bind at 1. rewrite (getpoint_some _ _ _ _ G2).
  unfold distance, py_pow_half, py_sq.
  cbn [fst snd py_sub py_add py_mul to_float fsqrt of_int R_float].
  fold px. unfold bind at 1, py_div.
  cbn [to_float feqb of_int fquot R_float].
  destruct (R_eqb px 0); reflexivity.
Qed.

End Scaling.

(** A scale bar whose two ends are on the same pixel ends the session
    with [ZeroDivisionError], after the operator has typed its
    length. *)
Theorem scale_bar_without_length_raises
    (eval_input : string -> outcome (@num R)) (s : @globals R)
    (x y : Z) (units typed : string) (rest : list string) (n : @num R) :
  image_data s !! "im_p_scale_bar_1" = Some (click x y) ->
  image_data s !! "im_p_scale_bar_2" = Some (click x y) ->
  stdin s = units :: typed :: rest ->
  one_of ["u"; "m"] units = true ->
  eval_input typed = Ok n ->
  fst (calculate_scaling eval_input s) = Raise ZeroDivisionError
  /\ stdin (snd (calculate_scaling eval_input s)) = rest.
Proof.
  intros H1 H2 Hin Hu Hn.
  rewrite (calculate_scaling_exact eval_input s x y x y units typed rest n)
    by assumption.
  replace ((x - x) * (x - x) + (y - y) * (y - y)) with 0 by ring.
  rewrite sqrt_0, R_eqb_true by reflexivity. split; reflexivity.
Qed.

Lemma scale_bar_without_length_raises_witness :
  fst (calculate_scaling (fun _ => Ok (Int 2)) dot_session)
  = Raise ZeroDivisionError
  /\ stdin (snd (calculate_scaling (fun _ => Ok (Int 2)) dot_session)) = [].
Proof.
  apply (scale_bar_without_length_raises _ _ 3 4 "u" "2" [] (Int 2));
    reflexivity.
Defined.

Lemma scale_times_pixels_is_length_witness :
  exists mm px : R,
    image_data (snd (calculate_scaling (fun _ => Ok (Int 2)) bar_session))
      !! "im_sb_length_mm" = Some (Num (Flt mm))
    /\ image_data (snd (calculate_scaling (fun _ => Ok (Int 2)) bar_session))
         !! "im_sb_length_px" = Some (Num (Flt px))
    /\ image_data (snd (calculate_scaling (fun _ => Ok (Int 2)) bar_session))
         !! "im_mm_per_px"
       = Some (Num (Flt (2 / (10000 / 10)
                         / sqrt (IZR ((3 - 0) * (3 - 0) + (4 - 0) * (4 - 0))))%R))
    /\ px <> 0%R
    /\ (2 / (10000 / 10)
          / sqrt (IZR ((3 - 0) * (3 - 0) + (4 - 0) * (4 - 0))) * px = mm)%R.
Proof.
  apply (scale_times_pixels_is_length (fun _ => Ok (Int 2)) bar_session).
  rewrite (calculate_scaling_exact _ bar_session 0 0 3 4 "u" "2" [] (Int 2))
    by reflexivity.
  assert (E : R_eqb (sqrt (IZR ((3 - 0) * (3 - 0) + (4 - 0) * (4 - 0)))) 0
              = false).
  { apply R_eqb_false. apply Rgt_not_eq, sqrt_lt_R0.
    change ((3 - 0) * (3 - 0) + (4 - 0) * (4 - 0)) with 25. lra. }
  rewrite E. reflexivity.
Defined.

(** ** The markers, in exact arithmetic *)

Lemma R_trunc_pos (x : R) : (1 <= x)%R -> 1 <= R_trunc x.
Proof.
  intros Hx. destruct (R_trunc_bounds x ltac:(lra)) as [_ [_ H]].
  assert (H0 : (IZR 0 < IZR (R_trunc x))%R) by lra.
  apply lt_IZR in H0. lia.
Qed.

(** In exact arithmetic [draw_dot] draws, for every size -- also zero,
    which a view less than 50 pixels wide gives -- a black disc and on
    it a coloured disc of radius at least 1 and not larger, then the
    label in black and on it in colour, at the same place, in strokes at
    least 1 thick, the black ones thicker. *)
Theorem marker_is_never_empty {S} (x y : Z) (text : string)
    (color : Z * Z * Z) (size : Z) (s : S) :
  exists (r o t u : Z) (scale : @num R),
    draw_dot x y text color size s
    = (Ok [ circle (x, y) (r + o) (0, 0, 0) (-1);
            circle (x, y) r color (-1);
            putText text (x + t * 5, y + t * 6) (0, 0, 0) scale (t + u);
            putText text (x + t * 5, y + t * 6) color scale t ], s)
    /\ 1 <= r /\ 0 <= o /\ 1 <= t /\ 1 <= u.
Proof.
  unfold draw_dot, dec.
  change (10 ^ Z.of_nat 1) with 10. cbn [of_int fquot R_float].
  assert (D : (100 / 10 <> 0)%R) by lra.
  rewrite (bind_eq _ _ _ _ _ (py_div_flt _ _ _ D)).
  cbn [to_float of_int R_float py_lt fltb].
  set (ts := (IZR size / (100 / 10))%R).
  assert (Hts : exists (sc : @num R) (t : Z),
            (if R_ltb ts 1 then Int 1 else Flt ts) = sc
            /\ (forall s : S, py_int sc s = (Ok t, s)) /\ 1 <= t
            /\ (0 <= to_float sc * (5 / 10))%R).
  { unfold R_ltb. destruct (Rlt_dec ts 1) as [Hlt|Hge].
    - exists (Int 1), 1. repeat split; [lia|]. cbn. lra.
    - exists (Flt ts), (R_trunc ts). repeat split.
      + apply R_trunc_pos. lra.
      + cbn. nra. }
  destruct Hts as (sc & t & -> & Ht & Ht1 & Hhalf).
  rewrite (bind_eq _ _ _ _ _ (Ht s)).
  assert (Hmul : forall (a : @num R) (d : R), py_mul a (Flt d) = Flt (to_float a * d)%R)
    by (intros [z|f] d; reflexivity).
  rewrite !Hmul. cbn [py_int to_int R_float to_float of_int].
  unfold bind at 1, ret at 1.
  unfold bind at 1, ret at 1.
  set (r0 := R_trunc (IZR size * (2 / 10))).
  set (r := if r0 <? 1 then 1 else r0).
  assert (Hr : 1 <= r) by (unfold r; destruct (r0 <? 1) eqn:E;
                           [lia|apply Z.ltb_ge in E; exact E]).
  unfold bind at 1, ret at 1.
  exists r, (R_trunc (IZR r * (3 / 10))), t, (1 + R_trunc (to_float sc * (5 / 10))), sc.
  split; [reflexivity|]. split; [exact Hr|].
  assert (Hr' : (1 <= IZR r)%R) by (apply IZR_le; exact Hr).
  split; [apply R_trunc_bounds; nra|]. split; [exact Ht1|].
  pose proof (proj1 (R_trunc_bounds _ Hhalf)). lia.
Qed.

(** * The pages *)

Lemma length_append (s t : string) :
  String.length (s +:+ t) = (String.length s + String.length t)%nat.
Proof.
  induction s as [|a s IH]; [reflexivity|].
  change (String a s +:+ t) with (String a (s +:+ t)).
  cbn [String.length]. rewrite IH. reflexivity.
Qed.

Lemma substring_all (s : string) : String.substring 0 (String.length s) s = s.
Proof.
  induction s as [|a s IH]; [reflexivity|].
  cbn [String.length String.substring]. rewrite IH. reflexivity.
Qed.

Lemma substring_tail (s t : string) :
  String.substring (String.length s) (String.length t) (s +:+ t) = t.
Proof.
  induction s as [|a s IH]; [apply substring_all|].
  change (String a s +:+ t) with (String a (s +:+ t)).
  cbn [String.length String.substring]. exact IH.
Qed.

Lemma substring_head (s t : string) :
  String.substring 0 (String.length s) (s +:+ t) = s.
Proof.
  induction s as [|a s IH]; [destruct t; reflexivity|].
  change (String a s +:+ t) with (String a (s +:+ t)).
  cbn [String.length String.substring]. rewrite IH. reflexivity.
Qed.

Lemma append_assoc (s t u : string) : (s +:+ t) +:+ u = s +:+ t +:+ u.
Proof.
  induction s as [|a s IH]; [reflexivity|].
  change (String a ((s +:+ t) +:+ u) = String a (s +:+ t +:+ u)).
  rewrite IH. reflexivity.
Qed.

Lemma append_empty (s : string) : s +:+ "" = s.
Proof.
  induction s as [|a s IH]; [reflexivity|].
  change (String a (s +:+ "") = String a s). rewrite IH. reflexivity.
Qed.

Lemma last4_pdf (s : string) : last4 (s +:+ ".pdf") = ".pdf".
Proof.
  unfold last4. rewrite length_append. cbn [String.length].
  replace (String.length s + 4 - 4)%nat with (String.length s) by lia.
  apply (substring_tail s ".pdf").
Qed.

Lemma drop_last4_pdf (s : string) : drop_last4 (s +:+ ".pdf") = s.
Proof.
  unfold drop_last4. rewrite length_append. cbn [String.length].
  replace (String.length s + 4 - 4)%nat with (String.length s) by lia.
  apply substring_head.
Qed.

Lemma prefix_append (s t : string) : String.prefix s (s +:+ t) = true.
Proof. apply String.prefix_correct, substring_head. Qed.

Lemma is_in_append (n x y : string) : is_in n (x +:+ n +:+ y) = true.
Proof.
  induction x as [|a x IH].
  - change ("" +:+ n +:+ y) with (n +:+ y).
    destruct (n +:+ y) eqn:E; cbn [is_in]; rewrite <- E, prefix_append;
      reflexivity.
  - change (String a x +:+ n +:+ y) with (String a (x +:+ n +:+ y)).
    cbn [is_in]. rewrite IH. apply orb_true_r.
Qed.

Section PageNames.
Context {F : Type}.

(** The three scripts agree on the records and on the names: a page is
    extracted exactly for the records that [main] will open and that
    have a current genus, and for a record with a current genus the
    PDF written for it, converted by the second script, has the name of
    the PNG that [main] opens. *)
Theorem page_names_agree (d : gmap string (@value F)) :
  wanted d = eligible d && has d "cg"
  /\ (has d "cg" = true ->
      forall pdf, run_pure (out_name d) = Ok pdf ->
      exists name,
        run_pure (base_img_name d) = Ok name
        /\ pdf = name +:+ ".pdf"
        /\ last4 pdf = ".pdf"
        /\ pdf_base_name pdf = name +:+ ".png").
Proof.
  split.
  - unfold wanted, eligible.
    destruct (has d "i"), (has d "cg"),
      (match d !! "im_status" with Some v => is_str "missing" v | None => true end),
      (match d !! "problem" with
       | Some v => negb (is_str "no_taxonomy" v || is_str "no_name" v
                         || is_str "order" v)
       | None => true
       end); reflexivity.
  - intros Hcg pdf.
    assert (Hname : forall name,
              last4 (name +:+ ".pdf") = ".pdf"
              /\ pdf_base_name (name +:+ ".pdf") = name +:+ ".png").
    { intros name. unfold pdf_base_name.
      rewrite last4_pdf, drop_last4_pdf. auto. }
    unfold run_pure, out_name, base_img_name, field, as_str, bind, ret, raise.
    rewrite Hcg.
    destruct (has d "cs");
      repeat match goal with
             | |- context [match ?x with _ => _ end] =>
                 match x with
                 | _ !! _ => destruct x as [[]|]
                 end; cbn [fst]; try discriminate
             end;
      intros [= <-]; eexists; (split; [reflexivity|]);
      rewrite <- ?append_assoc;
      (split; [reflexivity|]); apply Hname.
Qed.

End PageNames.

Lemma page_names_agree_witness :
  wanted (<["cg" := Str "Drosophila"]> a_record)
  = eligible (<["cg" := Str "Drosophila"]> a_record)
    && has (<["cg" := Str "Drosophila"]> a_record) "cg"
  /\ exists name,
       run_pure (base_img_name (<["cg" := Str "Drosophila"]> a_record))
       = Ok name
       /\ "1234_Drosophila_ID7.pdf" = name +:+ ".pdf"
       /\ last4 "1234_Drosophila_ID7.pdf" = ".pdf"
       /\ pdf_base_name "1234_Drosophila_ID7.pdf" = name +:+ ".png".
Proof.
  destruct (page_names_agree (<["cg" := Str "Drosophila"]> a_record))
    as [H1 H2].
  split; [exact H1|]. apply H2; vm_compute; reflexivity.
Defined.

(** The PDF of a record is the first path that contains the bibid
    followed by '.pdf': the file of a longer bibid that ends in this one
    is taken when it comes first. *)
Theorem find_pdf_takes_a_longer_bibid (b x dir : string)
    (before rest : list string) :
  Forall (fun q => is_in (b +:+ ".pdf") q = false) before ->
  find_pdf b (before ++ (dir +:+ x +:+ b +:+ ".pdf") :: rest)
  = Some (dir +:+ x +:+ b +:+ ".pdf").
Proof.
  intros H. induction H as [|q before Hq _ IH]; cbn [app find_pdf].
  - replace (dir +:+ x +:+ b +:+ ".pdf")
      with ((dir +:+ x) +:+ (b +:+ ".pdf") +:+ "") at 1
      by (rewrite append_empty, append_assoc; reflexivity).
    rewrite is_in_append. reflexivity.
  - rewrite Hq. exact IH.
Qed.

Lemma find_pdf_takes_a_longer_bibid_witness :
  find_pdf "12" ["/pdfs/Diptera/312.pdf"; "/pdfs/Diptera/12.pdf"]
  = Some "/pdfs/Diptera/312.pdf".
Proof.
  apply (find_pdf_takes_a_longer_bibid "12" "3" "/pdfs/Diptera/" []).
  constructor.
Defined.

(** ** Converting the pages *)

Lemma save_keeps name (files : list string) f : f ∈ files -> f ∈ save name files.
Proof.
  intros H. unfold save. destruct (bool_decide (name ∈ files)); [exact H|].
  apply elem_of_app. left. exact H.
Qed.

Lemma save_has name (files : list string) : name ∈ save name files.
Proof.
  unfold save. destruct (bool_decide (name ∈ files)) eqn:E.
  - apply bool_decide_eq_true_1 in E. exact E.
  - apply elem_of_app. right. apply elem_of_cons. left. reflexivity.
Qed.

Lemma convert_all_done render (output_dir_files input_dir_files : list string)
    (s s' : list string) :
  convert_all render output_dir_files input_dir_files s = (Ok tt, s') ->
  (forall f, f ∈ s -> f ∈ s')
  /\ forall pdf, pdf ∈ input_dir_files -> last4 pdf = ".pdf" ->
       pdf_base_name pdf ∈ output_dir_files \/ pdf_base_name pdf ∈ s'.
Proof.
  revert s. induction input_dir_files as [|pdf rest IH]; intros s H.
  - injection H as <-. split; [auto|]. intros pdf Hin.
    apply elem_of_nil in Hin. contradiction.
  - cbn [convert_all] in H. apply bind_Ok in H as ([] & s1 & H1 & H).
    apply IH in H as [Hsub Hall].
    assert (Hs1 : (forall f, f ∈ s -> f ∈ s1)
                  /\ (last4 pdf = ".pdf" ->
                      pdf_base_name pdf ∈ output_dir_files
                      \/ pdf_base_name pdf ∈ s1)).
    { destruct (String.eqb (last4 pdf) ".pdf") eqn:E.
      - destruct (bool_decide (pdf_base_name pdf ∈ output_dir_files)) eqn:E1.
        + injection H1 as <-. apply bool_decide_eq_true_1 in E1. auto.
        + apply bind_Ok in H1 as ([] & s0 & H0 & H1).
          injection H0 as _ <-. injection H1 as <-.
          split; [intros f; apply save_keeps|].
          intros _. right. apply save_has.
      - injection H1 as <-. split; [auto|].
        intros E'. apply String.eqb_neq in E. contradiction. }
    destruct Hs1 as [Hs Hpdf]. split; [auto|].
    intros p Hp Hl. apply elem_of_cons in Hp as [->|Hp]; [|auto].
    destruct (Hpdf Hl); auto.
Qed.

Lemma convert_all_nothing render (output_dir_files input_dir_files : list string)
    (s : list string) :
  (forall pdf, pdf ∈ input_dir_files -> last4 pdf = ".pdf" ->
     pdf_base_name pdf ∈ output_dir_files) ->
  convert_all render output_dir_files input_dir_files s = (Ok tt, s).
Proof.
  induction input_dir_files as [|pdf rest IH]; intros H; [reflexivity|].
  cbn [convert_all].
  assert (E : (if String.eqb (last4 pdf) ".pdf"
               then if bool_decide (pdf_base_name pdf ∈ output_dir_files)
                    then ret tt
                    else (fun s => (render pdf, s)) ;;
                         modify (save (pdf_base_name pdf))
               else ret tt) s = (Ok tt, s)).
  { destruct (String.eqb (last4 pdf) ".pdf") eqn:E; [|reflexivity].
    apply String.eqb_eq in E.
    rewrite bool_decide_eq_true_2; [reflexivity|].
    apply H; [apply elem_of_cons; auto | exact E]. }
  rewrite (bind_eq _ _ _ _ _ E). apply IH.
  intros p Hp. apply H. apply elem_of_cons. auto.
Qed.

(** When the conversion of a directory has been completed, running the
    script again on the same directory converts nothing: it does not
    open a single PDF and leaves the output directory as it is. *)
Theorem second_conversion_does_nothing (render render' : string -> outcome unit)
    (input_dir_files s s' : list string) :
  make_single_page_PNGs render input_dir_files s = (Ok tt, s') ->
  make_single_page_PNGs render' input_dir_files s' = (Ok tt, s').
Proof.
  unfold make_single_page_PNGs, bind, get. intros H.
  apply convert_all_done in H as [Hsub Hall].
  apply convert_all_nothing. intros pdf Hp Hl.
  destruct (Hall pdf Hp Hl); auto.
Qed.

Lemma second_conversion_does_nothing_witness :
  make_single_page_PNGs (fun _ => Raise Cv2Error)
    ["1234_Drosophila_ID7.pdf"; "notes.txt"]
    ["1234_Drosophila_ID7.png"]
  = (Ok tt, ["1234_Drosophila_ID7.png"]).
Proof.
  apply (second_conversion_does_nothing (fun _ => Ok tt) _ _ []).
  vm_compute. reflexivity.
Defined.

(** ** The asymmetry, in exact arithmetic *)

Lemma setitem_other {F} (k k' : string) (v v' : @value F) :
  k <> k' -> preserves (holds k v) (setitem k' v').
Proof.
  intros Hne. apply preserves_modify. intros s Hs. unfold holds in *. cbn.
  rewrite lookup_insert_ne by congruence. exact Hs.
Qed.

#[export] Hint Extern 1 (preserves (holds _ _) (setitem _ _)) =>
  apply setitem_other; discriminate : keeps.
Lemma contains_any {F} (I : @globals F -> Prop) k : preserves I (contains k).
Proof. apply preserves_gets. Qed.

#[export] Hint Resolve getitem_any getpoint_any contains_any : keeps.

Lemma getpoint_Ok {F} k (s s' : @globals F) p :
  getpoint k s = (Ok p, s') -> s' = s.
Proof. apply pure_Ok. intros I. apply getpoint_any. Qed.

Lemma distance_flt (p q : @point R) : exists x, distance p q = Flt x /\ (0 <= x)%R.
Proof. eexists. split; [reflexivity|]. apply sqrt_pos. Qed.

(** In exact arithmetic, when the shape of an egg marked with eight
    points has been calculated, the asymmetry stored is at least 1, the
    longer quartile width over the shorter. *)
Theorem asymmetry_is_at_least_one (arccos : R -> R)
    (mm_per_px : option (@num R)) (s s' : @globals R) :
  points s = 9 ->
  calculate_shape arccos mm_per_px s = (Ok tt, s') ->
  exists a : R, image_data s' !! "im_asym" = Some (Num (Flt a)) /\ (1 <= a)%R.
Proof.
  intros Hp H. unfold calculate_shape in H. unfold bind at 1, get in H.
  cbv beta in H. rewrite Hp in H. cbn [Z.eqb orb Pos.eqb] in H.
  apply bind_Ok in H as ([] & s1 & _ & H).
  apply bind_Ok in H as (l1 & s2 & _ & H).
  apply bind_Ok in H as (l2 & s3 & _ & H).
  apply bind_Ok in H as ([] & s4 & _ & H).
  apply bind_Ok in H as (m1 & s5 & _ & H).
  apply bind_Ok in H as (m2 & s6 & _ & H).
  apply bind_Ok in H as ([] & s7 & _ & H).
  apply bind_Ok in H as (cr & s8 & Hc & H).
  apply bind_Ok in Hc as (a1 & t1 & _ & Hc).
  apply bind_Ok in Hc as (a2 & t2 & _ & Hc).
  apply bind_Ok in Hc as (b1 & t3 & _ & Hc).
  apply bind_Ok in Hc as (b2 & t4 & _ & Hc).
  destruct (distance_flt a1 a2) as (q1 & E1 & P1).
  destruct (distance_flt b1 b2) as (q3 & E3 & P3).
  rewrite E1, E3 in Hc. cbn [py_gt py_lt to_float fltb R_float] in Hc.
  assert (Hasym : exists a t5, (1 <= a)%R
            /\ (setitem "im_asym" (Num (Flt a)) ;; calculate_curvature arccos) t5
               = (Ok cr, s8)).
  { unfold R_ltb in Hc. destruct (Rlt_dec q1 q3) as [Hlt|Hge].
    - apply bind_Ok in Hc as (asym & t5 & Hd & Hc).
      apply py_div_Ok in Hd as (-> & Hq & ->). cbn [to_float] in *.
      exists (q3 / q1)%R, t4. split; [|exact Hc].
      apply (Rmult_le_reg_r q1); [lra|].
      unfold Rdiv. rewrite Rmult_assoc, Rinv_l by exact Hq. lra.
    - apply bind_Ok in Hc as (asym & t5 & Hd & Hc).
      apply py_div_Ok in Hd as (-> & Hq & ->). cbn [to_float] in *.
      exists (q1 / q3)%R, t4. split; [|exact Hc].
      apply (Rmult_le_reg_r q3); [lra|].
      unfold Rdiv. rewrite Rmult_assoc, Rinv_l by exact Hq. lra. }
  destruct Hasym as (a & t5 & Ha & Hset).
  exists a. split; [|exact Ha].
  apply bind_Ok in Hset as ([] & t6 & Hs6 & Hcurv).
  assert (K6 : holds "im_asym" (Num (Flt a)) t6).
  { unfold setitem, modify in Hs6. injection Hs6 as <-. unfold holds. cbn.
    apply lookup_insert_eq. }
  assert (K8 : holds "im_asym" (Num (Flt a)) s8).
  { assert (Hk : preserves (holds "im_asym" (Num (Flt a)))
                   (calculate_curvature arccos))
      by (unfold calculate_curvature; keeps).
    specialize (Hk t6 K6). rewrite Hcurv in Hk. exact Hk. }
  match type of H with
  | ?m s8 = _ =>
      assert (Hk : preserves (holds "im_asym" (Num (Flt a))) m) by keeps;
      specialize (Hk s8 K8); rewrite H in Hk; exact Hk
  end.
Qed.

Lemma asymmetry_is_at_least_one_witness :
  exists a : R,
    image_data (snd (calculate_shape acos None eight_points)) !! "im_asym"
    = Some (Num (Flt a)) /\ (1 <= a)%R.
Proof.
  apply (asymmetry_is_at_least_one acos None eight_points); [reflexivity|].
  assert (Hfst : forall (m : PyM (@globals R) unit) s,
            fst (m s) = Ok tt -> m s = (Ok tt, snd (m s))).
  { intros m s H. destruct (m s) as [o t]. cbn in *. congruence. }
  apply Hfst. unfold calculate_shape. unfold bind at 1, get. cbv beta.
  change (points eight_points) with 9. cbn [Z.eqb orb Pos.eqb].
  unfold bind at 1, setitem at 1, modify at 1.
  unfold bind at 1. erewrite getpoint_some by reflexivity.
  unfold bind at 1. erewrite getpoint_some by reflexivity.
  unfold bind at 1, setitem at 1, modify at 1.
  unfold bind at 1. erewrite getpoint_some by reflexivity.
  unfold bind at 1. erewrite getpoint_some by reflexivity.
  unfold bind at 1, setitem at 1, modify at 1.
  unfold bind at 1 2.
  erewrite getpoint_some by reflexivity.
  unfold bind at 1. erewrite getpoint_some by reflexivity.
  unfold bind at 1. erewrite getpoint_some by reflexivity.
  unfold bind at 1. erewrite getpoint_some by reflexivity.
  unfold distance, py_pow_half, py_sq, py_gt.
  cbn [fst snd py_sub py_add py_mul py_lt to_float fltb fsqrt of_int R_float].
  change ((10 - 10) * (10 - 10) + (12 - 8) * (12 - 8)) with 16.
  change ((30 - 30) * (30 - 30) + (12 - 8) * (12 - 8)) with 16.
  rewrite (R_ltb_false (sqrt 16) (sqrt 16)) by lra.
  assert (D : sqrt 16 <> 0%R) by (apply Rgt_not_eq, sqrt_lt_R0; lra).
  unfold bind at 1. rewrite (py_div_flt _ _ _ D).
  unfold bind at 1, setitem at 1, modify at 1.
  erewrite calculate_curvature_DNE by reflexivity.
  unfold bind at 1, contains at 1, gets at 1.
  rewrite bool_decide_eq_false_2; [reflexivity|].
  intros [v Hv]. vm_compute in Hv. discriminate.
Defined.

(** ** No name is read before it is bound *)

Create HintDb quiets discriminated.

Section Quiet.
Context {S : Type}.

Lemma quiet_ret {A} (a : A) : quiet (@ret S A a).
Proof. intros s. discriminate. Qed.

Lemma quiet_raise {A} e : e <> NameError -> quiet (@raise S A e).
Proof. intros He s. cbn. congruence. Qed.

Lemma quiet_hang {A} : quiet (@hang S A).
Proof. intros s. discriminate. Qed.

Lemma quiet_get : quiet (@get S).
Proof. intros s. discriminate. Qed.

Lemma quiet_gets {A} (f : S -> A) : quiet (gets f).
Proof. intros s. discriminate. Qed.

Lemma quiet_modify (f : S -> S) : quiet (modify f).
Proof. intros s. discriminate. Qed.

Lemma quiet_const {A} (o : outcome A) :
  o <> Raise NameError -> quiet (fun s : S => (o, s)).
Proof. intros Ho s. exact Ho. Qed.

Lemma quiet_bind {A B} (m : PyM S A) (k : A -> PyM S B) :
  quiet m -> (forall a, quiet (k a)) -> quiet (bind m k).
Proof.
  intros Hm Hk s. unfold bind. specialize (Hm s).
  destruct (m s) as [[a|e|] s']; cbn in *; [apply Hk | | discriminate].
  intros E. injection E as ->. apply Hm. reflexivity.
Qed.

Lemma quiet_swallow (m : PyM S unit) : quiet (swallow m).
Proof.
  intros s. unfold swallow. destruct (m s) as [[a|e|] s']; discriminate.
Qed.

Lemma bound_of_quiet {A} (I : S -> Prop) (m : PyM S A) :
  quiet m -> preserves I m -> bound I m (fun _ => I).
Proof.
  intros Hq Hp s Hs. specialize (Hq s). specialize (Hp s Hs).
  destruct (m s) as [[a|e|] s']; cbn in *; [exact Hp | congruence | exact Logic.I].
Qed.

Lemma bound_bind {A B} (I : S -> Prop) (Q : A -> S -> Prop)
    (R : B -> S -> Prop) (m : PyM S A) (k : A -> PyM S B) :
  bound I m Q -> (forall a, bound (Q a) (k a) R) -> bound I (bind m k) R.
Proof.
  intros Hm Hk s Hs. unfold bind. specialize (Hm s Hs).
  destruct (m s) as [[a|e|] s']; [apply Hk, Hm | exact Hm | exact Logic.I].
Qed.

Lemma bound_ret {A} (I : S -> Prop) (Q : A -> S -> Prop) (a : A) :
  (forall s, I s -> Q a s) -> bound I (ret a) Q.
Proof. intros H s Hs. apply H, Hs. Qed.

Lemma bound_weaken {A} (I I' : S -> Prop) (Q Q' : A -> S -> Prop)
    (m : PyM S A) :
  bound I m Q -> (forall s, I' s -> I s) -> (forall a s, Q a s -> Q' a s) ->
  bound I' m Q'.
Proof.
  intros Hm HI HQ s Hs. specialize (Hm s (HI s Hs)).
  destruct (m s) as [[a|e|] s']; auto.
Qed.

Lemma bound_quiet {A} (m : PyM S A) :
  bound (fun _ => True) m (fun _ _ => True) -> quiet m.
Proof.
  intros H s. specialize (H s Logic.I). destruct (m s) as [[a|e|] s']; cbn;
    [discriminate | congruence | discriminate].
Qed.

Lemma quiet_bound {A} (I : S -> Prop) (m : PyM S A) :
  quiet m -> bound I m (fun _ _ => True).
Proof.
  intros Hq s _. specialize (Hq s).
  destruct (m s) as [[a|e|] s']; cbn in *; [exact Logic.I | congruence | exact Logic.I].
Qed.

Lemma bound_false {A} (I : S -> Prop) (m : PyM S A) (Q : A -> S -> Prop) :
  (forall s, I s -> False) -> bound I m Q.
Proof. intros H s Hs. destruct (H s Hs). Qed.

End Quiet.

#[export] Hint Resolve quiet_ret quiet_hang quiet_get quiet_gets quiet_modify
  quiet_swallow : quiets.
#[export] Hint Extern 1 (quiet (raise _)) =>
  apply quiet_raise; discriminate : quiets.

Ltac quiets_step :=
  first
    [ assumption
    | solve [ auto 2 with quiets ]
    | apply quiet_bind; [ | intros ? ]
    | match goal with
      | |- quiet (if ?b then _ else _) => destruct b
      | |- quiet (match ?x with _ => _ end) => destruct x
      end ].
Ltac quiets := repeat quiets_step.

Section QuietHelpers.
Context {F : Type} {PF : PyFloat F} {S : Type}.

Lemma py_div_quiet (a b : @num F) : quiet (@py_div F PF S a b).
Proof. unfold py_div. quiets. Qed.
Lemma py_int_quiet (a : @num F) : quiet (@py_int F PF S a).
Proof. unfold py_int. quiets. Qed.
Lemma as_point_quiet (v : @value F) : quiet (@as_point F S v).
Proof. unfold as_point. quiets. Qed.
Lemma as_num_quiet (v : @value F) : quiet (@as_num F S v).
Proof. unfold as_num. quiets. Qed.
Hint Resolve py_div_quiet py_int_quiet as_point_quiet as_num_quiet : quiets.

Lemma midpoint_quiet (p q : @point F) : quiet (@midpoint F PF S p q).
Proof. unfold midpoint. quiets. Qed.
Hint Resolve midpoint_quiet : quiets.
Lemma calc_bisector_ends_quiet (p q : @point F) :
  quiet (@calc_bisector_ends F PF S p q).
Proof. unfold calc_bisector_ends. quiets. Qed.
Lemma intersect_bisectors_quiet c (p : @point F) :
  quiet (@intersect_bisectors F PF S c p).
Proof. unfold intersect_bisectors. quiets. Qed.
Hint Resolve intersect_bisectors_quiet : quiets.
Lemma get_circle_center_quiet (p q r : @point F) :
  quiet (@get_circle_center F PF S p q r).
Proof. unfold get_circle_center. quiets. Qed.
Lemma to_orig_quiet lo hi res c : quiet (@to_orig F PF S lo hi res c).
Proof. unfold to_orig. quiets. Qed.
Hint Resolve to_orig_quiet : quiets.
Lemma calc_new_view_quiet a b c d e f g h :
  quiet (@calc_new_view F PF S a b c d e f g h).
Proof. unfold calc_new_view. quiets. Qed.

End QuietHelpers.

#[export] Hint Resolve py_div_quiet py_int_quiet as_point_quiet as_num_quiet
  midpoint_quiet calc_bisector_ends_quiet get_circle_center_quiet
  to_orig_quiet calc_new_view_quiet : quiets.

(** *** The session *)

Lemma setitem_lacks {F} (k k' : string) (v : @value F) :
  k <> k' -> preserves (lacks k) (setitem k' v).
Proof.
  intros Hne. apply preserves_modify. intros s Hs. unfold lacks in *. cbn.
  rewrite lookup_insert_ne by congruence. exact Hs.
Qed.

Lemma setitem_scale {F} (mm : option (@num F)) (k : string) (v : @value F) :
  k <> "im_mm_per_px" -> preserves (scale_is_bound mm) (setitem k v).
Proof.
  intros Hne s Hs E. apply (setitem_lacks "im_mm_per_px" k v); [congruence|].
  apply Hs, E.
Qed.

#[export] Hint Extern 1 (preserves (lacks _) (setitem _ _)) =>
  apply setitem_lacks; discriminate : keeps.
#[export] Hint Extern 1 (preserves (scale_is_bound _) (setitem _ _)) =>
  apply setitem_scale; discriminate : keeps.
#[export] Hint Extern 1 (preserves (lacks _) (modify _)) =>
  apply preserves_modify; let H := fresh in intros ? H;
  first [exact H | apply lookup_empty] : keeps.

Section QuietSession.
Context {F : Type} {PF : PyFloat F}.
Variable resize_shape : Z * Z -> @num F -> outcome (Z * Z).
Variable arccos : F -> F.
Variable eval_input : string -> outcome (@num F).
Variable float_of_string : string -> option (@num F).
Hypothesis resize_quiet : forall shape f, resize_shape shape f <> Raise NameError.
Hypothesis input_quiet : forall t, eval_input t <> Raise NameError.

Lemma setitem_quiet k (v : @value F) : quiet (setitem k v).
Proof. apply quiet_modify. Qed.
Lemma getitem_quiet k : quiet (@getitem F k).
Proof. unfold getitem. quiets. Qed.
Hint Resolve setitem_quiet getitem_quiet : quiets.
Lemma getpoint_quiet k : quiet (@getpoint F k).
Proof. unfold getpoint. quiets. Qed.
Lemma contains_quiet k : quiet (@contains F k).
Proof. apply quiet_gets. Qed.
Lemma raw_input_quiet : quiet (@raw_input F).
Proof. intros s. unfold raw_input. destruct (stdin s); discriminate. Qed.
Lemma ask_quiet valid : quiet (@ask F valid).
Proof.
  intros s. unfold ask.
  assert (H : fst (ask_from valid (stdin s)) <> Raise NameError).
  { induction (stdin s) as [|l rest IH]; cbn; [discriminate|].
    destruct (valid l); [discriminate | exact IH]. }
  destruct (ask_from valid (stdin s)). exact H.
Qed.
Lemma local_quiet {A} (a : A) : quiet (@local (@globals F) A (Some a)).
Proof. apply quiet_ret. Qed.
Hint Resolve getpoint_quiet contains_quiet raw_input_quiet
  ask_quiet local_quiet : quiets.

Lemma handle_key_quiet k : quiet (@handle_key F k).
Proof. unfold handle_key. quiets. Qed.
Lemma make_new_view_quiet a b c d im :
  quiet (@make_new_view F PF resize_shape (@globals F) a b c d im).
Proof. unfold make_new_view. quiets. apply quiet_const, resize_quiet. Qed.
Hint Resolve handle_key_quiet make_new_view_quiet : quiets.

Lemma inner_loop_quiet evs : quiet (inner_loop resize_shape evs).
Proof. induction evs as [|[e x y|k] evs IH]; simpl; quiets. Qed.

Lemma click_loop_quiet windows : quiet (click_loop resize_shape windows).
Proof.
  induction windows as [|evs rest IH]; simpl.
  - apply quiet_bind; [apply (inner_loop_quiet []) | intros _; quiets].
  - apply quiet_bind; [apply inner_loop_quiet | intros _].
    apply quiet_bind; [quiets | intros s].
    destruct (img s) as [img_h img_w]. destruct (mode s); quiets.
Qed.

Lemma collect_clicks_quiet shape windows :
  quiet (collect_clicks resize_shape shape windows).
Proof.
  unfold collect_clicks. destruct shape. quiets. apply click_loop_quiet.
Qed.

Lemma calculate_curvature_quiet : quiet (calculate_curvature arccos).
Proof. unfold calculate_curvature. quiets. Qed.

Lemma review_quiet : quiet (review float_of_string).
Proof. unfold review. quiets. Qed.

(** The callback and the keys never record a scale. *)
Lemma click_loop_lacks windows :
  preserves (lacks "im_mm_per_px") (click_loop resize_shape windows).
Proof.
  assert (Hbox : forall x y,
            preserves (lacks "im_mm_per_px") (@annotate_box F PF x y))
    by (intros; unfold annotate_box; keeps).
  assert (Hpts : forall w h,
            preserves (lacks "im_mm_per_px") (@annotate_points F PF w h))
    by (intros; unfold annotate_points, incr_points; keeps).
  assert (Hsb : forall w h,
            preserves (lacks "im_mm_per_px") (@annotate_scale_bar F w h))
    by (intros; unfold annotate_scale_bar; keeps).
  assert (Hcb : forall e x y,
            preserves (lacks "im_mm_per_px") (@annotate_image F PF e x y))
    by (intros; unfold annotate_image; keeps).
  assert (Hkey : forall k, preserves (lacks "im_mm_per_px") (@handle_key F k))
    by (intros; unfold handle_key; keeps).
  assert (Hin : forall evs,
            preserves (lacks "im_mm_per_px") (inner_loop resize_shape evs))
    by (induction evs as [|[e x y|k] evs IH]; simpl; keeps).
  induction windows as [|evs rest IH]; simpl.
  - apply preserves_bind; [apply (Hin []) | intros _; keeps].
  - apply preserves_bind; [apply Hin | intros _].
    apply preserves_bind; [keeps | intros s].
    destruct (img s) as [img_h img_w]. destruct (mode s); keeps.
Qed.

Lemma calculate_scaling_bound :
  bound (lacks "im_mm_per_px") (calculate_scaling eval_input)
        (fun mm => scale_is_bound mm).
Proof.
  unfold calculate_scaling.
  apply bound_bind with (Q := fun _ => lacks "im_mm_per_px");
    [apply bound_of_quiet; [quiets|keeps] | intros sb1].
  destruct sb1; [|apply bound_ret; intros s Hs _; exact Hs].
  apply bound_bind with (Q := fun _ => lacks "im_mm_per_px");
    [apply bound_of_quiet; [quiets|keeps] | intros sb2].
  destruct sb2; [|apply bound_ret; intros s Hs _; exact Hs].
  apply bound_weaken with (I := fun _ => True)
                          (Q := fun mm _ => mm <> None); [|auto|].
  - repeat (apply bound_bind with (Q := fun _ _ => True);
            [apply quiet_bound; quiets;
             try (apply quiet_const, input_quiet) | intros ?]).
    apply bound_ret. intros; discriminate.
  - intros mm s Hmm E. contradiction.
Qed.

Lemma calculate_curvature_bound (I : @globals F -> Prop) :
  (forall k v, k <> "im_mm_per_px" -> preserves I (setitem k v)) ->
  bound I (calculate_curvature arccos)
    (fun cr t => I t /\ (cr = None ->
                         exists r, holds "im_radius_px" r t
                                   /\ is_DNE r = true)).
Proof.
  intros Hset. unfold calculate_curvature.
  apply bound_bind
    with (Q := fun r t => I t /\ holds "im_radius_px" r t).
  { intros s Hs. unfold getitem, bind, get, ret, raise.
    destruct (image_data s !! "im_radius_px") eqn:E; [auto|discriminate]. }
  intros r. destruct (is_DNE r) eqn:Er.
  - apply bound_bind
      with (Q := fun _ t => I t /\ holds "im_radius_px" r t).
    { apply bound_of_quiet; [quiets|].
      intros s [H1 H2]. split; [apply Hset; [discriminate|exact H1]|].
      apply setitem_other; [discriminate|exact H2]. }
    intros _. apply bound_bind
      with (Q := fun _ t => I t /\ holds "im_radius_px" r t).
    { apply bound_of_quiet; [quiets|].
      intros s [H1 H2]. split; [apply Hset; [discriminate|exact H1]|].
      apply setitem_other; [discriminate|exact H2]. }
    intros _. apply bound_ret. intros s [H1 H2]. split; [exact H1|].
    intros _. exists r. auto.
  - apply bound_weaken with (I := I) (Q := fun cr t => I t /\ cr <> None);
      [|intros s [H _]; exact H|].
    + assert (HI : forall k v, k <> "im_mm_per_px" -> preserves I (setitem k v))
        by exact Hset.
      repeat (apply bound_bind with (Q := fun _ => I);
              [apply bound_of_quiet;
               [quiets | first [apply Hset; discriminate | keeps]]
              | intros ?]).
      apply bound_ret. intros s Hs. split; [exact Hs|discriminate].
    + intros cr t [Ht Hcr]. split; [exact Ht|]. intros E. contradiction.
Qed.

Ltac along I :=
  apply bound_bind with (Q := fun _ => I);
  [ apply bound_of_quiet; [quiets | keeps] | intros ? ].

Lemma calculate_shape_bound (mm_per_px : option (@num F)) :
  bound (scale_is_bound mm_per_px) (calculate_shape arccos mm_per_px)
        (fun _ _ => True).
Proof.
  intros s Hs. unfold calculate_shape. unfold bind at 1, get. cbv beta.
  destruct ((points s =? 5) || (points s =? 9)); [|exact Logic.I].
  match goal with
  | |- match ?m s with _ => _ end =>
      cut (bound (scale_is_bound mm_per_px) m (fun _ _ => True));
      [intros Hb; exact (Hb s Hs)|]
  end.
  clear Hs. destruct (points s =? 9) eqn:E9.
  - do 7 along (scale_is_bound mm_per_px).
    apply bound_bind
      with (Q := fun cr t =>
                   scale_is_bound mm_per_px t
                   /\ (cr = None ->
                       exists r, holds "im_radius_px" r t /\ is_DNE r = true)).
    { do 4 along (scale_is_bound mm_per_px).
      match goal with
      | |- context [if ?b then _ else _] => destruct b
      end; do 2 along (scale_is_bound mm_per_px);
        apply calculate_curvature_bound; intros k v Hk;
        apply setitem_scale; exact Hk. }
    intros cr.
    apply bound_bind
      with (Q := fun (scaled : bool) t =>
                   (cr = None ->
                    exists r, holds "im_radius_px" r t /\ is_DNE r = true)
                   /\ (scaled = true -> mm_per_px <> None)).
    { intros t [H1 H2]. unfold contains, gets. cbn. split; [exact H2|].
      intros E Hmm. apply bool_decide_eq_true_1 in E as [v Hv].
      specialize (H1 Hmm). unfold lacks in H1. congruence. }
    intros scaled. destruct scaled; [|apply bound_ret; auto].
    destruct mm_per_px as [mm|];
      [|apply bound_false; intros t [_ H]; apply H; reflexivity].
    destruct cr as [rad|].
    + apply quiet_bound. quiets.
    + apply bound_weaken
        with (I := fun t => exists r, holds "im_radius_px" r t
                                      /\ is_DNE r = true)
             (Q := fun _ _ => True);
        [|intros t [H _]; apply H; reflexivity|auto].
      intros t (r & Hr & Hd).
      match goal with
      | |- match ?m t with _ => _ end =>
          cut (bound (holds "im_radius_px" r) m (fun _ _ => True));
          [intros Hb; exact (Hb t Hr)|]
      end.
      do 4 along (holds (F := F) "im_radius_px" r).
      apply bound_bind
        with (Q := fun (r' : @value F) (_ : @globals F) => r' = r).
      { intros u Hu. unfold getitem, bind, get, ret, raise.
        unfold holds in Hu. rewrite Hu. reflexivity. }
      intros r'.
      destruct (is_DNE r') eqn:Er'.
      * apply quiet_bound. quiets.
      * apply bound_false. intros _ ->. congruence.
  - do 7 along (scale_is_bound mm_per_px).
    apply bound_bind with (Q := fun _ => scale_is_bound mm_per_px);
      [apply bound_ret; auto | intros cr].
    apply bound_bind
      with (Q := fun (scaled : bool) (_ : @globals F) =>
                   scaled = true -> mm_per_px <> None).
    { intros t H1. unfold contains, gets. cbn.
      intros E Hmm. apply bool_decide_eq_true_1 in E as [v Hv].
      specialize (H1 Hmm). unfold lacks in H1. congruence. }
    intros scaled. destruct scaled; [|apply bound_ret; auto].
    destruct mm_per_px as [mm|];
      [|apply bound_false; intros t H; apply H; reflexivity].
    apply quiet_bound. quiets.
Qed.

(** A session raises [NameError] only if [cv2.resize] or [input] does:
    the local variables [mm_per_px] and [curvature_rad], which are
    assigned on some paths only, are bound wherever they are read. *)
Theorem locals_are_bound_when_read (file : option (Z * Z))
    (windows : list (list event)) (s : @globals F) :
  fst (process_one_image resize_shape arccos eval_input float_of_string
         file windows s)
  <> Raise NameError.
Proof.
  apply bound_quiet. unfold process_one_image.
  apply bound_bind with (Q := fun _ => lacks (F := F) "im_mm_per_px").
  { intros t _. apply lookup_empty. }
  intros _. destruct file as [shape|]; [|apply quiet_bound; quiets].
  apply bound_bind with (Q := fun _ => lacks (F := F) "im_mm_per_px").
  { apply bound_of_quiet; [apply collect_clicks_quiet|].
    unfold collect_clicks. destruct shape. keeps. apply click_loop_lacks. }
  intros _. apply bound_bind with (Q := fun _ _ => True);
    [|intros _; apply quiet_bound, review_quiet].
  unfold derive_measurements.
  along (lacks (F := F) "im_mm_per_px").
  apply bound_bind with (Q := fun _ => lacks (F := F) "im_mm_per_px").
  { destruct a; [|apply bound_ret; auto].
    apply bound_of_quiet; [quiets|keeps]. }
  intros _. eapply bound_bind; [apply calculate_scaling_bound|].
  intros mm. apply calculate_shape_bound.
Qed.

End QuietSession.

Lemma locals_are_bound_when_read_witness :
  fst box_session <> Raise NameError.
Proof.
  apply locals_are_bound_when_read.
  - intros [h w] f. unfold cv2_resize_shape.
    repeat match goal with
           | |- context [match ?x with _ => _ end] => destruct x
           end; discriminate.
  - intros t. unfold decimal_input. destruct (decimal t); discriminate.
Defined.

(** ** Lengths in pixels and in millimetres *)

Section Calibrated.
Context {F : Type} {PF : PyFloat F}.
Variable arccos : F -> F.

Lemma preserves_Ok {A} (I : @globals F -> Prop) (m : PyM globals A) s a s' :
  preserves I m -> I s -> m s = (Ok a, s') -> I s'.
Proof. intros Hm Hs H. specialize (Hm s Hs). rewrite H in Hm. exact Hm. Qed.

Lemma setitem_holds k (v : @value F) s u s' :
  setitem k v s = (Ok u, s') -> holds k v s'.
Proof.
  unfold setitem, modify. intros H. destruct u. injection H as <-.
  unfold holds. cbn.
  apply lookup_insert_eq.
Qed.

Ltac carry K Hm :=
  match type of Hm with
  | ?m ?s = (Ok ?a, ?s') =>
      match type of K with
      | ?I s =>
          let Hp := fresh in
          assert (Hp : preserves I m) by (clear; keeps);
          apply (fun K0 => preserves_Ok I m s a s' Hp K0 Hm) in K;
          clear Hp
      end
  end.

(** When a scale has been recorded, the length and the width of the egg
    are stored in pixels and in millimetres, the latter being the former
    times the scale, and the status is 'absolute'. *)
Theorem millimetres_are_scaled_pixels (mm : @num F) (s s' : @globals F) :
  points s = 5 \/ points s = 9 ->
  is_Some (image_data s !! "im_mm_per_px") ->
  calculate_shape arccos (Some mm) s = (Ok tt, s') ->
  exists l w : @num F,
    image_data s' !! "im_length_straight_px" = Some (Num l)
    /\ image_data s' !! "im_length_straight" = Some (Num (py_mul mm l))
    /\ image_data s' !! "im_width_px" = Some (Num w)
    /\ image_data s' !! "im_width" = Some (Num (py_mul mm w))
    /\ image_data s' !! "im_status" = Some (Str "absolute").
Proof.
  intros Hp [v0 Hv0] H. unfold calculate_shape in H.
  unfold bind at 1, get in H. cbv beta in H.
  assert (E : (points s =? 5) || (points s =? 9) = true)
    by (destruct Hp as [-> | ->]; reflexivity).
  rewrite E in H. clear E.
  assert (K0 : holds "im_mm_per_px" v0 s) by exact Hv0.
  apply bind_Ok in H as ([] & s1 & H1 & H).
  carry K0 H1.
  apply bind_Ok in H as (l1 & s2 & H2 & H). apply getpoint_Ok in H2 as ->.
  apply bind_Ok in H as (l2 & s2 & H2 & H). apply getpoint_Ok in H2 as ->.
  apply bind_Ok in H as ([] & s2 & H2 & H).
  carry K0 H2.
  apply setitem_holds in H2 as KL.
  apply bind_Ok in H as (m1 & s3 & H3 & H). apply getpoint_Ok in H3 as ->.
  apply bind_Ok in H as (m2 & s3 & H3 & H). apply getpoint_Ok in H3 as ->.
  apply bind_Ok in H as ([] & s3 & H3 & H).
  carry K0 H3.
  carry KL H3.
  apply setitem_holds in H3 as KW.
  apply bind_Ok in H as (cr & s4 & H4 & H).
  assert (Hblock : forall k (v : @value F),
            k = "im_mm_per_px" \/ k = "im_length_straight_px"
            \/ k = "im_width_px" ->
            holds k v s3 -> holds k v s4).
  { intros k v Hk Hh. eapply preserves_Ok; [|exact Hh|exact H4].
    clear -Hk. destruct (points s =? 9); [|keeps].
    unfold calculate_curvature.
    destruct Hk as [-> | [-> | ->]]; keeps. }
  apply Hblock in K0; [|auto]. apply Hblock in KL; [|auto].
  apply Hblock in KW; [|auto]. clear Hblock H4.
  apply bind_Ok in H as (scaled & s5 & H5 & H).
  unfold contains, gets in H5. injection H5 as <- <-.
  rewrite bool_decide_eq_true_2 in H by (rewrite K0; eauto).
  apply bind_Ok in H as ([] & s5 & H5 & H).
  carry KL H5.
  carry KW H5.
  apply setitem_holds in H5 as KS.
  apply bind_Ok in H as (mm' & s6 & H6 & H). injection H6 as <- <-.
  apply bind_Ok in H as ([] & s6 & H6 & H).
  carry KL H6.
  carry KW H6.
  carry KS H6.
  apply setitem_holds in H6 as KLm.
  apply bind_Ok in H as ([] & s7 & H7 & H).
  carry KL H7.
  carry KW H7.
  carry KS H7.
  carry KLm H7.
  apply setitem_holds in H7 as KWm.
  match type of H with
  | ?m s7 = _ =>
      assert (Htail : forall k (v : @value F),
                k = "im_length_straight_px" \/ k = "im_width_px"
                \/ k = "im_status" \/ k = "im_length_straight"
                \/ k = "im_width" ->
                holds k v s7 -> holds k v s');
      [ intros k v Hk Hh; eapply preserves_Ok; [|exact Hh|exact H];
        clear -Hk; destruct Hk as [-> | [-> | [-> | [-> | ->]]]]; keeps |]
  end.
  exists (distance l1 l2), (distance m1 m2).
  repeat split; apply Htail; auto 6.
Qed.

End Calibrated.

Lemma millimetres_are_scaled_pixels_witness :
  exists l w : @num PrimFloat.float,
    image_data (snd (calculate_shape (fun x => x) (Some (dec 5 1)) four_points))
      !! "im_length_straight_px" = Some (Num l)
    /\ image_data (snd (calculate_shape (fun x => x) (Some (dec 5 1)) four_points))
         !! "im_length_straight" = Some (Num (py_mul (dec 5 1) l))
    /\ image_data (snd (calculate_shape (fun x => x) (Some (dec 5 1)) four_points))
         !! "im_width_px" = Some (Num w)
    /\ image_data (snd (calculate_shape (fun x => x) (Some (dec 5 1)) four_points))
         !! "im_width" = Some (Num (py_mul (dec 5 1) w))
    /\ image_data (snd (calculate_shape (fun x => x) (Some (dec 5 1)) four_points))
         !! "im_status" = Some (Str "absolute").
Proof.
  apply (millimetres_are_scaled_pixels (fun x => x) (dec 5 1) four_points).
  - left. reflexivity.
  - eexists. vm_compute. reflexivity.
  - vm_compute. reflexivity.
Defined.

(** ** An entry opened and left without a mark, in the run *)

Section Resolved.
Context {F : Type} {PF : PyFloat F}.
Variable resize_shape : Z * Z -> @num F -> outcome (Z * Z).
Variable arccos : F -> F.
Variable eval_input : string -> outcome (@num F).
Variable float_of_string : string -> option (@num F).

Lemma unmarked_session shape windows (s s1 : @globals F) :
  collect_clicks resize_shape shape windows (set_image_data ∅ s) = (Ok tt, s1) ->
  image_data s1 = ∅ ->
  process_one_image resize_shape arccos eval_input float_of_string
    (Some shape) windows s
  = (Ok {[ "im_status" := Str "none" ]},
     set_image_data {[ "im_status" := Str "none" ]} s1).
Proof.
  intros Hclicks Hd.
  pose proof (collect_clicks_counted resize_shape shape windows
                (set_image_data ∅ s)) as Hc.
  rewrite Hclicks in Hc. destruct Hc as [Hp|Hne]; [|contradiction].
  simpl in Hp.
  unfold process_one_image. unfold bind at 1, modify.
  unfold bind at 1. rewrite Hclicks.
  unfold bind. rewrite (derive_measurements_blank _ _ _ Hd Hp).
  apply review_blank, Hd.
Qed.

Lemma update_none_lookup (d : gmap string (@value F)) k :
  k <> "im_status" ->
  update d {[ "im_status" := Str "none" ]} !! k = d !! k.
Proof.
  intros Hk. unfold update. apply lookup_union_r.
  apply lookup_singleton_ne. congruence.
Qed.

Lemma base_img_name_update {S} (d : gmap string (@value F)) (s : S) :
  base_img_name (update d {[ "im_status" := Str "none" ]}) s
  = base_img_name d s.
Proof.
  unfold base_img_name, field, has.
  rewrite !update_none_lookup by discriminate. reflexivity.
Qed.

Lemma base_img_name_ID (d : gmap string (@value F)) name :
  run_pure (base_img_name d) = Ok name -> is_Some (d !! "ID").
Proof.
  unfold run_pure, base_img_name, field, as_str, bind, ret, raise.
  destruct (d !! "ID"); [eauto|].
  destruct (has d "cs"), (has d "cg");
    repeat match goal with
           | |- context [match ?x with _ => _ end] =>
               match x with
               | _ !! _ => destruct x as [[]|]
               end; cbn [fst]; try discriminate
           end.
Qed.

Variable files : string -> option (Z * Z).
Variable ui : nat -> list (list event).

Abbreviation loop := (entries_loop resize_shape arccos eval_input
                        float_of_string files ui).

(** An entry that is to be measured and whose session returns. *)
Lemma entry_is_measured (j : nat) (rest : list nat) (r : @run F)
    (d image_dict : gmap string (@value F)) (name : string) (g : globals) :
  file_list r !! j = Some (Dict d) ->
  eligible d = true ->
  run_pure (base_img_name d) = Ok name ->
  is_Some (d !! "g") ->
  process_one_image resize_shape arccos eval_input float_of_string
    (files name) (ui j) (session r) = (Ok image_dict, g) ->
  loop (j :: rest) r
  = if bool_decide (mode g = quit) then (Ok tt, set_session g r)
    else loop rest (saved j d image_dict g r).
Proof.
  intros Ej El Hname [vg Hg] Hrun.
  destruct (base_img_name_ID d name Hname) as [vid Hid].
  cbn [entries_loop]. unfold bind at 1, get. cbv beta. rewrite Ej.
  unfold bind at 1, ret at 1. unfold bind at 1, ret at 1. unfold bind at 1.
  rewrite (pure_run (base_img_name d) r)
    by (intros I; apply base_img_name_keeps).
  rewrite base_img_name_run, Hname.
  assert (St : match d !! "im_status" with
               | Some v => let* _ := as_str v in ret tt
               | None => ret tt
               end r = (Ok tt, r)).
  { unfold eligible in El. destruct (d !! "im_status") as [[]|];
      try reflexivity; cbn in El; discriminate. }
  unfold bind at 1. rewrite St. rewrite El.
  assert (Fd : (if has d "s" then field d "g" ;; field d "s" ;; ret tt
                else field d "g" ;; ret tt) r = (Ok tt, r)).
  { unfold field, bind, ret. rewrite Hg. unfold has.
    destruct (d !! "s") eqn:Es.
    - rewrite bool_decide_eq_true_2 by eauto. reflexivity.
    - rewrite bool_decide_eq_false_2; [reflexivity|].
      intros [v Hv]. discriminate. }
  unfold bind at 1. rewrite Fd.
  unfold bind at 1, field at 1. rewrite Hid. unfold ret at 1.
  unfold bind at 1, call at 1. rewrite Hrun.
  unfold bind at 1, get. cbv beta.
  change (session (set_session g r)) with g.
  destruct (bool_decide (mode g = quit)); reflexivity.
Qed.


End Resolved.


